(** * datapoint: a typed client for the Met Office DataPoint service

    A shallow embedding of the Go package [datapoint] (files [val.go],
    [txt.go], [contants.go] and the client file holding [fetch]) together
    with the properties its specification states about it.

    Conventions of the embedding.
    - A Go [string] is a [string] (a sequence of 8-bit characters).
    - A Go [int], [int64] or [time.Duration] is a [Z]; [int] is 64 bits
      wide, and every arithmetic operation of the source that can wrap is
      written with [int64].
    - A Go [map[string]T] is a [gmap string T].  The order in which a
      [range] loop visits a map is not fixed by the language: it is chosen
      by a scheduler [pick], over which every statement quantifies.
    - A Go pair [(T, error)] returned by a function of the package is a pair
      of options, [None] standing for [nil]; the package never returns a
      typed nil.
    - What [log/slog] receives is collected in a list of [LogRecord]s,
      returned beside the result of each call that can log.
    - The standard library's [strconv.ParseInt] and [url.QueryEscape] are
      modelled; [time.Parse], [strconv.ParseFloat], [json.Unmarshal],
      [url.JoinPath] and the HTTP transport are parameters. *)

From Stdlib Require Import ZArith String Ascii List Lia PrimFloat.
From stdpp Require Import base option gmap strings list pretty.

Set Warnings "-register-all,-clear-no-such-hyp".

Open Scope string_scope.
Open Scope list_scope.
Open Scope Z_scope.

(** ** Errors *)

(** The [error] values the package builds or receives.  [fmt.Errorf] is kept
    structured: the format, the operands of its [%v] verbs (all of them
    strings in this package) and the error wrapped by [%w], if any. *)
Inductive error : Type :=
| errorString (s : string)                      (* errors.New *)
| NumError (Func Num : string) (Err : error)    (* strconv.NumError *)
| ParseError (Layout Value LayoutElem ValueElem Message : string)
                                                (* time.ParseError *)
| foreignError (pkg msg : string)               (* url, net/http, io, encoding/json *)
| Errorf (format : string) (a : list string) (w : option error).

(** [mentions s e]: the text of [e] embeds [s].  A [NumError] prints the
    number it was given, a [ParseError] prints its value and its layout,
    [fmt.Errorf] prints its operands and the wrapped error. *)
Fixpoint mentions (s : string) (e : error) : Prop :=
  match e with
  | errorString _ => False
  | NumError _ Num Err => s = Num \/ mentions s Err
  | ParseError Layout Value _ _ _ => s = Layout \/ s = Value
  | foreignError _ _ => False
  | Errorf _ a w =>
      In s a \/ match w with Some e' => mentions s e' | None => False end
  end.

(** ** Machine integers *)

Definition int64 (z : Z) : Z := (z + 2 ^ 63) mod 2 ^ 64 - 2 ^ 63.
Definition uint64 (z : Z) : Z := z mod 2 ^ 64.

(** ** strconv *)

Module strconv.

Definition ErrSyntax : error := errorString "invalid syntax".
Definition ErrRange : error := errorString "value out of range".

Definition syntaxError (fn str : string) : error := NumError fn str ErrSyntax.
Definition rangeError (fn str : string) : error := NumError fn str ErrRange.
Definition bitSizeError (fn str : string) (bitSize : Z) : error :=
  NumError fn str (errorString ("invalid bit size " +:+ pretty bitSize)).

Definition isDigit (c : ascii) : bool :=
  (48 <=? Z.of_N (N_of_ascii c)) && (Z.of_N (N_of_ascii c) <=? 57).
Definition digit (c : ascii) : Z := Z.of_N (N_of_ascii c) - 48.

(** [maxUint64/10 + 1]: the smallest [n] with [n * 10] beyond 64 bits. *)
Definition cutoff10 : Z := (2 ^ 64 - 1) / 10 + 1.

(** The digit loop of [ParseUint] for base 10.  In base 10 a letter is a
    digit at least as large as the base and an underscore is no digit at
    all, so every byte outside ['0'..'9'] is a syntax error. *)
Fixpoint parseUintLoop (s0 : string) (maxVal : Z) (s : string) (n : Z)
  : Z * option error :=
  match s with
  | EmptyString => (n, None)
  | String c s' =>
      if isDigit c then
        if cutoff10 <=? n then (maxVal, Some (rangeError "ParseUint" s0))
        else
          let n := uint64 (n * 10) in
          let n1 := uint64 (n + digit c) in
          if (n1 <? n) || (maxVal <? n1)
          then (maxVal, Some (rangeError "ParseUint" s0))
          else parseUintLoop s0 maxVal s' n1
      else (0, Some (syntaxError "ParseUint" s0))
  end.

(** [strconv.ParseUint(s, 10, bitSize)]. *)
Definition ParseUint (s : string) (bitSize : Z) : Z * option error :=
  if String.eqb s "" then (0, Some (syntaxError "ParseUint" s))
  else
    if (bitSize <? 0) || (64 <? bitSize)
    then (0, Some (bitSizeError "ParseUint" s bitSize))
    else
      let bitSize := if bitSize =? 0 then 64 else bitSize in
      parseUintLoop s (2 ^ bitSize - 1) s 0.

(** Whether the cause carried by a [NumError] is [ErrRange]. *)
Definition isErrRange (e : error) : bool :=
  match e with
  | errorString msg => String.eqb msg "value out of range"
  | _ => false
  end.

(** The tail of [ParseInt]: the magnitude [un] against the cutoff
    [2^(bitSize-1)], then the sign. *)
Definition signedRange (s0 : string) (neg : bool) (un bitSize : Z)
  : Z * option error :=
  let bitSize := if bitSize =? 0 then 64 else bitSize in
  let cutoff := uint64 (2 ^ (bitSize - 1)) in
  if negb neg && (cutoff <=? un)
  then (int64 (cutoff - 1), Some (rangeError "ParseInt" s0))
  else if neg && (cutoff <? un)
  then (int64 (- int64 cutoff), Some (rangeError "ParseInt" s0))
  else
    let n := int64 un in
    (if neg then int64 (- n) else n, None).

(** [strconv.ParseInt(s, 10, bitSize)]: an optional sign, then
    [ParseUint]; an error other than a range error is renamed and
    returned, a range error is reported again by the cutoff test. *)
Definition ParseInt (s : string) (bitSize : Z) : Z * option error :=
  match s with
  | EmptyString => (0, Some (syntaxError "ParseInt" s))
  | String c rest =>
      let '(neg, body) :=
        if Ascii.eqb c "+" then (false, rest)
        else if Ascii.eqb c "-" then (true, rest)
        else (false, s) in
      let '(un, err) := ParseUint body bitSize in
      match err with
      | Some (NumError _ _ Err) =>
          if isErrRange Err then signedRange s neg un bitSize
          else (0, Some (NumError "ParseInt" s Err))
      | Some e => (0, Some e)
      | None => signedRange s neg un bitSize
      end
  end.

End strconv.

(** ** time *)

(** An instant is its number of nanoseconds since the Unix epoch; a
    [time.Duration] is a number of nanoseconds in 64 bits.  (Go's [Time.Add]
    saturates only beyond some 292 billion years, out of reach of the sums
    formed here.) *)
Definition Time : Type := Z.

Module time.
Definition Second : Z := 1000000000.
Definition RFC3339 : string := "2006-01-02T15:04:05Z07:00".
Definition DateOnly : string := "2006-01-02".
Definition Add (t : Time) (d : Z) : Time := t + d.
End time.

(** ** net/url *)

Module url.

Definition upperhex (n : N) : ascii :=
  match n with
  | 0 => "0" | 1 => "1" | 2 => "2" | 3 => "3" | 4 => "4" | 5 => "5"
  | 6 => "6" | 7 => "7" | 8 => "8" | 9 => "9" | 10 => "A" | 11 => "B"
  | 12 => "C" | 13 => "D" | 14 => "E" | _ => "F"
  end%N%char.

Definition between (lo hi c : ascii) : bool :=
  (N_of_ascii lo <=? N_of_ascii c)%N && (N_of_ascii c <=? N_of_ascii hi)%N.

(** [shouldEscape(c, encodeQueryComponent)]: letters, digits and the four
    marks [- _ . ~] pass; in a query component everything else is
    escaped, the reserved characters included. *)
Definition shouldEscape (c : ascii) : bool :=
  if between "a" "z" c || between "A" "Z" c || between "0" "9" c then false
  else if Ascii.eqb c "-" || Ascii.eqb c "_" || Ascii.eqb c "."
          || Ascii.eqb c "~"
  then false
  else true.

(** [url.QueryEscape]: a space becomes [+], every other escaped byte
    becomes [%XX] in upper-case hexadecimal. *)
Fixpoint QueryEscape (s : string) : string :=
  match s with
  | EmptyString => EmptyString
  | String c s' =>
      if shouldEscape c then
        if Ascii.eqb c " " then String "+" (QueryEscape s')
        else
          String "%"
            (String (upperhex (N_of_ascii c / 16))
               (String (upperhex (N_of_ascii c mod 16)) (QueryEscape s')))
      else String c (QueryEscape s')
  end.

End url.

(** ** log/slog *)

Inductive logValue : Type :=
| logString (s : string)
| logError (e : error).

Record LogRecord : Type := {
  Level : string;
  Message : string;
  Attrs : list (string * logValue)
}.

Definition slog_Warn (msg : string) (args : list (string * logValue))
  : LogRecord :=
  {| Level := "WARN"; Message := msg; Attrs := args |}.

(** ** Control flow of a loop body *)

(** A loop of the source either runs to its end with the value it has
    built, or leaves the enclosing function with [return nil, err]. *)
Inductive flow (A : Type) : Type :=
| Next (a : A)
| Return (e : error).
Arguments Next {A} a.
Arguments Return {A} e.

#[global] Instance flow_ret : MRet flow := @Next.
#[global] Instance flow_bind : MBind flow := fun A B k m =>
  match m with
  | Next a => k a
  | Return e => Return e
  end.

(** [try r wrap]: the idiom [x, err := f(...); if err != nil { return nil,
    wrap(err) }] inside a loop. *)
Definition try {A} (r : A * option error) (wrap : option error -> error)
  : flow A :=
  match r with
  | (a, None) => Next a
  | (_, Some err) => Return (wrap (Some err))
  end.

(** [each f l]: a loop [for i, x := range l { ...; out[i] = y }] over a
    slice, filling the slot of each element in order. *)
Fixpoint each {A B} (f : A -> flow B) (l : list A) : flow (list B) :=
  match l with
  | [] => Next []
  | x :: l' =>
      y ← f x; ys ← each f l'; Next (y :: ys)
  end.

(** The same idiom at the level of a function returning a result and an
    error. *)
Definition check {A B} (r : A * option error) (wrap : option error -> error)
  (k : A -> option B * option error) : option B * option error :=
  match r with
  | (a, None) => k a
  | (_, Some err) => (None, Some (wrap (Some err)))
  end.

Notation "x <~ r 'orelse' wrap ; k" := (check r wrap (fun x => k))
  (at level 20, r at level 100, wrap at level 9, k at level 200,
   only parsing).

(** ** Ranging over a map *)

Section range.
Context {A : Type}.

(** [pick l] chooses which of the entries [l] still to visit comes next
    (its index, taken modulo the number of entries). *)
Variable pick : list A -> nat.

Fixpoint visit (fuel : nat) (l : list A) : list A :=
  match fuel with
  | O => []
  | S fuel' =>
      let i := (pick l mod length l)%nat in
      match l !! i with
      | Some x => x :: visit fuel' (delete i l)
      | None => []
      end
  end.

Definition rangeOrder (l : list A) : list A := visit (length l) l.

End range.

(** The scheduler that visits entries in the order [order]: the next entry
    is the first of [order] that is still to visit. *)
Definition pickInOrder {A} `{!EqDecision A} (order l : list A) : nat :=
  match list_find (fun x => x ∈ l) order with
  | Some (_, x) =>
      match list_find (x =.) l with
      | Some (i, _) => i
      | None => 0%nat
      end
  | None => 0%nat
  end.

(** ** contants.go *)

Definition KnownParameterFeelsLikeTemp := "F".
Definition KnownParameterWindGust := "G".
Definition KnownParameterWindGustNoon := "Gn".
Definition KnownParameterScreenRelativeHumidity := "H".
Definition KnownParameterScreenRelativeHumidityNoon := "Hn".
Definition KnownParameterTemperature := "T".
Definition KnownParameterDayMaximumTemperature := "Dm".
Definition KnownParameterNightMinimumTemperature := "Nm".
Definition KnownParameterFeelsLikeDayMaximumTemperature := "FDm".
Definition KnownParameterVisibility := "V".
Definition KnownParameterWindDirection := "D".
Definition KnownParameterWindSpeed := "S".
Definition KnownParameterMaxUvIndex := "U".
Definition KnownParameterWeatherType := "W".
Definition KnownParameterPrecipitationProbability := "Pp".
Definition KnownParameterPrecipitationProbabilityDay := "PPd".
Definition KnownParameterPrecipitationProbabilityNight := "PPn".


Definition Resolution : Type := string.
Definition ResolutionThreeHourly : Resolution := "3hourly".
Definition ResolutionDaily : Resolution := "daily".

(** [type UvIndex int] and its five methods. *)
Definition UvIndex : Type := Z.

Definition IsLowExposure (i : UvIndex) : bool := (1 <=? i) && (i <=? 2).
Definition IsModerateExposure (i : UvIndex) : bool := (3 <=? i) && (i <=? 5).
Definition IsHighExposure (i : UvIndex) : bool := (6 <=? i) && (i <=? 7).
Definition IsVeryHighExposure (i : UvIndex) : bool := (8 <=? i) && (i <=? 10).
Definition IsExtremeExposure (i : UvIndex) : bool := 11 <=? i.

(** ** The client and its transport: types *)

Definition float64 : Type := float.

(** [Supplier[T]]: something that yields a [T] when asked. *)
Class Supplier (S T : Type) : Type := Get : S -> T.

Record stringSupplier : Type := { value : string }.

#[global] Instance stringSupplier_Get : Supplier stringSupplier string :=
  value.

Module http.

(** A response body: the bytes it yields before it ends or fails, the
    error it fails with, and the error of closing it. *)
Record ReadCloser : Type := {
  data : string;
  readErr : option error;
  closeErr : option error
}.

Record Response : Type := {
  Status : string;
  StatusCode : Z;
  Header : list (string * list string);
  Body : ReadCloser
}.

(** The [Get] method of an HTTP client: a response, or the error of the
    round trip. *)
Definition Client : Type := string -> Response + error.

End http.

Module io.
Definition ReadAll (r : http.ReadCloser) : string * option error :=
  (http.data r, http.readErr r).
End io.

Record DataPointClient (S : Type) : Type := {
  apiKeySupplier : S;
  baseUrl : string;
  httpClient : http.Client
}.
Arguments apiKeySupplier {S} d.
Arguments baseUrl {S} d.
Arguments httpClient {S} d.

(** [json.Unmarshal(body, &result)] for a result of type [T]. *)
Class Unmarshaler (T : Type) : Type := Unmarshal : string -> T * option error.

(** ** val.go: wire schemas and domain model *)

Module siteResponse.
Record Location : Type := {
  Elevation : string;
  Id : string;
  Latitude : string;
  Longitude : string;
  Name : string;
  Region : string;
  UnitaryAuthArea : string
}.
Record t : Type := { Locations_Location : list Location }.
End siteResponse.

Module Site.
Record t : Type := {
  Id : Z;
  Latitude : float64;
  Longitude : float64;
  Name : string;
  Elevation : float64;
  Region : string;
  UnitaryAuthArea : string
}.
End Site.

Module capabilitiesResponse.
Record t : Type := {
  DataDate : string;
  Resolution_ : Resolution;
  Type_ : string;
  TimeSteps_TS : list string
}.
End capabilitiesResponse.

Module TimeSteps.
Record t : Type := {
  DataDate : Time;
  Resolution_ : Resolution;
  Type_ : string;
  TimeSteps : list Time
}.
End TimeSteps.

Module wxResponse.
Record Param : Type := {
  Name : string;
  Units : string;
  Description : string
}.
Record t : Type := { Params : list Param }.
End wxResponse.

Module locationEntry.
Record Period : Type := {
  Type_ : string;
  Value : string;
  Rep : list (gmap string string)
}.
Record t : Type := {
  Id : string;
  Latitude : string;
  Longitude : string;
  Name : string;
  Country : string;
  Continent : string;
  Elevation : string;
  Periods : list Period
}.
End locationEntry.

Module dvEntry.
Record t : Type := {
  DataDate : string;
  Type_ : string;
  Location : locationEntry.t
}.
End dvEntry.

Module dvMultipleEntry.
Record t : Type := {
  DataDate : string;
  Type_ : string;
  Location : list locationEntry.t
}.
End dvMultipleEntry.

Module siteRepResponse.
Record t : Type := { Wx : wxResponse.t; Dv : dvEntry.t }.
End siteRepResponse.

Module siteRepAllResponse.
Record t : Type := { Wx : wxResponse.t; Dv : dvMultipleEntry.t }.
End siteRepAllResponse.

Module ParameterDescriptor.
Record t : Type := {
  Name : string;
  Units : string;
  Description : string
}.
End ParameterDescriptor.

Module StringParameterValue.
Record t : Type := {
  Descriptor : ParameterDescriptor.t;
  Value : string
}.
End StringParameterValue.

Module IntParameterValue.
Record t : Type := {
  Descriptor : ParameterDescriptor.t;
  Value : Z
}.
End IntParameterValue.

Module Forecast.
Record t : Type := {
  Time_ : Time;
  IntParams : gmap string IntParameterValue.t;
  StringParams : gmap string StringParameterValue.t
}.
End Forecast.

Module Period.
Record t : Type := {
  Type_ : string;
  Time_ : Time;
  Forecasts : list Forecast.t
}.
End Period.

Module LocationRep.
Record t : Type := {
  Id : Z;
  Latitude : float64;
  Longitude : float64;
  Name : string;
  Country : string;
  Continent : string;
  Elevation : float64;
  Periods : list Period.t
}.
End LocationRep.

Module SiteRep.
Record t : Type := {
  DataDate : Time;
  Type_ : string;
  Location : LocationRep.t
}.
End SiteRep.

Definition knownIntParams : list string := [
  KnownParameterFeelsLikeTemp;
  KnownParameterWindGust;
  KnownParameterScreenRelativeHumidity;
  KnownParameterPrecipitationProbability;
  KnownParameterWindSpeed;
  KnownParameterTemperature;
  KnownParameterWeatherType;
  KnownParameterMaxUvIndex;
  KnownParameterWindGustNoon;
  KnownParameterScreenRelativeHumidityNoon;
  KnownParameterDayMaximumTemperature;
  KnownParameterNightMinimumTemperature;
  KnownParameterFeelsLikeDayMaximumTemperature;
  KnownParameterPrecipitationProbabilityDay;
  KnownParameterPrecipitationProbabilityNight;
  "$"
].

(** [slices.Contains] on strings. *)
Definition slices_Contains (s : list string) (v : string) : bool :=
  existsb (String.eqb v) s.
Arguments slices_Contains : simpl never.

(** ** txt.go: wire schemas and domain model *)

Module ExtremeCapabilities.
Record t : Type := { ExtremeDate : Time; IssuedAt : Time }.
End ExtremeCapabilities.

Module extremeCapabilitiesResponse.
Record t : Type := { ExtremeDate : string; IssuedAt : string }.
End extremeCapabilitiesResponse.

Module Extreme.
Record t : Type := {
  LocationId : Z;
  LocationName : string;
  Type_ : string;
  UnitOfMeasurement : string;
  Value : float64
}.
End Extreme.

Module Region.
Record t : Type := {
  Id : string;
  Name : string;
  Extremes : list Extreme.t
}.
End Region.

Module LatestExtremes.
Record t : Type := {
  ExtremeDate : Time;
  IssuedAt : Time;
  Regions : list Region.t
}.
End LatestExtremes.

Module latestExtremesResponse.
Record Extreme : Type := {
  LocationId : string;
  LocationName : string;
  Type_ : string;
  Uom : string;
  Value : string
}.
Record Region : Type := {
  Id : string;
  Name : string;
  Extremes_Extreme : list Extreme
}.
Record t : Type := {
  ExtremeDate : string;
  IssuedAt : string;
  Regions_Region : list Region
}.
End latestExtremesResponse.

Module RegionalForecastSite.
Record t : Type := { Id : Z; Name : string }.
End RegionalForecastSite.

Module regionalForecastSiteListResponse.
Record Location : Type := { Id : string; Name : string }.
Record t : Type := { Locations_Location : list Location }.
End regionalForecastSiteListResponse.

Module RegionalForecastCapabilities.
Record t : Type := { IssuedAt : Time }.
End RegionalForecastCapabilities.

Module regionalForecastCapabilitiesResponse.
Record t : Type := { IssuedAt : string }.
End regionalForecastCapabilitiesResponse.

(** ** The package's functions

    A byte slice is the string of its bytes, [nil] being the empty one: the
    package hands a body to [json.Unmarshal] and to nothing else. *)

Section datapoint.

(** The credential source of the client. *)
Context {S : Type} `{!Supplier S string}.

(** The standard library, as far as it is not modelled above:
    [url.JoinPath(base, elem)], [strconv.ParseFloat(s, 64)],
    [time.Parse(layout, value)], [t.Format(layout)]. *)
Variable JoinPath : string -> string -> string * option error.
Variable ParseFloat : string -> float64 * option error.
Variable time_Parse : string -> string -> Time * option error.
Variable time_Format : Time -> string -> string.

(** The order in which [range] visits the entries of a map. *)
Variable pick : list (string * string) -> nat.

Context {jsonSites : Unmarshaler siteResponse.t}
        {jsonCapabilities : Unmarshaler capabilitiesResponse.t}
        {jsonSiteRep : Unmarshaler siteRepResponse.t}
        {jsonSiteRepAll : Unmarshaler siteRepAllResponse.t}
        {jsonExtremeCapabilities : Unmarshaler extremeCapabilitiesResponse.t}
        {jsonLatestExtremes : Unmarshaler latestExtremesResponse.t}
        {jsonRegionalSites : Unmarshaler regionalForecastSiteListResponse.t}
        {jsonRegionalCapabilities :
           Unmarshaler regionalForecastCapabilitiesResponse.t}.

(** *** fetch *)

(** The URL [fetch] requests: [withKey] after the loop over [params]. *)
Definition requestURL (target key : string)
  (params : option (gmap string string)) : string :=
  let withKey := target +:+ "?key=" +:+ key in
  match params with
  | None => withKey
  | Some params =>
      fold_left
        (fun withKey kv =>
           withKey +:+ "&" +:+ url.QueryEscape kv.1 +:+ "="
                   +:+ url.QueryEscape kv.2)
        (rangeOrder pick (map_to_list params)) withKey
  end.

(** What the deferred closing of the body logs. *)
Definition closeBody (description : string) (Body : http.ReadCloser)
  : list LogRecord :=
  match http.closeErr Body with
  | Some err =>
      [slog_Warn "failed to close body from query"
         [("err", logError err); ("desc", logString description)]]
  | None => []
  end.

Definition fetch (d : DataPointClient S) (description suffix : string)
  (params : option (gmap string string))
  : (string * string * option error) * list LogRecord :=
  match JoinPath (baseUrl d) suffix with
  | (_, Some err) =>
      (("", "???",
        Some (Errorf "failed to generate %v url: %w" [description]
                (Some err))), [])
  | (target, None) =>
      let withKey := requestURL target (Get (apiKeySupplier d)) params in
      match httpClient d withKey with
      | inr err =>
          (("", target,
            Some (Errorf "failed to query %v for %v: %w"
                    [target; description] (Some err))), [])
      | inl r =>
          match io.ReadAll (http.Body r) with
          | (_, Some err) =>
              (("", target,
                Some (Errorf
                        "failed to read body from response from %v for %v: %w"
                        [target; description] (Some err))),
               closeBody description (http.Body r))
          | (body, None) =>
              ((body, target, None),
               closeBody description (http.Body r))
          end
      end
  end.

(** *** val.go *)

(** The elevation of a site-list entry (lines 87-95 of [val.go]): zero
    when the field is empty, zero and a warning when it does not parse. *)
Definition siteElevation (Elevation : string) : float64 * list LogRecord :=
  if String.eqb Elevation "" then (0%float, [])
  else
    match ParseFloat Elevation with
    | (_, Some err) =>
        (0%float,
         [slog_Warn "failed to parse elevation"
            [("elevation", logString Elevation); ("err", logError err)]])
    | (elev, None) => (elev, [])
    end.

(** The body of the loop of [siteList]. *)
Definition siteListEntry (site : siteResponse.Location)
  : flow Site.t * list LogRecord :=
  let parsed :=
    latitude ← try (ParseFloat (siteResponse.Latitude site))
      (Errorf "failed to parse latitude %v for sitelist: %w"
         [siteResponse.Latitude site]);
    longitude ← try (ParseFloat (siteResponse.Longitude site))
      (Errorf "failed to parse longitude %v for sitelist: %w"
         [siteResponse.Longitude site]);
    id ← try (strconv.ParseInt (siteResponse.Id site) 64)
      (Errorf "failed to parse id %v for sitelist: %w"
         [siteResponse.Id site]);
    Next (latitude, longitude, id) in
  match parsed with
  | Return e => (Return e, [])
  | Next (latitude, longitude, id) =>
      let '(elevation, logs) := siteElevation (siteResponse.Elevation site) in
      (Next {| Site.Id := id;
               Site.Latitude := latitude;
               Site.Longitude := longitude;
               Site.Name := siteResponse.Name site;
               Site.Elevation := elevation;
               Site.Region := siteResponse.Region site;
               Site.UnitaryAuthArea := siteResponse.UnitaryAuthArea site |},
       logs)
  end.

Fixpoint siteListLoop (l : list siteResponse.Location)
  : flow (list Site.t) * list LogRecord :=
  match l with
  | [] => (Next [], [])
  | site :: l' =>
      match siteListEntry site with
      | (Return e, logs) => (Return e, logs)
      | (Next x, logs) =>
          let '(r, logs') := siteListLoop l' in
          (xs ← r; Next (x :: xs), logs ++ logs')
      end
  end.

Definition siteList (d : DataPointClient S) (id : string)
  : (option (list Site.t) * option error) * list LogRecord :=
  let '((body, target, err), logs) :=
    fetch d "sitelist" ("val/" +:+ id +:+ "/all/json/sitelist") None in
  match err with
  | Some err => ((None, Some err), logs)
  | None =>
      match Unmarshal (T := siteResponse.t) body with
      | (_, Some err) =>
          ((None,
            Some (Errorf "failed to deserialise body from %v for sitelist: %w"
                    [target] (Some err))), logs)
      | (result, None) =>
          match siteListLoop (siteResponse.Locations_Location result) with
          | (Return e, logs') => ((None, Some e), logs ++ logs')
          | (Next entries, logs') => ((Some entries, None), logs ++ logs')
          end
      end
  end.

Definition ForecastSiteList (d : DataPointClient S) := siteList d "wxfcs".
Definition ObservationSiteList (d : DataPointClient S) := siteList d "wxobs".

Definition ForecastTimeStepCapabilities (d : DataPointClient S)
  (resolution : Resolution)
  : (option TimeSteps.t * option error) * list LogRecord :=
  let '((body, _, err), logs) :=
    fetch d "capabilities" "val/wxfcs/all/json/capabilities"
      (Some {[ "res" := resolution ]}) in
  (match err with
   | Some err => (None, Some err)
   | None =>
       ts <~ Unmarshal (T := capabilitiesResponse.t) body
         orelse (Errorf "failed to deserialise body for capabilities: %w" []);
       dataDate <~ time_Parse time.RFC3339 (capabilitiesResponse.DataDate ts)
         orelse (Errorf "failed to parse time step for capabilities: %w" []);
       match
         each (fun t => try (time_Parse time.RFC3339 t)
                 (Errorf "failed to parse time step for capabilities: %w" []))
           (capabilitiesResponse.TimeSteps_TS ts)
       with
       | Return e => (None, Some e)
       | Next times =>
           (Some {| TimeSteps.DataDate := dataDate;
                    TimeSteps.Resolution_ :=
                      capabilitiesResponse.Resolution_ ts;
                    TimeSteps.Type_ := capabilitiesResponse.Type_ ts;
                    TimeSteps.TimeSteps := times |}, None)
       end
   end, logs).

(** The seconds after the period's midnight that the marker under [$]
    stands for (lines 345-356). *)
Definition forecastOffset (offsetString : string) : flow Z :=
  if String.eqb offsetString "Day" then Next 0
  else if String.eqb offsetString "Night" then Next 86399
  else
    offset64 ← try (strconv.ParseInt offsetString 16)
      (Errorf "failed to parse forecast offset: %w" []);
    Next (int64 (offset64 * 60)).

(** One round of the loop over the keys of a record (lines 358-383). *)
Definition repEntry (paramDefinitions : gmap string ParameterDescriptor.t)
  (params : gmap string IntParameterValue.t
            * gmap string StringParameterValue.t)
  (kv : string * string)
  : flow (gmap string IntParameterValue.t
          * gmap string StringParameterValue.t) :=
  let '(intParams, stringParams) := params in
  let '(k, v) := kv in
  if String.eqb k "$" then Next (intParams, stringParams)
  else
    match paramDefinitions !! k with
    | None =>
        Return (Errorf "could not find descriptor for parameter %v" [k] None)
    | Some descriptor =>
        if slices_Contains knownIntParams k then
          v ← try (strconv.ParseInt v 16)
            (Errorf "failed to parse known int value %v: %w" [k]);
          Next (<[k := {| IntParameterValue.Descriptor := descriptor;
                          IntParameterValue.Value := v |}]> intParams,
                stringParams)
        else
          Next (intParams,
                <[k := {| StringParameterValue.Descriptor := descriptor;
                          StringParameterValue.Value := v |}]> stringParams)
    end.

Fixpoint repLoop (paramDefinitions : gmap string ParameterDescriptor.t)
  (kvs : list (string * string))
  (params : gmap string IntParameterValue.t
            * gmap string StringParameterValue.t)
  : flow (gmap string IntParameterValue.t
          * gmap string StringParameterValue.t) :=
  match kvs with
  | [] => Next params
  | kv :: kvs' =>
      params' ← repEntry paramDefinitions params kv;
      repLoop paramDefinitions kvs' params'
  end.

(** The body of the loop over the records of a period (lines 337-389). *)
Definition convertRep (paramDefinitions : gmap string ParameterDescriptor.t)
  (periodTime : Time) (rep : gmap string string) : flow Forecast.t :=
  match rep !! "$" with
  | None => Return (errorString "could not find forecast offset")
  | Some offsetString =>
      offset ← forecastOffset offsetString;
      params ← repLoop paramDefinitions
        (rangeOrder pick (map_to_list rep)) (∅, ∅);
      Next {| Forecast.Time_ :=
                time.Add periodTime (int64 (offset * time.Second));
              Forecast.IntParams := params.1;
              Forecast.StringParams := params.2 |}
  end.

(** The body of the loop over the periods of a location (lines 329-397). *)
Definition convertPeriod (paramDefinitions : gmap string ParameterDescriptor.t)
  (entry : locationEntry.Period) : flow Period.t :=
  periodTime ← try (time_Parse "2006-01-02Z" (locationEntry.Value entry))
    (Errorf "failed to parse period offset: %w" []);
  forecasts ← each (convertRep paramDefinitions periodTime)
    (locationEntry.Rep entry);
  Next {| Period.Type_ := locationEntry.Type_ entry;
          Period.Time_ := periodTime;
          Period.Forecasts := forecasts |}.

Definition convertLocation (paramDefinitions : gmap string ParameterDescriptor.t)
  (typeName : string) (startTime : Time) (entry : locationEntry.t)
  : option SiteRep.t * option error :=
  match each (convertPeriod paramDefinitions) (locationEntry.Periods entry) with
  | Return e => (None, Some e)
  | Next periods =>
      id <~ strconv.ParseInt (locationEntry.Id entry) 64
        orelse (Errorf "failed to parse id: %w" []);
      lat <~ ParseFloat (locationEntry.Latitude entry)
        orelse (Errorf "failed to parse latitude: %w" []);
      lon <~ ParseFloat (locationEntry.Longitude entry)
        orelse (Errorf "failed to parse longitude: %w" []);
      elevation <~
        (if String.eqb (locationEntry.Elevation entry) ""
         then (0%float, None)
         else ParseFloat (locationEntry.Elevation entry))
        orelse (Errorf "failed to parse elevation: %w" []);
      (Some {| SiteRep.DataDate := startTime;
               SiteRep.Type_ := typeName;
               SiteRep.Location :=
                 {| LocationRep.Id := id;
                    LocationRep.Latitude := lat;
                    LocationRep.Longitude := lon;
                    LocationRep.Name := locationEntry.Name entry;
                    LocationRep.Country := locationEntry.Country entry;
                    LocationRep.Continent := locationEntry.Continent entry;
                    LocationRep.Elevation := elevation;
                    LocationRep.Periods := periods |} |}, None)
  end.

(** The query parameters of the two forecast calls. *)
Definition forecastParams (resolution : Resolution) (at_ : option Time)
  : gmap string string :=
  let params := {[ "res" := resolution ]} in
  match at_ with
  | Some t => <[ "time" := time_Format t time.RFC3339 ]> params
  | None => params
  end.

(** The side-table of descriptors, keyed by code. *)
Definition paramTable (Param : list wxResponse.Param)
  : gmap string ParameterDescriptor.t :=
  fold_left
    (fun paramDefinitions p =>
       <[ wxResponse.Name p :=
            {| ParameterDescriptor.Name := wxResponse.Name p;
               ParameterDescriptor.Units := wxResponse.Units p;
               ParameterDescriptor.Description := wxResponse.Description p |} ]>
         paramDefinitions)
    Param ∅.

Definition FiveDayForecast (d : DataPointClient S) (resolution : Resolution)
  (locationID : Z) (at_ : option Time)
  : (option SiteRep.t * option error) * list LogRecord :=
  let '((body, target, err), logs) :=
    fetch d "locationId" ("val/wxfcs/all/json/" +:+ pretty locationID)
      (Some (forecastParams resolution at_)) in
  (match err with
   | Some err => (None, Some err)
   | None =>
       result <~ Unmarshal (T := siteRepResponse.t) body
         orelse (Errorf "failed to deserialise body from %v for sitelist: %w"
                   [target]);
       if String.eqb
            (locationEntry.Id (dvEntry.Location (siteRepResponse.Dv result)))
            ""
       then (None, None)
       else
         let paramDefinitions :=
           paramTable (wxResponse.Params (siteRepResponse.Wx result)) in
         startTime <~ time_Parse time.RFC3339
                        (dvEntry.DataDate (siteRepResponse.Dv result))
           orelse (Errorf "failed to parse period start time: %w" []);
         convertLocation paramDefinitions
           (dvEntry.Type_ (siteRepResponse.Dv result))
           startTime
           (dvEntry.Location (siteRepResponse.Dv result))
   end, logs).

(** [reps[i] = *r]: the pointer is read after the test of [err]. *)
Definition deref {A} (r : option A * option error) : flow A :=
  match r with
  | (_, Some err) => Return err
  | (Some a, None) => Next a
  | (None, None) =>
      Return (foreignError "runtime"
                "invalid memory address or nil pointer dereference")
  end.

Definition FiveDayForecastForAllLocations (d : DataPointClient S)
  (resolution : Resolution) (at_ : option Time)
  : (option (list SiteRep.t) * option error) * list LogRecord :=
  let '((body, target, err), logs) :=
    fetch d "locationId" "val/wxfcs/all/json/all"
      (Some (forecastParams resolution at_)) in
  (match err with
   | Some err => (None, Some err)
   | None =>
       result <~ Unmarshal (T := siteRepAllResponse.t) body
         orelse (Errorf "failed to deserialise body from %v for sitelist: %w"
                   [target]);
       let paramDefinitions :=
         paramTable (wxResponse.Params (siteRepAllResponse.Wx result)) in
       startTime <~ time_Parse time.RFC3339
                      (dvMultipleEntry.DataDate (siteRepAllResponse.Dv result))
         orelse (Errorf "failed to parse period start time: %w" []);
       match
         each (fun entry =>
                 deref (convertLocation paramDefinitions
                          (dvMultipleEntry.Type_ (siteRepAllResponse.Dv result))
                          startTime entry))
           (dvMultipleEntry.Location (siteRepAllResponse.Dv result))
       with
       | Return e => (None, Some e)
       | Next reps => (Some reps, None)
       end
   end, logs).

(** *** txt.go *)

Definition UkExtremesCapabilities (d : DataPointClient S)
  : (option ExtremeCapabilities.t * option error) * list LogRecord :=
  let '((body, target, err), logs) :=
    fetch d "sitelist" "txt/wxobs/ukextremes/json/capabilities" None in
  (match err with
   | Some err => (None, Some err)
   | None =>
       result <~ Unmarshal (T := extremeCapabilitiesResponse.t) body
         orelse (Errorf
                   "failed to deserialise body from %v for capabilities: %w"
                   [target]);
       extremeDate <~
         time_Parse time.DateOnly (extremeCapabilitiesResponse.ExtremeDate result)
         orelse (Errorf "failed to parse date %v for extreme date: %w"
                   [extremeCapabilitiesResponse.ExtremeDate result]);
       issuedAt <~
         time_Parse time.RFC3339 (extremeCapabilitiesResponse.IssuedAt result)
         orelse (Errorf "failed to parse date %v for issued at date: %w"
                   [extremeCapabilitiesResponse.IssuedAt result]);
       (Some {| ExtremeCapabilities.ExtremeDate := extremeDate;
                ExtremeCapabilities.IssuedAt := issuedAt |}, None)
   end, logs).

(** The body of the inner loop of [UkExtremesLatest]. *)
Definition convertExtreme (extreme : latestExtremesResponse.Extreme)
  : flow Extreme.t :=
  locationId ← try
    (strconv.ParseInt (latestExtremesResponse.LocationId extreme) 64)
    (Errorf "failed to parse location id: %w" []);
  value ← try (ParseFloat (latestExtremesResponse.Value extreme))
    (Errorf "failed to parse value: %w" []);
  Next {| Extreme.LocationId := locationId;
          Extreme.LocationName := latestExtremesResponse.LocationName extreme;
          Extreme.Type_ := latestExtremesResponse.Type_ extreme;
          Extreme.UnitOfMeasurement := latestExtremesResponse.Uom extreme;
          Extreme.Value := value |}.

(** The body of its outer loop. *)
Definition convertRegion (region : latestExtremesResponse.Region)
  : flow Region.t :=
  extremes ← each convertExtreme
    (latestExtremesResponse.Extremes_Extreme region);
  Next {| Region.Id := latestExtremesResponse.Id region;
          Region.Name := latestExtremesResponse.Name region;
          Region.Extremes := extremes |}.

Definition UkExtremesLatest (d : DataPointClient S)
  : (option LatestExtremes.t * option error) * list LogRecord :=
  let '((body, target, err), logs) :=
    fetch d "ukextremeslatest" "txt/wxobs/ukextremes/json/latest" None in
  (match err with
   | Some err => (None, Some err)
   | None =>
       result <~ Unmarshal (T := latestExtremesResponse.t) body
         orelse (Errorf
                   "failed to deserialise body from %v for uk extremes latest: %w"
                   [target]);
       match
         each convertRegion (latestExtremesResponse.Regions_Region result)
       with
       | Return e => (None, Some e)
       | Next regions =>
           extremeDate <~
             time_Parse time.DateOnly (latestExtremesResponse.ExtremeDate result)
             orelse (Errorf "failed to parse the extreme date: %w" []);
           issuedAt <~
             time_Parse time.RFC3339 (latestExtremesResponse.IssuedAt result)
             orelse (Errorf "failed to parse the issued at date: %w" []);
           (Some {| LatestExtremes.ExtremeDate := extremeDate;
                    LatestExtremes.IssuedAt := issuedAt;
                    LatestExtremes.Regions := regions |}, None)
       end
   end, logs).

Definition RegionalForecastSiteList (d : DataPointClient S)
  : (option (list RegionalForecastSite.t) * option error) * list LogRecord :=
  let '((body, target, err), logs) :=
    fetch d "regional forecast site list"
      "txt/wxfcs/regionalforecast/json/sitelist" None in
  (match err with
   | Some err => (None, Some err)
   | None =>
       result <~ Unmarshal (T := regionalForecastSiteListResponse.t) body
         orelse (Errorf
                   "failed to deserialise body from %v for regional forecast site list: %w"
                   [target]);
       match
         each (fun s =>
                 id ← try
                   (strconv.ParseInt (regionalForecastSiteListResponse.Id s) 64)
                   (Errorf "could not parse location id: %w" []);
                 Next {| RegionalForecastSite.Id := id;
                         RegionalForecastSite.Name :=
                           regionalForecastSiteListResponse.Name s |})
           (regionalForecastSiteListResponse.Locations_Location result)
       with
       | Return e => (None, Some e)
       | Next locations => (Some locations, None)
       end
   end, logs).

(** Line 245 of [txt.go] reads
    [time.Parse(result.RegionalForecast.IssuedAt, time.RFC3339)]: the
    string of the response stands where the layout goes and the layout
    where the value goes. *)
Definition RegionalForecastCapabilities (d : DataPointClient S)
  : (option RegionalForecastCapabilities.t * option error) * list LogRecord :=
  let '((body, target, err), logs) :=
    fetch d "regional forecast capabilities"
      "txt/wxfcs/regionalforecast/json/capabilities" None in
  (match err with
   | Some err => (None, Some err)
   | None =>
       result <~ Unmarshal (T := regionalForecastCapabilitiesResponse.t) body
         orelse (Errorf
                   "failed to deserialise body from %v for regional forecast capabilities: %w"
                   [target]);
       issued <~
         time_Parse (regionalForecastCapabilitiesResponse.IssuedAt result)
           time.RFC3339
         orelse (Errorf "failed to parse issued at time: %w" []);
       (Some {| RegionalForecastCapabilities.IssuedAt := issued |}, None)
   end, logs).

End datapoint.

(** ** Construction of a client *)

(** The value of the interface [Supplier[string]] a client holds: the
    [stringSupplier] that [WithApiKey] makes, or a supplier of the caller's
    own type [S]. *)
Inductive supplierValue (S : Type) : Type :=
| fixedKey (s : stringSupplier)
| supplied (s : S).
Arguments fixedKey {S} s.
Arguments supplied {S} s.

#[global] Instance supplierValue_Get {S} `{!Supplier S string}
  : Supplier (supplierValue S) string :=
  fun v =>
    match v with
    | fixedKey s => Get s
    | supplied s => Get s
    end.

(** The four implementations of [Opt]. *)
Module Opt.
Inductive t (S : Type) : Type :=
| baseUriOpt (uri : string)
| apiKey (key : string)
| apiSupplier (supplier : S)
| httpClient (client : http.Client).
Arguments baseUriOpt {S} uri.
Arguments apiKey {S} key.
Arguments apiSupplier {S} supplier.
Arguments httpClient {S} client.
End Opt.

Definition WithBaseURI {S} (uri : string) : Opt.t S := Opt.baseUriOpt uri.
Definition WithApiKey {S} (key : string) : Opt.t S := Opt.apiKey key.
Definition WithApiSupplier {S} (supplier : S) : Opt.t S :=
  Opt.apiSupplier supplier.
Definition WithHttpClient {S} (client : http.Client) : Opt.t S :=
  Opt.httpClient client.

Section construction.

Context {S : Type}.

(** [&http.Client{}], the client of the standard library. *)
Variable defaultClient : http.Client.

(** The method [apply] of each option, [o.apply(&client)].  While a client is being built its
    supplier is a pointer that may be nil: an [option]. *)
Definition applyOpt (o : Opt.t S)
  (client : DataPointClient (option (supplierValue S)))
  : DataPointClient (option (supplierValue S)) :=
  match o with
  | Opt.baseUriOpt uri =>
      {| apiKeySupplier := apiKeySupplier client;
         baseUrl := uri;
         httpClient := httpClient client |}
  | Opt.apiKey key =>
      {| apiKeySupplier := Some (fixedKey {| value := key |});
         baseUrl := baseUrl client;
         httpClient := httpClient client |}
  | Opt.apiSupplier supplier =>
      {| apiKeySupplier := Some (supplied supplier);
         baseUrl := baseUrl client;
         httpClient := httpClient client |}
  | Opt.httpClient h =>
      {| apiKeySupplier := apiKeySupplier client;
         baseUrl := baseUrl client;
         httpClient := h |}
  end.

(** The client before the options are applied. *)
Definition initialClient : DataPointClient (option (supplierValue S)) :=
  {| apiKeySupplier := None;
     baseUrl := "http://datapoint.metoffice.gov.uk/public/data/";
     httpClient := defaultClient |}.

Definition NewClient (opt : list (Opt.t S))
  : option (DataPointClient (supplierValue S)) * option error :=
  let client := fold_left (fun client o => applyOpt o client) opt initialClient in
  match apiKeySupplier client with
  | None => (None, Some (errorString "no api key provided"))
  | Some supplier =>
      (Some {| apiKeySupplier := supplier;
               baseUrl := baseUrl client;
               httpClient := httpClient client |}, None)
  end.

End construction.


(** ** Stand-ins for the parameters

    The closed examples below run the package against stand-ins for the
    standard library and the network.  Each stand-in answers as the real
    function does on the strings the examples use and fails elsewhere. *)

Module Sample.

Definition ParseFloat (s : string) : float64 * option error :=
  if String.eqb s "50.75" then (50.75%float, None)
  else if String.eqb s "-3.5" then ((-3.5)%float, None)
  else if String.eqb s "12.5" then (12.5%float, None)
  else (0%float, Some (strconv.syntaxError "ParseFloat" s)).

(** 2023-06-01T00:00:00Z and 2023-06-01T09:00:00Z, in nanoseconds. *)
Definition midnight : Time := 1685577600 * time.Second.
Definition nine : Time := 1685610000 * time.Second.

(** With the stamp as its layout, [time.Parse] reads ["2"] as a day and
    ["02"] as a day again, then meets ["3"], an hour, where the value has
    a dash. *)
Definition time_Parse (layout value : string) : Time * option error :=
  if String.eqb layout "2006-01-02Z" && String.eqb value "2023-06-01Z"
  then (midnight, None)
  else if String.eqb layout time.DateOnly && String.eqb value "2023-06-01"
  then (midnight, None)
  else if String.eqb layout time.RFC3339
          && String.eqb value "2023-06-01T09:00:00Z"
  then (nine, None)
  else if String.eqb layout "2023-06-01T09:00:00Z"
          && String.eqb value time.RFC3339
  then (0, Some (ParseError layout value "3" "-01-02T15:04:05Z07:00" ""))
  else (0, Some (ParseError layout value layout value "")).

Definition time_Format (t : Time) (layout : string) : string :=
  "2023-06-01T09:00:00Z".

Definition JoinPath (base elem : string) : string * option error :=
  (base +:+ elem, None).

(** Always the first entry still to visit. *)
Definition pick (l : list (string * string)) : nat := 0%nat.

Definition body (content : string) : http.ReadCloser :=
  {| http.data := content; http.readErr := None; http.closeErr := None |}.

Definition respond (code : Z) (status content : string) : http.Client :=
  fun _ =>
    inl {| http.Status := status; http.StatusCode := code;
           http.Header := []; http.Body := body content |}.

Definition client (key : string) (h : http.Client)
  : DataPointClient stringSupplier :=
  {| apiKeySupplier := {| value := key |};
     baseUrl := "http://datapoint.metoffice.gov.uk/public/data/";
     httpClient := h |}.

Definition decodeAs {T} (x : T) : Unmarshaler T := fun _ => (x, None).

Definition descriptor (name units description : string)
  : ParameterDescriptor.t :=
  {| ParameterDescriptor.Name := name;
     ParameterDescriptor.Units := units;
     ParameterDescriptor.Description := description |}.

Definition Param : list wxResponse.Param := [
  {| wxResponse.Name := "T"; wxResponse.Units := "C";
     wxResponse.Description := "Temperature" |};
  {| wxResponse.Name := "V"; wxResponse.Units := "m";
     wxResponse.Description := "Visibility" |}
].

Definition paramDefinitions : gmap string ParameterDescriptor.t :=
  paramTable Param.

Definition rep (offset T V : string) : gmap string string :=
  {[ "$" := offset; "T" := T; "V" := V ]}.

Definition period (reps : list (gmap string string))
  : locationEntry.Period :=
  {| locationEntry.Type_ := "Day";
     locationEntry.Value := "2023-06-01Z";
     locationEntry.Rep := reps |}.

Definition location (id elevation : string) (reps : list (gmap string string))
  : locationEntry.t :=
  {| locationEntry.Id := id;
     locationEntry.Latitude := "50.75";
     locationEntry.Longitude := "-3.5";
     locationEntry.Name := "Exeter";
     locationEntry.Country := "England";
     locationEntry.Continent := "Europe";
     locationEntry.Elevation := elevation;
     locationEntry.Periods := [period reps] |}.

Definition reps : list (gmap string string) :=
  [rep "Day" "17" "12000"; rep "Night" "9" "GO"; rep "180" "11" "VG"].

Definition exeter : locationEntry.t := location "310069" "12.5" reps.

(** A record with a key [X] that has no descriptor. *)
Definition unlisted (offset : string) : gmap string string :=
  {[ "$" := offset; "T" := "17"; "X" := "1" ]}.

(** A record whose only key is its marker. *)
Definition bare (offset : string) : gmap string string :=
  {[ "$" := offset ]}.

Definition convert : locationEntry.t -> option SiteRep.t * option error :=
  convertLocation ParseFloat time_Parse pick paramDefinitions "Forecast" nine.

Definition noData : siteRepResponse.t :=
  {| siteRepResponse.Wx := {| wxResponse.Params := [] |};
     siteRepResponse.Dv :=
       {| dvEntry.DataDate := ""; dvEntry.Type_ := "";
          dvEntry.Location :=
            {| locationEntry.Id := "";
               locationEntry.Latitude := "";
               locationEntry.Longitude := "";
               locationEntry.Name := "";
               locationEntry.Country := "";
               locationEntry.Continent := "";
               locationEntry.Elevation := "";
               locationEntry.Periods := [] |} |} |}.

Definition stamp : string := "2023-06-01T09:00:00Z".

Definition regionalCapabilities : regionalForecastCapabilitiesResponse.t :=
  {| regionalForecastCapabilitiesResponse.IssuedAt := stamp |}.

Definition extremeCapabilities : extremeCapabilitiesResponse.t :=
  {| extremeCapabilitiesResponse.ExtremeDate := "2023-06-01";
     extremeCapabilitiesResponse.IssuedAt := stamp |}.

Definition site (elevation : string) : siteResponse.Location :=
  {| siteResponse.Elevation := elevation;
     siteResponse.Id := "310069";
     siteResponse.Latitude := "50.75";
     siteResponse.Longitude := "-3.5";
     siteResponse.Name := "Exeter";
     siteResponse.Region := "sw";
     siteResponse.UnitaryAuthArea := "Devon" |}.

End Sample.


(** ** Vocabulary of the statements *)

(** What it is for the strings of a response to parse: the predicates below
    name the calls of the parsers that the converters make on each field. *)

(** A key of a record other than [$]: it has a descriptor, and if it is one
    of the known integer parameters its value is an integer of 16 bits. *)
Definition keyParses (paramDefinitions : gmap string ParameterDescriptor.t)
  (k v : string) : Prop :=
  is_Some (paramDefinitions !! k) /\
  (slices_Contains knownIntParams k = true ->
   (strconv.ParseInt v 16).2 = None).

(** The marker under [$]. *)
Definition offsetParses (offsetString : string) : Prop :=
  offsetString = "Day" \/ offsetString = "Night" \/
  (strconv.ParseInt offsetString 16).2 = None.

Definition repParses (paramDefinitions : gmap string ParameterDescriptor.t)
  (rep : gmap string string) : Prop :=
  (exists offsetString, rep !! "$" = Some offsetString /\
                        offsetParses offsetString) /\
  forall k v, rep !! k = Some v -> k <> "$" -> keyParses paramDefinitions k v.


Definition periodParses (time_Parse : string -> string -> Time * option error)
  (paramDefinitions : gmap string ParameterDescriptor.t)
  (P : locationEntry.Period) : Prop :=
  (time_Parse "2006-01-02Z" (locationEntry.Value P)).2 = None /\
  Forall (repParses paramDefinitions) (locationEntry.Rep P).

(** An entry of a site list, its elevation apart. *)
Definition siteParses (ParseFloat : string -> float64 * option error)
  (site : siteResponse.Location) : Prop :=
  (ParseFloat (siteResponse.Latitude site)).2 = None /\
  (ParseFloat (siteResponse.Longitude site)).2 = None /\
  (strconv.ParseInt (siteResponse.Id site) 64).2 = None.

(** Two outcomes of an HTTP round trip that differ at most in the status
    of the response. *)
Definition sameButStatus (r1 r2 : http.Response + error) : Prop :=
  match r1, r2 with
  | inl a, inl b =>
      http.Header a = http.Header b /\ http.Body a = http.Body b
  | inr e1, inr e2 => e1 = e2
  | _, _ => False
  end.

(** A client that fails and reports the URL it was asked for. *)
Definition refuse : http.Client :=
  fun withKey => inr (foreignError "net/http" withKey).

(** The number of occurrences of a character in a string. *)
Fixpoint count (c : ascii) (s : string) : nat :=
  match s with
  | EmptyString => 0%nat
  | String c' s' => ((if Ascii.eqb c c' then 1 else 0) + count c s')%nat
  end.

(** The query parameters in the order [kvs], each escaped. *)
Fixpoint queryString (kvs : list (string * string)) : string :=
  match kvs with
  | [] => ""
  | kv :: kvs' =>
      "&" +:+ url.QueryEscape kv.1 +:+ "=" +:+ url.QueryEscape kv.2
          +:+ queryString kvs'
  end.

(** The two outcomes of a call that has no sentinel: a value and no error,
    or an error and no value. *)
Definition valueOrError {A} (r : option A * option error) : Prop :=
  (is_Some r.1 /\ r.2 = None) \/ (r.1 = None /\ is_Some r.2).

(** The fields of a location: its periods, its id, its coordinates, and an
    elevation that is empty or parses. *)
Definition locationParses (ParseFloat : string -> float64 * option error)
  (time_Parse : string -> string -> Time * option error)
  (paramDefinitions : gmap string ParameterDescriptor.t)
  (entry : locationEntry.t) : Prop :=
  Forall (periodParses time_Parse paramDefinitions)
    (locationEntry.Periods entry) /\
  (strconv.ParseInt (locationEntry.Id entry) 64).2 = None /\
  (ParseFloat (locationEntry.Latitude entry)).2 = None /\
  (ParseFloat (locationEntry.Longitude entry)).2 = None /\
  (locationEntry.Elevation entry = "" \/
   (ParseFloat (locationEntry.Elevation entry)).2 = None).

Definition timeStepsParse (time_Parse : string -> string -> Time * option error)
  (ts : capabilitiesResponse.t) : Prop :=
  (time_Parse time.RFC3339 (capabilitiesResponse.DataDate ts)).2 = None /\
  Forall (fun t => (time_Parse time.RFC3339 t).2 = None)
    (capabilitiesResponse.TimeSteps_TS ts).

Definition extremeParses (ParseFloat : string -> float64 * option error)
  (extreme : latestExtremesResponse.Extreme) : Prop :=
  (strconv.ParseInt (latestExtremesResponse.LocationId extreme) 64).2 = None /\
  (ParseFloat (latestExtremesResponse.Value extreme)).2 = None.

Definition latestExtremesParse (ParseFloat : string -> float64 * option error)
  (time_Parse : string -> string -> Time * option error)
  (result : latestExtremesResponse.t) : Prop :=
  Forall (fun region =>
            Forall (extremeParses ParseFloat)
              (latestExtremesResponse.Extremes_Extreme region))
    (latestExtremesResponse.Regions_Region result) /\
  (time_Parse time.DateOnly (latestExtremesResponse.ExtremeDate result)).2
  = None /\
  (time_Parse time.RFC3339 (latestExtremesResponse.IssuedAt result)).2 = None.

Definition extremeCapabilitiesParse
  (time_Parse : string -> string -> Time * option error)
  (result : extremeCapabilitiesResponse.t) : Prop :=
  (time_Parse time.DateOnly (extremeCapabilitiesResponse.ExtremeDate result)).2
  = None /\
  (time_Parse time.RFC3339 (extremeCapabilitiesResponse.IssuedAt result)).2
  = None.

(** [fetch] gave a body without an error and the body decodes to [result]. *)
Definition decodes {T} `{!Unmarshaler T}
  (fetched : (string * string * option error) * list LogRecord)
  (result : T) : Prop :=
  fetched.1.2 = None /\ Unmarshal fetched.1.1.1 = (result, None).

(** A call is atomic for the condition [Q] on the decoded response: it
    returns a value or an error, and a value exactly when the response
    arrives, decodes and satisfies [Q]. *)
Definition atomicCall {T B} `{!Unmarshaler T}
  (fetched : (string * string * option error) * list LogRecord)
  (call : (option B * option error) * list LogRecord)
  (Q : T -> Prop) : Prop :=
  valueOrError call.1 /\
  (is_Some call.1.1 <-> exists result, decodes fetched result /\ Q result).

(** The same for the call that has a sentinel: no value and no error,
    exactly when the decoded response satisfies [noData]. *)
Definition atomicOrNoData {T B} `{!Unmarshaler T}
  (fetched : (string * string * option error) * list LogRecord)
  (call : (option B * option error) * list LogRecord)
  (noData Q : T -> Prop) : Prop :=
  (valueOrError call.1 \/ call.1 = (None, None)) /\
  (call.1 = (None, None) <->
   exists result, decodes fetched result /\ noData result) /\
  (is_Some call.1.1 <->
   exists result, decodes fetched result /\ ~ noData result /\ Q result).

(** ** Vocabulary of the further properties *)

(** What an option says of each setting of a client. *)
Definition optBaseUri {S} (o : Opt.t S) : option string :=
  match o with
  | Opt.baseUriOpt uri => Some uri
  | _ => None
  end.

Definition optSupplier {S} (o : Opt.t S) : option (supplierValue S) :=
  match o with
  | Opt.apiKey key => Some (fixedKey {| value := key |})
  | Opt.apiSupplier supplier => Some (supplied supplier)
  | _ => None
  end.

Definition optHttpClient {S} (o : Opt.t S) : option http.Client :=
  match o with
  | Opt.httpClient client => Some client
  | _ => None
  end.

(** The descriptor made of an entry of the [Param] array. *)
Definition descriptorOf (p : wxResponse.Param) : ParameterDescriptor.t :=
  {| ParameterDescriptor.Name := wxResponse.Name p;
     ParameterDescriptor.Units := wxResponse.Units p;
     ParameterDescriptor.Description := wxResponse.Description p |}.


(** The entry of a site list that a site of the response turns into. *)
Definition siteOf (ParseFloat : string -> float64 * option error)
  (site : siteResponse.Location) (s : Site.t) : Prop :=
  ParseFloat (siteResponse.Latitude site) = (Site.Latitude s, None) /\
  ParseFloat (siteResponse.Longitude site) = (Site.Longitude s, None) /\
  strconv.ParseInt (siteResponse.Id site) 64 = (Site.Id s, None) /\
  Site.Name s = siteResponse.Name site /\
  Site.Region s = siteResponse.Region site /\
  Site.UnitaryAuthArea s = siteResponse.UnitaryAuthArea site /\
  Site.Elevation s
  = (siteElevation ParseFloat (siteResponse.Elevation site)).1.

(** The warnings about the elevations of a list of sites, in order. *)
Definition elevationWarnings (ParseFloat : string -> float64 * option error)
  (l : list siteResponse.Location) : list LogRecord :=
  concat (map (fun site =>
                 (siteElevation ParseFloat (siteResponse.Elevation site)).2)
            l).

(** The extreme and the region that those of the response turn into. *)
Definition extremeOf (ParseFloat : string -> float64 * option error)
  (extreme : latestExtremesResponse.Extreme) (x : Extreme.t) : Prop :=
  strconv.ParseInt (latestExtremesResponse.LocationId extreme) 64
  = (Extreme.LocationId x, None) /\
  ParseFloat (latestExtremesResponse.Value extreme)
  = (Extreme.Value x, None) /\
  Extreme.LocationName x = latestExtremesResponse.LocationName extreme /\
  Extreme.Type_ x = latestExtremesResponse.Type_ extreme /\
  Extreme.UnitOfMeasurement x = latestExtremesResponse.Uom extreme.

Definition regionOf (ParseFloat : string -> float64 * option error)
  (region : latestExtremesResponse.Region) (r : Region.t) : Prop :=
  Region.Id r = latestExtremesResponse.Id region /\
  Region.Name r = latestExtremesResponse.Name region /\
  Forall2 (extremeOf ParseFloat)
    (latestExtremesResponse.Extremes_Extreme region) (Region.Extremes r).

(** ** Further stand-ins

    Responses for the closed instances of the further properties. *)

Module Example.

Definition client : DataPointClient stringSupplier :=
  Sample.client "key" (Sample.respond 200 "200 OK" "{}").

(** A site whose latitude is no number. *)
Definition north : siteResponse.Location :=
  {| siteResponse.Elevation := "12.5";
     siteResponse.Id := "310069";
     siteResponse.Latitude := "north";
     siteResponse.Longitude := "-3.5";
     siteResponse.Name := "Exeter";
     siteResponse.Region := "sw";
     siteResponse.UnitaryAuthArea := "Devon" |}.

Definition sites (l : list siteResponse.Location) : siteResponse.t :=
  {| siteResponse.Locations_Location := l |}.

Definition capabilities (dataDate : string) : capabilitiesResponse.t :=
  {| capabilitiesResponse.DataDate := dataDate;
     capabilitiesResponse.Resolution_ := "daily";
     capabilitiesResponse.Type_ := "wxfcs";
     capabilitiesResponse.TimeSteps_TS := [Sample.stamp] |}.

Definition forecast (dataDate : string) : siteRepResponse.t :=
  {| siteRepResponse.Wx := {| wxResponse.Params := Sample.Param |};
     siteRepResponse.Dv :=
       {| dvEntry.DataDate := dataDate;
          dvEntry.Type_ := "Forecast";
          dvEntry.Location := Sample.exeter |} |}.

Definition forecasts (l : list locationEntry.t) : siteRepAllResponse.t :=
  {| siteRepAllResponse.Wx := {| wxResponse.Params := Sample.Param |};
     siteRepAllResponse.Dv :=
       {| dvMultipleEntry.DataDate := Sample.stamp;
          dvMultipleEntry.Type_ := "Forecast";
          dvMultipleEntry.Location := l |} |}.

Definition extreme (id value : string) : latestExtremesResponse.Extreme :=
  {| latestExtremesResponse.LocationId := id;
     latestExtremesResponse.LocationName := "Exeter";
     latestExtremesResponse.Type_ := "HMAXT";
     latestExtremesResponse.Uom := "degC";
     latestExtremesResponse.Value := value |}.

Definition latest (extremeDate : string)
  (extremes : list latestExtremesResponse.Extreme)
  : latestExtremesResponse.t :=
  {| latestExtremesResponse.ExtremeDate := extremeDate;
     latestExtremesResponse.IssuedAt := Sample.stamp;
     latestExtremesResponse.Regions_Region :=
       [{| latestExtremesResponse.Id := "sw";
           latestExtremesResponse.Name := "South West England";
           latestExtremesResponse.Extremes_Extreme := extremes |}] |}.

Definition regionalSites (ids : list string)
  : regionalForecastSiteListResponse.t :=
  {| regionalForecastSiteListResponse.Locations_Location :=
       (fun id => {| regionalForecastSiteListResponse.Id := id;
                     regionalForecastSiteListResponse.Name := "sw" |})
         <$> ids |}.

(** A record without its marker. *)
Definition unmarked : gmap string string := {[ "T" := "17" ]}.

End Example.

(** * Properties *)

(** ** strconv.ParseInt *)

Lemma int64_small z : - 2 ^ 63 <= z < 2 ^ 63 -> int64 z = z.
Proof. intros H. unfold int64. rewrite Z.mod_small; lia. Qed.

Lemma parseUintLoop_bound s0 maxVal s n m :
  strconv.parseUintLoop s0 maxVal s n = (m, None) ->
  0 <= n <= maxVal -> 0 <= m <= maxVal.
Proof.
  revert n. induction s as [|c s IH]; intros n; simpl.
  - intros [= ->]. done.
  - destruct (strconv.isDigit c); [|discriminate].
    destruct (strconv.cutoff10 <=? n); [discriminate|].
    destruct (_ || _) eqn:Hchk; [discriminate|].
    apply orb_false_elim in Hchk as [_ Hmax%Z.ltb_ge].
    intros Hloop _. apply (IH _ Hloop). split; [|done].
    unfold uint64. apply Z.mod_pos_bound. done.
Qed.

Lemma parseUintLoop_range s0 maxVal s n m fn num cause :
  strconv.parseUintLoop s0 maxVal s n = (m, Some (NumError fn num cause)) ->
  strconv.isErrRange cause = true -> m = maxVal.
Proof.
  revert n. induction s as [|c s IH]; intros n; simpl; [discriminate|].
  destruct (strconv.isDigit c).
  - destruct (strconv.cutoff10 <=? n); [by inversion 1|].
    destruct (_ || _); [by inversion 1|]. apply IH.
  - unfold strconv.syntaxError. inversion 1; subst. discriminate.
Qed.

Lemma signedRange_16 s0 neg un n :
  strconv.signedRange s0 neg un 16 = (n, None) ->
  0 <= un -> -32768 <= n <= 32767.
Proof.
  unfold strconv.signedRange. cbv zeta.
  change (if 16 =? 0 then 64 else 16) with 16.
  change (uint64 (2 ^ (16 - 1))) with 32768.
  destruct neg; simpl.
  - destruct (32768 <? un) eqn:Hlt; [discriminate|].
    apply Z.ltb_ge in Hlt. intros [= <-] Hun.
    rewrite (int64_small un) by lia. rewrite int64_small by lia. lia.
  - destruct (32768 <=? un) eqn:Hle; [discriminate|].
    apply Z.leb_gt in Hle. intros [= <-] Hun.
    rewrite int64_small by lia. lia.
Qed.

Lemma signedRange_16_max s0 neg n :
  strconv.signedRange s0 neg (2 ^ 16 - 1) 16 <> (n, None).
Proof. unfold strconv.signedRange. by destruct neg. Qed.

(** A value [strconv.ParseInt] accepts for 16 bits lies in the 16-bit
    range. *)
Lemma ParseInt_16_range s n :
  strconv.ParseInt s 16 = (n, None) -> -32768 <= n <= 32767.
Proof.
  unfold strconv.ParseInt. destruct s as [|c rest]; [discriminate|].
  set (sb := if Ascii.eqb c "+" then _ else _).
  destruct sb as [neg body].
  destruct (strconv.ParseUint body 16) as [un err] eqn:Hun.
  unfold strconv.ParseUint in Hun.
  destruct (String.eqb body ""); [by injection Hun as <- <-|].
  simpl in Hun. destruct err as [e|].
  - destruct e; try discriminate.
    destruct (strconv.isErrRange e) eqn:Hrange; [|discriminate].
    apply parseUintLoop_range in Hun as ->; [|done].
    intros Hn. by apply signedRange_16_max in Hn.
  - apply parseUintLoop_bound in Hun; [|done].
    intros Hn. apply signedRange_16 in Hn; lia.
Qed.

(** ** Loops *)

Lemma each_Next {A B} (f : A -> flow B) l ys :
  each f l = Next ys <-> Forall2 (fun x y => f x = Next y) l ys.
Proof.
  revert ys. induction l as [|x l IH]; intros ys; simpl.
  - split; [intros [= <-]; constructor | by inversion 1].
  - split.
    + destruct (f x) as [y|e] eqn:Hx; [|discriminate]. simpl.
      destruct (each f l) as [ys'|e]; [|discriminate]. simpl.
      intros [= <-]. constructor; [done|]. by apply IH.
    + inversion 1 as [|? y ? ys' Hx Hl]; subst.
      rewrite Hx. simpl. apply IH in Hl. by rewrite Hl.
Qed.

Lemma each_Return_elem {A B} (f : A -> flow B) l x e :
  x ∈ l -> f x = Return e -> exists e', each f l = Return e'.
Proof.
  induction 1 as [x l|x y l Hin IH]; intros Hx; simpl.
  - rewrite Hx. eauto.
  - destruct (f y); simpl; [|eauto].
    destruct (IH Hx) as [e' ->]. eauto.
Qed.

Lemma each_Return_inv {A B} (f : A -> flow B) l e :
  each f l = Return e -> exists x, x ∈ l /\ f x = Return e.
Proof.
  induction l as [|x l IH]; simpl; [discriminate|].
  destruct (f x) as [y|e'] eqn:Hx; simpl.
  - destruct (each f l) as [ys|e'] eqn:Hl; simpl; [discriminate|].
    intros [= <-]. destruct IH as (x' & Hin & Hx'); [done|].
    exists x'. split; [by right | done].
  - intros [= <-]. exists x. split; [by left | done].
Qed.

(** The first element on which the body returns decides the loop. *)
Lemma each_Return_first {A B} (f : A -> flow B) l1 x l2 e :
  Forall (fun x => exists y, f x = Next y) l1 -> f x = Return e ->
  each f (l1 ++ x :: l2) = Return e.
Proof.
  induction 1 as [|x' l1 [y Hy] _ IH]; intros Hx; simpl.
  - by rewrite Hx.
  - rewrite Hy. simpl. by rewrite IH.
Qed.

Lemma try_Next {A} (r : A * option error) wrap a :
  try r wrap = Next a <-> r = (a, None).
Proof.
  destruct r as [a' [err|]]; simpl; split; try done; by intros [= ->].
Qed.

Lemma try_Return {A} (r : A * option error) wrap e :
  try r wrap = Return e <-> exists err, r.2 = Some err /\ e = wrap (Some err).
Proof.
  destruct r as [a' [err|]]; simpl; split.
  - intros [= <-]. eauto.
  - intros (err' & Herr & ->). by injection Herr as ->.
  - discriminate.
  - intros (err' & Herr & _). discriminate.
Qed.

(** ** The order of a range loop *)

Lemma visit_Permutation {A} (pick : list A -> nat) fuel (l : list A) :
  length l = fuel -> visit pick fuel l ≡ₚ l.
Proof.
  revert l. induction fuel as [|fuel IH]; intros l Hlen; simpl.
  - by destruct l.
  - destruct (l !! _) as [x|] eqn:Hx.
    + etrans; [|symmetry; apply (delete_Permutation l _ x Hx)].
      constructor. apply IH. rewrite length_delete by eauto. lia.
    + apply lookup_ge_None in Hx.
      pose proof (Nat.mod_upper_bound (pick l) (length l)). lia.
Qed.

Lemma rangeOrder_Permutation {A} (pick : list A -> nat) (l : list A) :
  rangeOrder pick l ≡ₚ l.
Proof. by apply visit_Permutation. Qed.

Lemma rangeOrder_map {V} pick (m : gmap string V) k v :
  (k, v) ∈ rangeOrder pick (map_to_list m) <-> m !! k = Some v.
Proof. by rewrite rangeOrder_Permutation, elem_of_map_to_list. Qed.

Lemma rangeOrder_NoDup {V} pick (m : gmap string V) :
  NoDup (rangeOrder pick (map_to_list m)).*1.
Proof. rewrite rangeOrder_Permutation. apply NoDup_fst_map_to_list. Qed.

Lemma pickInOrder_next {A} `{!EqDecision A} (visited rest l : list A) x :
  NoDup (visited ++ x :: rest) -> l ≡ₚ x :: rest ->
  exists i, pickInOrder (visited ++ x :: rest) l = i /\ l !! i = Some x.
Proof.
  intros Hnodup Hperm. unfold pickInOrder.
  assert (x ∈ l) as Hx by (rewrite Hperm; by left).
  assert (list_find (fun y => y ∈ l) (visited ++ x :: rest)
          = Some (length visited, x)) as ->.
  { apply list_find_Some. split; [by apply list_lookup_middle|].
    split; [done|]. intros j y Hy Hj.
    rewrite lookup_app_l in Hy by done.
    apply list_elem_of_lookup_2 in Hy.
    apply NoDup_app in Hnodup as (_ & Hdisjoint & _).
    rewrite Hperm. by apply Hdisjoint. }
  destruct (list_find (x =.) l) as [[i y]|] eqn:Hfind.
  - apply list_find_Some in Hfind as (Hi & -> & _). by exists i.
  - apply list_find_None in Hfind.
    rewrite Forall_forall in Hfind. by destruct (Hfind x Hx).
Qed.

(** Every order of the entries is the order of some scheduler. *)
Lemma visit_pickInOrder {A} `{!EqDecision A} (visited rest l : list A) :
  NoDup (visited ++ rest) -> l ≡ₚ rest ->
  visit (pickInOrder (visited ++ rest)) (length l) l = rest.
Proof.
  revert visited l. induction rest as [|x rest IH]; intros visited l Hnodup Hperm.
  - apply Permutation_nil_r in Hperm as ->. done.
  - destruct (pickInOrder_next visited rest l x Hnodup Hperm) as (i & Hpick & Hi).
    pose proof (lookup_lt_Some _ _ _ Hi) as Hlt.
    destruct l as [|y l']; [done|].
    cbn [visit length]. rewrite Hpick.
    change (S (length l')) with (length (y :: l')).
    rewrite Nat.mod_small by done. rewrite Hi. f_equal.
    assert (delete i (y :: l') ≡ₚ rest) as Hrest.
    { apply (Permutation_cons_inv (a := x)).
      by rewrite <- (delete_Permutation _ _ _ Hi). }
    replace (length l') with (length (delete i (y :: l'))).
    2:{ rewrite length_delete by eauto. simpl. lia. }
    specialize (IH (visited ++ [x]) (delete i (y :: l'))).
    rewrite <- app_assoc in IH. by apply IH.
Qed.

Lemma rangeOrder_any {A} `{!EqDecision A} (order l : list A) :
  NoDup l -> order ≡ₚ l -> rangeOrder (pickInOrder order) l = order.
Proof.
  intros Hnodup Hperm. apply (visit_pickInOrder [] order l); [|done].
  by rewrite Hperm.
Qed.

Lemma rangeOrder_map_any {V} `{!EqDecision V} (m : gmap string V) order :
  order ≡ₚ map_to_list m ->
  rangeOrder (pickInOrder order) (map_to_list m) = order.
Proof. apply rangeOrder_any, NoDup_map_to_list. Qed.

(** ** The loop over the keys of a record *)

Section records.

Variable paramDefinitions : gmap string ParameterDescriptor.t.

Abbreviation intValue d n :=
  {| IntParameterValue.Descriptor := d; IntParameterValue.Value := n |}.
Abbreviation stringValue d v :=
  {| StringParameterValue.Descriptor := d; StringParameterValue.Value := v |}.

(** One round on a key other than [$], when it does not return. *)
Lemma repEntry_Next ip sp k v ip' sp' :
  repEntry paramDefinitions (ip, sp) (k, v) = Next (ip', sp') ->
  k <> "$" ->
  exists d, paramDefinitions !! k = Some d /\
    if slices_Contains knownIntParams k
    then exists n, strconv.ParseInt v 16 = (n, None) /\
                   ip' = <[k := intValue d n]> ip /\ sp' = sp
    else ip' = ip /\ sp' = <[k := stringValue d v]> sp.
Proof.
  unfold repEntry. intros Hstep Hk.
  apply String.eqb_neq in Hk. rewrite Hk in Hstep.
  destruct (paramDefinitions !! k) as [d|]; [|discriminate].
  exists d. split; [done|].
  destruct (slices_Contains knownIntParams k).
  - destruct (strconv.ParseInt v 16) as [n [err|]]; [discriminate|].
    simpl in Hstep. injection Hstep as <- <-. eauto.
  - by injection Hstep as <- <-.
Qed.

Lemma repEntry_dollar params v :
  repEntry paramDefinitions params ("$", v) = Next params.
Proof. by destruct params. Qed.

Lemma repLoop_cons kv kvs params :
  repLoop paramDefinitions (kv :: kvs) params
  = repEntry paramDefinitions params kv ≫= repLoop paramDefinitions kvs.
Proof. done. Qed.

(** Keys the loop does not visit, and [$], leave both maps as they are. *)
Lemma repLoop_other kvs ip sp ip' sp' k :
  repLoop paramDefinitions kvs (ip, sp) = Next (ip', sp') ->
  k ∉ kvs.*1 \/ k = "$" ->
  ip' !! k = ip !! k /\ sp' !! k = sp !! k.
Proof.
  revert ip sp. induction kvs as [|[k0 v0] kvs IH]; intros ip sp.
  - by intros [= <- <-].
  - rewrite repLoop_cons.
    destruct (repEntry _ _ _) as [[ip1 sp1]|] eqn:Hstep; [|discriminate].
    simpl. intros Hloop Hk.
    assert (k ∉ kvs.*1 \/ k = "$") as Hk'.
    { destruct Hk as [Hk|]; [left|by right]. set_solver. }
    destruct (IH _ _ Hloop Hk') as [-> ->].
    destruct (decide (k0 = "$")) as [->|Hk0].
    + rewrite repEntry_dollar in Hstep. by injection Hstep as <- <-.
    + assert (k <> k0) by (destruct Hk; [set_solver|congruence]).
      apply repEntry_Next in Hstep as (d & _ & Hstep); [|done].
      destruct (slices_Contains knownIntParams k0).
      * destruct Hstep as (n & _ & -> & ->). by rewrite lookup_insert_ne.
      * destruct Hstep as [-> ->]. by rewrite lookup_insert_ne.
Qed.

(** A visited key lands in the map its code selects. *)
Lemma repLoop_key kvs ip sp ip' sp' k v :
  repLoop paramDefinitions kvs (ip, sp) = Next (ip', sp') ->
  NoDup kvs.*1 -> (k, v) ∈ kvs -> k <> "$" ->
  exists d, paramDefinitions !! k = Some d /\
    if slices_Contains knownIntParams k
    then exists n, strconv.ParseInt v 16 = (n, None) /\
                   ip' !! k = Some (intValue d n) /\ sp' !! k = sp !! k
    else ip' !! k = ip !! k /\ sp' !! k = Some (stringValue d v).
Proof.
  revert ip sp. induction kvs as [|[k0 v0] kvs IH]; intros ip sp.
  - intros _ _ Hin. by apply elem_of_nil in Hin.
  - rewrite repLoop_cons.
    destruct (repEntry _ _ _) as [[ip1 sp1]|] eqn:Hstep; [|discriminate].
    simpl. intros Hloop [Hfresh Hnodup]%NoDup_cons Hin Hk.
    apply elem_of_cons in Hin as [[= <- <-]|Hin].
    + apply repEntry_Next in Hstep as (d & Hd & Hstep); [|done].
      exists d. split; [done|].
      destruct (repLoop_other _ _ _ _ _ k Hloop (or_introl Hfresh))
        as [Hip Hsp].
      rewrite Hip, Hsp. destruct (slices_Contains knownIntParams k).
      * destruct Hstep as (n & Hn & -> & ->). exists n.
        by rewrite lookup_insert_eq.
      * destruct Hstep as [-> ->]. by rewrite lookup_insert_eq.
    + assert (k <> k0).
      { intros ->. apply Hfresh. apply list_elem_of_fmap.
        by exists (k0, v). }
      destruct (IH _ _ Hloop Hnodup Hin Hk) as (d & Hd & Hkey).
      exists d. split; [done|].
      destruct (decide (k0 = "$")) as [->|Hk0].
      * rewrite repEntry_dollar in Hstep. by injection Hstep as <- <-.
      * apply repEntry_Next in Hstep as (d0 & _ & Hstep); [|done].
        destruct (slices_Contains knownIntParams k0).
        -- destruct Hstep as (n0 & _ & -> & ->).
           by rewrite lookup_insert_ne in Hkey.
        -- destruct Hstep as [-> ->].
           by rewrite lookup_insert_ne in Hkey.
Qed.

(** The loop returns as soon as it meets a key that does not parse. *)
Lemma repEntry_fails params k v :
  k <> "$" -> ~ keyParses paramDefinitions k v ->
  exists e, repEntry paramDefinitions params (k, v) = Return e.
Proof.
  intros Hk Hbad. destruct params as [ip sp]. unfold repEntry.
  apply String.eqb_neq in Hk. rewrite Hk.
  destruct (paramDefinitions !! k) as [d|] eqn:Hd; [|by eauto].
  destruct (slices_Contains knownIntParams k) eqn:Hknown.
  - destruct (strconv.ParseInt v 16) as [n [err|]] eqn:Hn; [by simpl; eauto|].
    destruct Hbad. split; [by eauto|]. by rewrite Hn.
  - destruct Hbad. split; [by eauto|congruence].
Qed.

Lemma repLoop_fails kvs params k v :
  (k, v) ∈ kvs -> k <> "$" -> ~ keyParses paramDefinitions k v ->
  exists e, repLoop paramDefinitions kvs params = Return e.
Proof.
  intros Hin Hk Hbad. revert params.
  induction kvs as [|kv kvs IH]; intros params.
  - by apply elem_of_nil in Hin.
  - rewrite repLoop_cons. apply elem_of_cons in Hin as [<-|Hin].
    + destruct (repEntry_fails params k v Hk Hbad) as [e ->]. by eauto.
    + destruct (repEntry _ _ _) as [params'|e]; simpl; [by apply IH|by eauto].
Qed.

(** It runs to its end when every key parses. *)
Lemma repLoop_runs kvs params :
  (forall k v, (k, v) ∈ kvs -> k <> "$" -> keyParses paramDefinitions k v) ->
  exists params', repLoop paramDefinitions kvs params = Next params'.
Proof.
  revert params. induction kvs as [|[k v] kvs IH]; intros params Hall.
  - simpl. eauto.
  - rewrite repLoop_cons. assert (exists params', repEntry paramDefinitions params (k, v)
                            = Next params') as [params' ->].
    { destruct (decide (k = "$")) as [->|Hk].
      - rewrite repEntry_dollar. eauto.
      - destruct (Hall k v) as [[d Hd] Hint]; [by left|done|].
        destruct params as [ip sp]. unfold repEntry.
        apply String.eqb_neq in Hk. rewrite Hk, Hd.
        destruct (slices_Contains knownIntParams k); [|by eauto].
        destruct (strconv.ParseInt v 16) as [n [err|]]; [|by simpl; eauto].
        by specialize (Hint eq_refl). }
    simpl. apply IH. intros k' v' Hin. apply Hall. by right.
Qed.

(** When a key without a descriptor is the only defect among the keys,
    the loop returns the error that names it, whatever the order. *)
Lemma repLoop_no_descriptor kvs params k v :
  (k, v) ∈ kvs -> k <> "$" -> paramDefinitions !! k = None ->
  (forall k' v', (k', v') ∈ kvs -> k' <> "$" -> k' <> k ->
                 keyParses paramDefinitions k' v') ->
  repLoop paramDefinitions kvs params
  = Return (Errorf "could not find descriptor for parameter %v" [k] None).
Proof.
  intros Hin Hk Hnone. revert params.
  induction kvs as [|[k0 v0] kvs IH]; intros params Hrest.
  - by apply elem_of_nil in Hin.
  - rewrite repLoop_cons. destruct (decide (k0 = k)) as [->|Hk0].
    + destruct params as [ip sp]. unfold repEntry.
      apply String.eqb_neq in Hk. by rewrite Hk, Hnone.
    + apply elem_of_cons in Hin as [[= ? ?]|Hin]; [congruence|].
      destruct (repLoop_runs [(k0, v0)] params) as [params' Hstep].
      { intros k' v' [= -> ->]%list_elem_of_singleton Hk'.
        apply Hrest; [by left|done..]. }
      rewrite repLoop_cons in Hstep.
      destruct (repEntry _ _ _) as [params''|]; [|discriminate].
      simpl. apply IH; [done|]. intros k' v' Hin'. apply Hrest. by right.
Qed.

End records.

(** ** Records, periods and locations *)

Lemma slices_Contains_elem_of l k : slices_Contains l k = true <-> k ∈ l.
Proof.
  unfold slices_Contains. rewrite existsb_exists. split.
  - intros (x & Hin & ->%String.eqb_eq). by apply list_elem_of_In.
  - intros Hin. exists k. split; [by apply list_elem_of_In|].
    apply String.eqb_refl.
Qed.

Lemma forecastOffset_Next offsetString offset :
  forecastOffset offsetString = Next offset ->
  (offsetString = "Day" /\ offset = 0) \/
  (offsetString = "Night" /\ offset = 86399) \/
  (offsetString <> "Day" /\ offsetString <> "Night" /\
   exists minutes, strconv.ParseInt offsetString 16 = (minutes, None) /\
                   offset = minutes * 60).
Proof.
  unfold forecastOffset.
  destruct (String.eqb_spec offsetString "Day") as [->|Hday].
  { intros [= <-]. by left. }
  destruct (String.eqb_spec offsetString "Night") as [->|Hnight].
  { intros [= <-]. right. by left. }
  destruct (strconv.ParseInt offsetString 16) as [n [err|]] eqn:Hn;
    [discriminate|].
  simpl. intros [= <-]. right. right. repeat split; [done..|].
  exists n. split; [done|].
  apply ParseInt_16_range in Hn. apply int64_small. lia.
Qed.

Lemma forecastOffset_runs offsetString :
  offsetParses offsetString <->
  exists offset, forecastOffset offsetString = Next offset.
Proof.
  unfold offsetParses, forecastOffset.
  destruct (String.eqb_spec offsetString "Day") as [->|Hday].
  { split; [by eauto|]. by left. }
  destruct (String.eqb_spec offsetString "Night") as [->|Hnight].
  { split; [by eauto|]. right. by left. }
  destruct (strconv.ParseInt offsetString 16) as [n [err|]]; simpl.
  - split; [by intros [|[|]]|]. by intros [? ?].
  - split; [by eauto|]. intros _. right. by right.
Qed.

(** The sum [periodTime.Add(time.Duration(offset) * time.Second)] does not
    wrap. *)
Lemma forecastOffset_Duration offsetString offset :
  forecastOffset offsetString = Next offset ->
  int64 (offset * time.Second) = offset * time.Second.
Proof.
  intros [[_ ->]|[[_ ->]|(_ & _ & n & Hn & ->)]]%forecastOffset_Next;
    [done..|].
  apply ParseInt_16_range in Hn. apply int64_small.
  unfold time.Second. lia.
Qed.

Section locations.

Variable ParseFloat : string -> float64 * option error.
Variable time_Parse : string -> string -> Time * option error.
Variable pick : list (string * string) -> nat.
Variable paramDefinitions : gmap string ParameterDescriptor.t.

Lemma convertRep_Next periodTime rep f :
  convertRep pick paramDefinitions periodTime rep = Next f <->
  exists offsetString offset params,
    rep !! "$" = Some offsetString /\
    forecastOffset offsetString = Next offset /\
    repLoop paramDefinitions (rangeOrder pick (map_to_list rep)) (∅, ∅)
    = Next params /\
    f = {| Forecast.Time_ := periodTime + offset * time.Second;
           Forecast.IntParams := params.1;
           Forecast.StringParams := params.2 |}.
Proof.
  unfold convertRep. split.
  - destruct (rep !! "$") as [o|]; [|discriminate].
    destruct (forecastOffset o) as [offset|] eqn:Ho; [|discriminate].
    simpl. destruct (repLoop _ _ _) as [params|]; [|discriminate].
    simpl. intros [= <-]. exists o, offset, params.
    by rewrite (forecastOffset_Duration _ _ Ho).
  - intros (o & offset & params & -> & Ho & Hloop & ->).
    rewrite Ho. simpl. rewrite Hloop. simpl.
    by rewrite (forecastOffset_Duration _ _ Ho).
Qed.

(** A record converts exactly when its marker and its keys parse. *)
Lemma convertRep_runs periodTime rep :
  repParses paramDefinitions rep <->
  exists f, convertRep pick paramDefinitions periodTime rep = Next f.
Proof.
  split.
  - intros [(o & Ho & [offset Hoffset]%forecastOffset_runs) Hkeys].
    destruct (repLoop_runs paramDefinitions
                (rangeOrder pick (map_to_list rep)) (∅, ∅))
      as [params Hloop].
    { intros k v Hin%rangeOrder_map. by apply Hkeys. }
    eexists. apply convertRep_Next. by exists o, offset, params.
  - intros [f (o & offset & params & Ho & Hoffset & Hloop & _)%convertRep_Next].
    split.
    + exists o. split; [done|]. apply forecastOffset_runs. by eauto.
    + intros k v Hin Hk.
      destruct (decide (keyParses paramDefinitions k v)) as [|Hbad]; [done|].
      apply (rangeOrder_map pick) in Hin.
      destruct (repLoop_fails paramDefinitions _ (∅, ∅) k v Hin Hk Hbad)
        as [e He].
      congruence.
Qed.


Lemma check_Some {A B} (r : A * option error) wrap
  (k : A -> option B * option error) b :
  check r wrap k = (Some b, None) <->
  exists a, r = (a, None) /\ k a = (Some b, None).
Proof.
  destruct r as [a [err|]]; simpl; split.
  - discriminate.
  - by intros (a' & [=] & _).
  - by eauto.
  - by intros (a' & [= <-] & ?).
Qed.

Lemma check_valueOrError {A B} (r : A * option error) wrap
  (k : A -> option B * option error) :
  (forall a, valueOrError (k a)) -> valueOrError (check r wrap k).
Proof.
  intros Hk. destruct r as [a [err|]]; simpl; [|done].
  right. by eauto.
Qed.

Lemma convertPeriod_Next P Pd :
  convertPeriod time_Parse pick paramDefinitions P = Next Pd <->
  exists periodTime forecasts,
    time_Parse "2006-01-02Z" (locationEntry.Value P) = (periodTime, None) /\
    Forall2 (fun rep f =>
               convertRep pick paramDefinitions periodTime rep = Next f)
      (locationEntry.Rep P) forecasts /\
    Pd = {| Period.Type_ := locationEntry.Type_ P;
            Period.Time_ := periodTime;
            Period.Forecasts := forecasts |}.
Proof.
  unfold convertPeriod. split.
  - destruct (time_Parse _ _) as [pt [err|]]; [discriminate|]. simpl.
    destruct (each _ _) as [forecasts|] eqn:Heach; [|discriminate].
    simpl. intros [= <-]. exists pt, forecasts.
    by apply each_Next in Heach.
  - intros (pt & forecasts & -> & Heach%each_Next & ->). simpl.
    by rewrite Heach.
Qed.

Lemma convertLocation_Some typeName startTime entry site :
  convertLocation ParseFloat time_Parse pick paramDefinitions
    typeName startTime entry = (Some site, None) <->
  exists periods id lat lon elevation,
    each (convertPeriod time_Parse pick paramDefinitions)
      (locationEntry.Periods entry) = Next periods /\
    strconv.ParseInt (locationEntry.Id entry) 64 = (id, None) /\
    ParseFloat (locationEntry.Latitude entry) = (lat, None) /\
    ParseFloat (locationEntry.Longitude entry) = (lon, None) /\
    (if String.eqb (locationEntry.Elevation entry) ""
     then (0%float, None)
     else ParseFloat (locationEntry.Elevation entry)) = (elevation, None) /\
    site = {| SiteRep.DataDate := startTime;
              SiteRep.Type_ := typeName;
              SiteRep.Location :=
                {| LocationRep.Id := id;
                   LocationRep.Latitude := lat;
                   LocationRep.Longitude := lon;
                   LocationRep.Name := locationEntry.Name entry;
                   LocationRep.Country := locationEntry.Country entry;
                   LocationRep.Continent := locationEntry.Continent entry;
                   LocationRep.Elevation := elevation;
                   LocationRep.Periods := periods |} |}.
Proof.
  unfold convertLocation. destruct (each _ _) as [periods|e].
  - rewrite check_Some. split.
    + intros (id & Hid & (lat & Hlat & (lon & Hlon &
        (elevation & Helev & [= <-])%check_Some)%check_Some)%check_Some).
      by exists periods, id, lat, lon, elevation.
    + intros (? & id & lat & lon & elevation
              & [= <-] & Hid & Hlat & Hlon & Helev & ->).
      exists id. split; [done|]. apply check_Some.
      exists lat. split; [done|]. apply check_Some.
      exists lon. split; [done|]. apply check_Some.
      by exists elevation.
  - split; [discriminate|]. by intros (? & ? & ? & ? & ? & [=] & _).
Qed.

(** [convertLocation] returns a value or an error, never both and never
    neither. *)
Lemma convertLocation_valueOrError typeName startTime entry :
  valueOrError (convertLocation ParseFloat time_Parse pick paramDefinitions
                  typeName startTime entry).
Proof.
  unfold convertLocation. destruct (each _ _) as [periods|e].
  - repeat (apply check_valueOrError; intros ?). left. by eauto.
  - right. by eauto.
Qed.

(** The record at place [j] of period [i], and what became of it. *)
Lemma convertLocation_record typeName startTime entry site i j P rep :
  convertLocation ParseFloat time_Parse pick paramDefinitions
    typeName startTime entry = (Some site, None) ->
  locationEntry.Periods entry !! i = Some P ->
  locationEntry.Rep P !! j = Some rep ->
  exists periodTime Pd f,
    time_Parse "2006-01-02Z" (locationEntry.Value P) = (periodTime, None) /\
    LocationRep.Periods (SiteRep.Location site) !! i = Some Pd /\
    Period.Type_ Pd = locationEntry.Type_ P /\
    Period.Time_ Pd = periodTime /\
    Period.Forecasts Pd !! j = Some f /\
    convertRep pick paramDefinitions periodTime rep = Next f.
Proof.
  intros (periods & id & lat & lon & elevation & Hperiods%each_Next
          & _ & _ & _ & _ & ->)%convertLocation_Some HP Hrep. simpl.
  destruct (Forall2_lookup_l _ _ _ _ _ Hperiods HP)
    as (Pd & HPd & (pt & forecasts & Hpt & Hreps & ->)%convertPeriod_Next).
  destruct (Forall2_lookup_l _ _ _ _ _ Hreps Hrep) as (f & Hf & Hconv).
  by eexists pt, _, f.
Qed.

(** A record that does not parse makes the whole conversion fail. *)
Lemma convertLocation_fails typeName startTime entry i j P rep :
  locationEntry.Periods entry !! i = Some P ->
  locationEntry.Rep P !! j = Some rep ->
  ~ repParses paramDefinitions rep ->
  exists e,
    convertLocation ParseFloat time_Parse pick paramDefinitions
      typeName startTime entry = (None, Some e).
Proof.
  intros HP Hrep Hbad.
  destruct (convertLocation _ _ _ _ typeName startTime entry)
    as [[site|] [e|]] eqn:Hconv.
  - by destruct (convertLocation_valueOrError typeName startTime entry)
      as [[_ Hr]|[Hr _]]; rewrite Hconv in Hr.
  - destruct (convertLocation_record _ _ _ _ _ _ _ _ Hconv HP Hrep)
      as (pt & Pd & f & _ & _ & _ & _ & _ & Hf).
    destruct Hbad. apply (convertRep_runs pt). by eauto.
  - by eauto.
  - by destruct (convertLocation_valueOrError typeName startTime entry)
      as [[[? Hr] _]|[_ [? Hr]]]; rewrite Hconv in Hr.
Qed.

Lemma each_runs {A B} (f : A -> flow B) (Q : A -> Prop) l :
  (forall x, Q x <-> exists y, f x = Next y) ->
  Forall Q l <-> exists ys, each f l = Next ys.
Proof.
  intros HQ. split.
  - induction 1 as [|x l [y Hy]%HQ _ [ys IH]]; simpl; [by eauto|].
    rewrite Hy. simpl. rewrite IH. simpl. by eauto.
  - intros [ys Hys%each_Next].
    induction Hys as [|x y l ys Hx _ IH]; constructor; [|done].
    apply HQ. by eauto.
Qed.

(** A period converts exactly when its date and its records parse. *)
Lemma convertPeriod_runs P :
  periodParses time_Parse paramDefinitions P <->
  exists Pd, convertPeriod time_Parse pick paramDefinitions P = Next Pd.
Proof.
  unfold periodParses, convertPeriod.
  destruct (time_Parse _ _) as [pt [err|]]; simpl.
  - split; [by intros [? _]|by intros [? ?]].
  - rewrite (each_runs (convertRep pick paramDefinitions pt)
               (repParses paramDefinitions))
      by apply convertRep_runs.
    split.
    + intros [_ [forecasts ->]]. simpl. by eauto.
    + intros [Pd HPd]. split; [done|].
      destruct (each _ _) as [forecasts|]; [by eauto|done].
Qed.

End locations.

(** * The claims *)

Section forecasts.

Variable ParseFloat : string -> float64 * option error.
Variable time_Parse : string -> string -> Time * option error.
Variable pick : list (string * string) -> nat.
Variable paramDefinitions : gmap string ParameterDescriptor.t.
Variables (typeName : string) (startTime : Time).

Let convert := convertLocation ParseFloat time_Parse pick paramDefinitions
                 typeName startTime.

(** C1. In a location that [convertLocation] converts, the time of the
    forecast made from a record is the date of its period plus the offset
    its [$] value stands for: nothing for ["Day"], 86399 seconds (23:59:59)
    for ["Night"], and for any other token the 16-bit integer it parses
    to, counted in minutes. *)
Theorem convertLocation_forecast_time entry site i j P rep :
  convert entry = (Some site, None) ->
  locationEntry.Periods entry !! i = Some P ->
  locationEntry.Rep P !! j = Some rep ->
  exists periodTime Pd f offsetString,
    time_Parse "2006-01-02Z" (locationEntry.Value P) = (periodTime, None) /\
    LocationRep.Periods (SiteRep.Location site) !! i = Some Pd /\
    Period.Time_ Pd = periodTime /\
    Period.Forecasts Pd !! j = Some f /\
    rep !! "$" = Some offsetString /\
    ((offsetString = "Day" /\ Forecast.Time_ f = periodTime) \/
     (offsetString = "Night" /\
      Forecast.Time_ f = periodTime + 86399 * time.Second) \/
     (offsetString <> "Day" /\ offsetString <> "Night" /\
      exists minutes,
        strconv.ParseInt offsetString 16 = (minutes, None) /\
        Forecast.Time_ f = periodTime + minutes * (60 * time.Second))).
Proof.
  intros Hconv HP Hrep.
  destruct (convertLocation_record _ _ _ _ _ _ _ _ _ _ _ _ Hconv HP Hrep)
    as (pt & Pd & f & Hpt & HPd & _ & Htime & Hf & Hconvert).
  apply convertRep_Next in Hconvert
    as (o & offset & params & Ho & Hoffset & _ & ->).
  eexists pt, Pd, _, o. repeat split; [done..|]. simpl.
  apply forecastOffset_Next in Hoffset
    as [[-> ->]|[[-> ->]|(Hday & Hnight & n & Hn & ->)]].
  - left. split; [done|]. lia.
  - right. left. done.
  - right. right. repeat split; [done..|]. exists n. split; [done|]. lia.
Qed.

(** C2. In a location that [convertLocation] converts, a key of a record
    other than [$] is stored by its code alone: a key of the list of
    known integers is in the integer mapping, with the integer its value
    parses to, and not in the string mapping; any other key is in the
    string mapping with its value as it came. *)
Theorem convertLocation_classifies entry site i j P rep k v :
  convert entry = (Some site, None) ->
  locationEntry.Periods entry !! i = Some P ->
  locationEntry.Rep P !! j = Some rep ->
  rep !! k = Some v -> k <> "$" ->
  exists Pd f d,
    LocationRep.Periods (SiteRep.Location site) !! i = Some Pd /\
    Period.Forecasts Pd !! j = Some f /\
    paramDefinitions !! k = Some d /\
    (k ∈ knownIntParams ->
     exists n,
       strconv.ParseInt v 16 = (n, None) /\
       Forecast.IntParams f !! k
       = Some {| IntParameterValue.Descriptor := d;
                 IntParameterValue.Value := n |} /\
       Forecast.StringParams f !! k = None) /\
    (k ∉ knownIntParams ->
     Forecast.StringParams f !! k
     = Some {| StringParameterValue.Descriptor := d;
               StringParameterValue.Value := v |}).
Proof.
  intros Hconv HP Hrep Hkv Hk.
  destruct (convertLocation_record _ _ _ _ _ _ _ _ _ _ _ _ Hconv HP Hrep)
    as (pt & Pd & f & _ & HPd & _ & _ & Hf & Hconvert).
  apply convertRep_Next in Hconvert
    as (o & offset & [ip sp] & _ & _ & Hloop & ->).
  apply (rangeOrder_map pick) in Hkv.
  destruct (repLoop_key _ _ _ _ _ _ _ _ Hloop (rangeOrder_NoDup _ _) Hkv Hk)
    as (d & Hd & Hkey).
  eexists Pd, _, d. repeat split; [done..| |]; simpl.
  - intros Hknown%slices_Contains_elem_of. rewrite Hknown in Hkey.
    destruct Hkey as (n & Hn & Hip & Hsp). exists n.
    by rewrite Hsp, lookup_empty.
  - intros Hstr. destruct (slices_Contains knownIntParams k) eqn:Hknown.
    + by apply slices_Contains_elem_of in Hknown.
    + by destruct Hkey.
Qed.

(** C5, as the code has it.  In a location that [convertLocation]
    converts, a key of a record other than [$] is in exactly one of the
    two mappings of its forecast.  A key other than [$] without a
    descriptor makes the whole conversion fail; the error names that key
    when nothing fails before it: the periods and records before it
    convert, the date of its period and the marker of its record parse,
    and the other keys of its record parse. *)
Theorem convertLocation_one_mapping :
  (forall entry site i j P rep k v,
     convert entry = (Some site, None) ->
     locationEntry.Periods entry !! i = Some P ->
     locationEntry.Rep P !! j = Some rep ->
     rep !! k = Some v -> k <> "$" ->
     exists Pd f,
       LocationRep.Periods (SiteRep.Location site) !! i = Some Pd /\
       Period.Forecasts Pd !! j = Some f /\
       ((is_Some (Forecast.IntParams f !! k) /\
         Forecast.StringParams f !! k = None) \/
        (Forecast.IntParams f !! k = None /\
         is_Some (Forecast.StringParams f !! k)))) /\
  (forall entry i j P rep k v,
     locationEntry.Periods entry !! i = Some P ->
     locationEntry.Rep P !! j = Some rep ->
     rep !! k = Some v -> k <> "$" ->
     paramDefinitions !! k = None ->
     exists e, convert entry = (None, Some e)) /\
  (forall entry i j P rep k v offsetString,
     locationEntry.Periods entry !! i = Some P ->
     locationEntry.Rep P !! j = Some rep ->
     rep !! k = Some v -> k <> "$" ->
     paramDefinitions !! k = None ->
     Forall (periodParses time_Parse paramDefinitions)
       (take i (locationEntry.Periods entry)) ->
     (time_Parse "2006-01-02Z" (locationEntry.Value P)).2 = None ->
     Forall (repParses paramDefinitions) (take j (locationEntry.Rep P)) ->
     rep !! "$" = Some offsetString -> offsetParses offsetString ->
     (forall k' v', rep !! k' = Some v' -> k' <> "$" -> k' <> k ->
                    keyParses paramDefinitions k' v') ->
     convert entry
     = (None,
        Some (Errorf "could not find descriptor for parameter %v" [k] None))).
Proof.
  split; [|split].
  - intros entry site i j P rep k v Hconv HP Hrep Hkv Hk.
    destruct (convertLocation_record _ _ _ _ _ _ _ _ _ _ _ _ Hconv HP Hrep)
      as (pt & Pd & f & _ & HPd & _ & _ & Hf & Hconvert).
    apply convertRep_Next in Hconvert
      as (o & offset & [ip sp] & _ & _ & Hloop & ->).
    apply (rangeOrder_map pick) in Hkv.
    destruct (repLoop_key _ _ _ _ _ _ _ _ Hloop (rangeOrder_NoDup _ _) Hkv Hk)
      as (d & Hd & Hkey).
    eexists Pd, _. repeat split; [done..|]. simpl.
    destruct (slices_Contains knownIntParams k).
    + destruct Hkey as (n & _ & -> & ->). left. by rewrite lookup_empty.
    + destruct Hkey as [-> ->]. right. by rewrite lookup_empty.
  - intros entry i j P rep k v HP Hrep Hkv Hk Hnone.
    apply (convertLocation_fails _ _ _ _ _ _ _ _ _ _ _ HP Hrep).
    intros [_ Hkeys]. destruct (Hkeys k v Hkv Hk) as [[d Hd] _]. congruence.
  - intros entry i j P rep k v o HP Hrep Hkv Hk Hnone Hperiods Hdate Hreps
      Ho Hoffset Hrest.
    unfold convert, convertLocation.
    rewrite <- (take_drop_middle _ _ _ HP).
    erewrite each_Return_first; [done| |].
    { eapply Forall_impl; [done|]. by intros P' HP'%(convertPeriod_runs _ pick). }
    unfold convertPeriod.
    destruct (time_Parse _ _) as [pt [err|]]; [done|]. simpl.
    rewrite <- (take_drop_middle _ _ _ Hrep).
    erewrite each_Return_first; [done| |].
    { eapply Forall_impl; [done|]. by intros r Hr%(convertRep_runs pick _ pt). }
    unfold convertRep. rewrite Ho.
    apply forecastOffset_runs in Hoffset as [offset ->]. simpl.
    erewrite repLoop_no_descriptor; [done| |done..|].
    + by apply rangeOrder_map.
    + intros k' v' Hin%rangeOrder_map. by apply Hrest.
Qed.

(** C6, as the code has it.  A record with a key other than [$] that is
    on the list of known integers and whose value does not parse as an
    integer of 16 bits makes the whole conversion fail: there is no
    forecast in which the value could be stored as a string.  What
    parses lies in the 16-bit range. *)
Theorem convertLocation_known_int_fails :
  (forall entry i j P rep k v,
     locationEntry.Periods entry !! i = Some P ->
     locationEntry.Rep P !! j = Some rep ->
     rep !! k = Some v -> k <> "$" ->
     k ∈ knownIntParams ->
     (strconv.ParseInt v 16).2 <> None ->
     exists e, convert entry = (None, Some e)) /\
  (forall v n,
     strconv.ParseInt v 16 = (n, None) -> -32768 <= n <= 32767).
Proof.
  split; [|apply ParseInt_16_range].
  intros entry i j P rep k v HP Hrep Hkv Hk Hknown Hbad.
  apply (convertLocation_fails _ _ _ _ _ _ _ _ _ _ _ HP Hrep).
  intros [_ Hkeys]. destruct (Hkeys k v Hkv Hk) as [_ Hint].
  apply Hbad, Hint. by apply slices_Contains_elem_of.
Qed.

End forecasts.

(** The third record of the sample location, marked ["180"]: three hours
    after midnight. *)
Lemma convertLocation_forecast_time_witness :
  exists site,
    Sample.convert Sample.exeter = (Some site, None) /\
    exists periodTime Pd f offsetString,
      Sample.time_Parse "2006-01-02Z"
        (locationEntry.Value (Sample.period Sample.reps)) = (periodTime, None) /\
      LocationRep.Periods (SiteRep.Location site) !! 0%nat = Some Pd /\
      Period.Time_ Pd = periodTime /\
      Period.Forecasts Pd !! 2%nat = Some f /\
      Sample.rep "180" "11" "VG" !! "$" = Some offsetString /\
      ((offsetString = "Day" /\ Forecast.Time_ f = periodTime) \/
       (offsetString = "Night" /\
        Forecast.Time_ f = periodTime + 86399 * time.Second) \/
       (offsetString <> "Day" /\ offsetString <> "Night" /\
        exists minutes,
          strconv.ParseInt offsetString 16 = (minutes, None) /\
          Forecast.Time_ f = periodTime + minutes * (60 * time.Second))).
Proof.
  eexists. split; [vm_compute; reflexivity|].
  apply (convertLocation_forecast_time Sample.ParseFloat Sample.time_Parse
           Sample.pick Sample.paramDefinitions "Forecast" Sample.nine
           Sample.exeter _ 0%nat 2%nat (Sample.period Sample.reps)
           (Sample.rep "180" "11" "VG"));
    vm_compute; reflexivity.
Defined.

Example forecast_at_180_minutes :
  forall site Pd f,
    Sample.convert Sample.exeter = (Some site, None) ->
    LocationRep.Periods (SiteRep.Location site) !! 0%nat = Some Pd ->
    Period.Forecasts Pd !! 2%nat = Some f ->
    Forecast.Time_ f = Sample.midnight + 180 * (60 * time.Second).
Proof.
  intros site Pd f Hconv HPd Hf. vm_compute in Hconv.
  injection Hconv as <-. vm_compute in HPd. injection HPd as <-.
  vm_compute in Hf. injection Hf as <-. reflexivity.
Qed.

(** In the first record of the sample location the visibility ["12000"]
    reads like a number and is kept as a string all the same. *)
Lemma convertLocation_classifies_witness :
  exists site,
    Sample.convert Sample.exeter = (Some site, None) /\
    exists Pd f d,
      LocationRep.Periods (SiteRep.Location site) !! 0%nat = Some Pd /\
      Period.Forecasts Pd !! 0%nat = Some f /\
      Sample.paramDefinitions !! "V" = Some d /\
      ("V" ∈ knownIntParams ->
       exists n,
         strconv.ParseInt "12000" 16 = (n, None) /\
         Forecast.IntParams f !! "V"
         = Some {| IntParameterValue.Descriptor := d;
                   IntParameterValue.Value := n |} /\
         Forecast.StringParams f !! "V" = None) /\
      ("V" ∉ knownIntParams ->
       Forecast.StringParams f !! "V"
       = Some {| StringParameterValue.Descriptor := d;
                 StringParameterValue.Value := "12000" |}).
Proof.
  eexists. split; [vm_compute; reflexivity|].
  apply (convertLocation_classifies Sample.ParseFloat Sample.time_Parse
           Sample.pick Sample.paramDefinitions "Forecast" Sample.nine
           Sample.exeter _ 0%nat 0%nat (Sample.period Sample.reps)
           (Sample.rep "Day" "17" "12000") "V" "12000");
    [vm_compute; reflexivity..|discriminate].
Defined.

(** C5, as stated, fails: the key [X] has no descriptor, the marker ["abc"]
    does not parse, and the error is that of the marker; it does not name
    [X]. *)
Lemma convertLocation_names_marker_not_key :
  Sample.unlisted "abc" !! "X" = Some "1" /\
  Sample.paramDefinitions !! "X" = None /\
  Sample.convert (Sample.location "310069" "" [Sample.unlisted "abc"])
  = (None,
     Some (Errorf "failed to parse forecast offset: %w" []
             (Some (strconv.syntaxError "ParseInt" "abc")))) /\
  ~ mentions "X"
      (Errorf "failed to parse forecast offset: %w" []
         (Some (strconv.syntaxError "ParseInt" "abc"))).
Proof.
  repeat split; [vm_compute; reflexivity..|].
  simpl. intros [[]|[|[]]]. discriminate.
Qed.

Lemma unlisted_lookup offset k v :
  Sample.unlisted offset !! k = Some v -> k <> "$" -> k <> "X" ->
  k = "T" /\ v = "17".
Proof.
  unfold Sample.unlisted. intros Hkv Hk HX.
  rewrite lookup_insert_ne in Hkv by done.
  destruct (decide (k = "T")) as [->|HT].
  - rewrite lookup_insert_eq in Hkv. by injection Hkv as <-.
  - rewrite lookup_insert_ne, lookup_singleton_ne in Hkv by done. done.
Qed.

(** The temperature of the first record of the sample location is in the
    integer mapping alone; a record with the key [X], which has no
    descriptor, fails the conversion, whatever its marker; with a marker
    that parses the error names [X]. *)
Lemma convertLocation_one_mapping_witness :
  (exists site,
     Sample.convert Sample.exeter = (Some site, None) /\
     exists Pd f,
       LocationRep.Periods (SiteRep.Location site) !! 0%nat = Some Pd /\
       Period.Forecasts Pd !! 0%nat = Some f /\
       ((is_Some (Forecast.IntParams f !! "T") /\
         Forecast.StringParams f !! "T" = None) \/
        (Forecast.IntParams f !! "T" = None /\
         is_Some (Forecast.StringParams f !! "T")))) /\
  (exists e,
     Sample.convert (Sample.location "310069" "" [Sample.unlisted "abc"])
     = (None, Some e)) /\
  Sample.convert (Sample.location "310069" "" [Sample.unlisted "Day"])
  = (None,
     Some (Errorf "could not find descriptor for parameter %v" ["X"] None)).
Proof.
  pose proof (convertLocation_one_mapping Sample.ParseFloat Sample.time_Parse
                Sample.pick Sample.paramDefinitions "Forecast" Sample.nine)
    as (Hone & Hfails & Hnames).
  split; [|split].
  - eexists. split; [vm_compute; reflexivity|].
    apply (Hone Sample.exeter _ 0%nat 0%nat (Sample.period Sample.reps)
             (Sample.rep "Day" "17" "12000") "T" "17");
      [vm_compute; reflexivity..|discriminate].
  - apply (Hfails (Sample.location "310069" "" [Sample.unlisted "abc"])
             0%nat 0%nat (Sample.period [Sample.unlisted "abc"])
             (Sample.unlisted "abc") "X" "1");
      [vm_compute; reflexivity..|discriminate|vm_compute; reflexivity].
  - apply (Hnames (Sample.location "310069" "" [Sample.unlisted "Day"])
             0%nat 0%nat (Sample.period [Sample.unlisted "Day"])
             (Sample.unlisted "Day") "X" "1" "Day").
    + reflexivity.
    + reflexivity.
    + vm_compute; reflexivity.
    + discriminate.
    + vm_compute; reflexivity.
    + constructor.
    + reflexivity.
    + constructor.
    + vm_compute; reflexivity.
    + by left.
    + intros k' v' Hkv Hk HX.
      destruct (unlisted_lookup _ _ _ Hkv Hk HX) as [-> ->].
      split; [by vm_compute; eauto|reflexivity].
Defined.

(** C6, as stated, fails: [$] is on the list of known integers, ["Day"] is
    no integer, and the record converts. *)
Lemma convertLocation_day_is_no_integer :
  "$" ∈ knownIntParams /\
  Sample.bare "Day" !! "$" = Some "Day" /\
  (strconv.ParseInt "Day" 16).2
  = Some (strconv.syntaxError "ParseInt" "Day") /\
  exists site,
    Sample.convert (Sample.location "310069" "" [Sample.bare "Day"])
    = (Some site, None).
Proof.
  split; [by apply slices_Contains_elem_of|].
  repeat split; [vm_compute; reflexivity..|].
  eexists. vm_compute. reflexivity.
Qed.

(** A temperature of ["40000"] does not fit 16 bits; ["180"] does. *)
Lemma convertLocation_known_int_fails_witness :
  (exists e,
     Sample.convert
       (Sample.location "310069" "" [Sample.rep "Day" "40000" "GO"])
     = (None, Some e)) /\
  -32768 <= 180 <= 32767.
Proof.
  pose proof (convertLocation_known_int_fails Sample.ParseFloat
                Sample.time_Parse Sample.pick Sample.paramDefinitions
                "Forecast" Sample.nine) as [Hfails Hrange].
  split.
  - apply (Hfails (Sample.location "310069" "" [Sample.rep "Day" "40000" "GO"])
             0%nat 0%nat (Sample.period [Sample.rep "Day" "40000" "GO"])
             (Sample.rep "Day" "40000" "GO") "T" "40000").
    + reflexivity.
    + reflexivity.
    + vm_compute; reflexivity.
    + discriminate.
    + by apply slices_Contains_elem_of.
    + discriminate.
  - apply (Hrange "180"). reflexivity.
Defined.

(** ** Elevation *)

Section elevation.

Variable ParseFloat : string -> float64 * option error.
Variable time_Parse : string -> string -> Time * option error.
Variable pick : list (string * string) -> nat.
Variable paramDefinitions : gmap string ParameterDescriptor.t.
Variables (typeName : string) (startTime : Time).

Let convert := convertLocation ParseFloat time_Parse pick paramDefinitions
                 typeName startTime.

Lemma siteElevation_empty : siteElevation ParseFloat "" = (0%float, []).
Proof. done. Qed.

Lemma siteElevation_warns Elevation x err :
  Elevation <> "" -> ParseFloat Elevation = (x, Some err) ->
  siteElevation ParseFloat Elevation
  = (0%float,
     [slog_Warn "failed to parse elevation"
        [("elevation", logString Elevation); ("err", logError err)]]).
Proof.
  intros Hne%String.eqb_neq Hparse. unfold siteElevation.
  by rewrite Hne, Hparse.
Qed.

(** An entry of a site list converts exactly when its latitude, its
    longitude and its id parse. *)
Lemma siteListEntry_runs site :
  siteParses ParseFloat site <->
  exists s, siteListEntry ParseFloat site
            = (Next s, (siteElevation ParseFloat
                          (siteResponse.Elevation site)).2) /\
            Site.Elevation s
            = (siteElevation ParseFloat (siteResponse.Elevation site)).1.
Proof.
  unfold siteParses, siteListEntry.
  destruct (ParseFloat (siteResponse.Latitude site)) as [lat [e|]]; simpl.
  { split; [by intros [? _]|by intros (? & ? & _)]. }
  destruct (ParseFloat (siteResponse.Longitude site)) as [lon [e|]]; simpl.
  { split; [by intros (_ & ? & _)|by intros (? & ? & _)]. }
  destruct (strconv.ParseInt (siteResponse.Id site) 64) as [id [e|]]; simpl.
  { split; [by intros (_ & _ & ?)|by intros (? & ? & _)]. }
  destruct (siteElevation _ _) as [elevation logs]. simpl.
  split; [by eauto|done].
Qed.

Lemma siteListEntry_fails site :
  ~ siteParses ParseFloat site ->
  exists e, siteListEntry ParseFloat site = (Return e, []).
Proof.
  unfold siteParses, siteListEntry.
  destruct (ParseFloat (siteResponse.Latitude site)) as [lat [e|]]; simpl;
    [by eauto|].
  destruct (ParseFloat (siteResponse.Longitude site)) as [lon [e|]]; simpl;
    [by eauto|].
  destruct (strconv.ParseInt (siteResponse.Id site) 64) as [id [e|]]; simpl;
    [by eauto|].
  by intros [].
Qed.

(** C3, as the code has it.  In the conversion of a site list an entry
    whose other fields parse becomes a [Site] whatever its elevation: an
    empty elevation gives 0 and no warning, one that does not parse gives
    0 and one warning, and no error comes of it; an entry whose latitude,
    longitude or id does not parse returns an error.  In
    [convertLocation] an empty elevation gives 0 when the rest of the
    location parses, and an elevation that is not empty and does not
    parse fails the conversion. *)
Theorem elevation_defaulting :
  (forall site,
     siteParses ParseFloat site ->
     exists s logs,
       siteListEntry ParseFloat site = (Next s, logs) /\
       (siteResponse.Elevation site = "" ->
        Site.Elevation s = 0%float /\ logs = []) /\
       (forall x err,
          siteResponse.Elevation site <> "" ->
          ParseFloat (siteResponse.Elevation site) = (x, Some err) ->
          Site.Elevation s = 0%float /\
          logs = [slog_Warn "failed to parse elevation"
                    [("elevation", logString (siteResponse.Elevation site));
                     ("err", logError err)]])) /\
  (forall site,
     ~ siteParses ParseFloat site ->
     exists e, siteListEntry ParseFloat site = (Return e, [])) /\
  (forall entry,
     locationEntry.Elevation entry = "" ->
     Forall (periodParses time_Parse paramDefinitions)
       (locationEntry.Periods entry) ->
     (strconv.ParseInt (locationEntry.Id entry) 64).2 = None ->
     (ParseFloat (locationEntry.Latitude entry)).2 = None ->
     (ParseFloat (locationEntry.Longitude entry)).2 = None ->
     exists site,
       convert entry = (Some site, None) /\
       LocationRep.Elevation (SiteRep.Location site) = 0%float) /\
  (forall entry x err,
     locationEntry.Elevation entry <> "" ->
     ParseFloat (locationEntry.Elevation entry) = (x, Some err) ->
     exists e, convert entry = (None, Some e)).
Proof.
  split; [|split; [|split]].
  - intros site (s & Hentry & Helev)%siteListEntry_runs.
    exists s, (siteElevation ParseFloat (siteResponse.Elevation site)).2.
    split; [done|]. rewrite Helev. split.
    + intros ->. by rewrite siteElevation_empty.
    + intros x err Hne Hparse.
      by rewrite (siteElevation_warns _ _ _ Hne Hparse).
  - apply siteListEntry_fails.
  - intros entry Hempty
      [periods Hperiods]%(each_runs _ _ _ (convertPeriod_runs _ pick _))
      Hid Hlat Hlon.
    destruct (strconv.ParseInt (locationEntry.Id entry) 64)
      as [id ?] eqn:Eid.
    destruct (ParseFloat (locationEntry.Latitude entry)) as [lat ?] eqn:Elat.
    destruct (ParseFloat (locationEntry.Longitude entry)) as [lon ?] eqn:Elon.
    simpl in *. subst. eexists. split.
    + apply convertLocation_Some.
      exists periods, id, lat, lon, 0%float.
      rewrite Hempty. by repeat split.
    + done.
  - intros entry x err Hne%String.eqb_neq Hparse.
    destruct (convertLocation_valueOrError ParseFloat time_Parse pick
                paramDefinitions typeName startTime entry)
      as [[[site Hsite] Herr]|[Hnone [e He]]].
    + assert (convert entry = (Some site, None)) as Hconv
        by (by apply injective_projections).
      apply convertLocation_Some in Hconv
        as (? & ? & ? & ? & ? & _ & _ & _ & _ & Helev & _).
      rewrite Hne, Hparse in Helev. discriminate.
    + exists e. by apply injective_projections.
Qed.

End elevation.

(** C3, as stated, fails for [convertLocation]: an elevation of ["abc"], to
    which [strconv.ParseFloat] answers with a syntax error, fails the
    conversion of a location whose other fields all parse. *)
Lemma convertLocation_rejects_elevation :
  Sample.ParseFloat "abc" = (0%float, Some (strconv.syntaxError "ParseFloat" "abc")) /\
  (exists site, Sample.convert (Sample.location "310069" "" Sample.reps)
                = (Some site, None)) /\
  Sample.convert (Sample.location "310069" "abc" Sample.reps)
  = (None,
     Some (Errorf "failed to parse elevation: %w" []
             (Some (strconv.syntaxError "ParseFloat" "abc")))).
Proof.
  split; [reflexivity|]. split; [|vm_compute; reflexivity].
  eexists. vm_compute. reflexivity.
Qed.

(** A site whose elevation is ["abc"] is listed at elevation 0, with a
    warning; a site whose latitude does not parse is an error; the sample
    location without an elevation is at elevation 0, and with the elevation
    ["abc"] it fails. *)
Lemma elevation_defaulting_witness :
  (exists s logs,
     siteListEntry Sample.ParseFloat (Sample.site "abc") = (Next s, logs) /\
     (siteResponse.Elevation (Sample.site "abc") = "" ->
      Site.Elevation s = 0%float /\ logs = []) /\
     (forall x err,
        siteResponse.Elevation (Sample.site "abc") <> "" ->
        Sample.ParseFloat (siteResponse.Elevation (Sample.site "abc"))
        = (x, Some err) ->
        Site.Elevation s = 0%float /\
        logs = [slog_Warn "failed to parse elevation"
                  [("elevation",
                    logString (siteResponse.Elevation (Sample.site "abc")));
                   ("err", logError err)]])) /\
  (exists e,
     siteListEntry Sample.ParseFloat
       {| siteResponse.Elevation := "12.5";
          siteResponse.Id := "310069";
          siteResponse.Latitude := "north";
          siteResponse.Longitude := "-3.5";
          siteResponse.Name := "Exeter";
          siteResponse.Region := "sw";
          siteResponse.UnitaryAuthArea := "Devon" |} = (Return e, [])) /\
  (exists site,
     Sample.convert (Sample.location "310069" "" []) = (Some site, None) /\
     LocationRep.Elevation (SiteRep.Location site) = 0%float) /\
  (exists e,
     Sample.convert (Sample.location "310069" "abc" []) = (None, Some e)).
Proof.
  pose proof (elevation_defaulting Sample.ParseFloat Sample.time_Parse
                Sample.pick Sample.paramDefinitions "Forecast" Sample.nine)
    as (Hsite & Hsole & Hempty & Hbad).
  split; [|split; [|split]].
  - apply (Hsite (Sample.site "abc")). repeat split; reflexivity.
  - apply Hsole. intros [Hlat _]. discriminate.
  - apply (Hempty (Sample.location "310069" "" [])).
    + reflexivity.
    + repeat constructor.
    + reflexivity.
    + reflexivity.
    + reflexivity.
  - apply (Hbad (Sample.location "310069" "abc" []) 0%float
             (strconv.syntaxError "ParseFloat" "abc")).
    + discriminate.
    + reflexivity.
Defined.

(** ** Transport *)

Lemma string_app_nil (s : string) : "" +:+ s = s.
Proof. done. Qed.

Lemma string_app_cons c (s1 s2 : string) :
  String c s1 +:+ s2 = String c (s1 +:+ s2).
Proof. done. Qed.

Lemma string_app_nil_r (s : string) : s +:+ "" = s.
Proof.
  induction s as [|c s IH]; [done|]. by rewrite string_app_cons, IH.
Qed.

Lemma string_app_assoc (s1 s2 s3 : string) :
  (s1 +:+ s2) +:+ s3 = s1 +:+ (s2 +:+ s3).
Proof.
  induction s1 as [|c s1 IH]; [done|]. by rewrite !string_app_cons, IH.
Qed.

Lemma count_app c (s1 s2 : string) :
  count c (s1 +:+ s2) = (count c s1 + count c s2)%nat.
Proof.
  induction s1 as [|c' s1 IH]; [done|].
  rewrite string_app_cons. simpl. rewrite IH. lia.
Qed.

Lemma upperhex_plain (c : ascii) :
  url.shouldEscape (url.upperhex (N_of_ascii c / 16)) = false /\
  url.shouldEscape (url.upperhex (N_of_ascii c mod 16)) = false.
Proof. by destruct c as [[] [] [] [] [] [] [] []]. Qed.

(** An escaped string holds letters, digits, the four marks, [+] and [%],
    and nothing else. *)
Lemma QueryEscape_count s c :
  url.shouldEscape c = true -> c <> "+"%char -> c <> "%"%char ->
  count c (url.QueryEscape s) = 0%nat.
Proof.
  intros Hc Hplus Hpercent. induction s as [|c' s IH]; simpl; [done|].
  destruct (url.shouldEscape c') eqn:Hc'.
  - destruct (Ascii.eqb c' " "); simpl.
    + rewrite IH. by apply Ascii.eqb_neq in Hplus as ->.
    + rewrite IH. apply Ascii.eqb_neq in Hpercent as ->.
      destruct (upperhex_plain c') as [Hhi Hlo].
      destruct (Ascii.eqb_spec c (url.upperhex (N_of_ascii c' / 16)))
        as [->|_]; [congruence|].
      destruct (Ascii.eqb_spec c (url.upperhex (N_of_ascii c' mod 16)))
        as [->|_]; [congruence|]. done.
  - simpl. rewrite IH.
    destruct (Ascii.eqb_spec c c') as [->|_]; [congruence|done].
Qed.

Section transport.

Context {S : Type} `{!Supplier S string}.
Variable JoinPath : string -> string -> string * option error.
Variable pick : list (string * string) -> nat.

Lemma requestURL_fold kvs withKey :
  fold_left
    (fun withKey kv =>
       withKey +:+ "&" +:+ url.QueryEscape kv.1 +:+ "="
               +:+ url.QueryEscape kv.2)
    kvs withKey
  = withKey +:+ queryString kvs.
Proof.
  revert withKey. induction kvs as [|kv kvs IH]; intros withKey; simpl.
  - by rewrite string_app_nil_r.
  - rewrite IH. by rewrite !string_app_assoc.
Qed.

Lemma queryString_count kvs :
  count "&" (queryString kvs) = length kvs.
Proof.
  induction kvs as [|kv kvs IH]; simpl; [done|].
  rewrite !count_app, !QueryEscape_count, IH by done. done.
Qed.

(** C9.  [fetch] does not look at the status of the response: two
    clients whose answers differ at most in their status give the same
    body, the same target, the same error and the same log; and a
    response whose body can be read is handed over as bytes whatever its
    status code. *)
Theorem fetch_ignores_status (d1 d2 : DataPointClient S)
  description suffix params :
  apiKeySupplier d1 = apiKeySupplier d2 ->
  baseUrl d1 = baseUrl d2 ->
  (forall withKey,
     sameButStatus (httpClient d1 withKey) (httpClient d2 withKey)) ->
  fetch JoinPath pick d1 description suffix params
  = fetch JoinPath pick d2 description suffix params /\
  (forall target r,
     JoinPath (baseUrl d1) suffix = (target, None) ->
     httpClient d1 (requestURL pick target (Get (apiKeySupplier d1)) params)
     = inl r ->
     http.readErr (http.Body r) = None ->
     (fetch JoinPath pick d1 description suffix params).1
     = (http.data (http.Body r), target, None)).
Proof.
  intros Hkey Hbase Hsame. split.
  - unfold fetch. rewrite Hkey, Hbase.
    destruct (JoinPath _ _) as [target [err|]]; [done|].
    specialize (Hsame (requestURL pick target (Get (apiKeySupplier d2))
                         params)).
    destruct (httpClient d1 _) as [r1|e1], (httpClient d2 _) as [r2|e2];
      simpl in Hsame; try done.
    + destruct Hsame as [_ ->]. done.
    + by subst.
  - intros target r Htarget Hr Hread. unfold fetch.
    rewrite Htarget, Hr. unfold io.ReadAll. by rewrite Hread.
Qed.

(** C10.  The URL [fetch] requests is the target, [?key=] and the
    credential as the supplier gave it, followed for each entry of
    [queryParams], in the order the map is visited, by [&], the escaped
    key, [=] and the escaped value.  An escaped string holds no reserved
    character, so the number of [&] in the URL is the number of entries
    plus the number of [&] in the target and in the credential: a
    credential with a [&] adds a parameter. *)
Theorem fetch_key_verbatim :
  (forall target key,
     requestURL pick target key None = target +:+ "?key=" +:+ key) /\
  (forall target key params,
     exists kvs,
       kvs ≡ₚ map_to_list params /\
       requestURL pick target key (Some params)
       = target +:+ "?key=" +:+ key +:+ queryString kvs) /\
  (forall s c,
     url.shouldEscape c = true -> c <> "+"%char -> c <> "%"%char ->
     count c (url.QueryEscape s) = 0%nat) /\
  (forall target key params,
     count "&" (requestURL pick target key (Some params))
     = (count "&" target + count "&" key + size params)%nat) /\
  (forall (d : DataPointClient S) description suffix params target,
     JoinPath (baseUrl d) suffix = (target, None) ->
     httpClient d = refuse ->
     fetch JoinPath pick d description suffix params
     = (("", target,
         Some (Errorf "failed to query %v for %v: %w" [target; description]
                 (Some (foreignError "net/http"
                          (requestURL pick target (Get (apiKeySupplier d))
                             params))))), [])).
Proof.
  split; [done|]. split; [|split; [apply QueryEscape_count|split]].
  - intros target key params.
    exists (rangeOrder pick (map_to_list params)).
    split; [apply rangeOrder_Permutation|].
    unfold requestURL. rewrite requestURL_fold.
    by rewrite !string_app_assoc.
  - intros target key params. unfold requestURL.
    rewrite requestURL_fold, !count_app, queryString_count.
    rewrite rangeOrder_Permutation, length_map_to_list. simpl. lia.
  - intros d description suffix params target Htarget Hrefuse.
    unfold fetch. by rewrite Htarget, Hrefuse.
Qed.

End transport.

(** A response with status 404 and one with status 200, over the same
    body. *)
Lemma fetch_ignores_status_witness :
  fetch Sample.JoinPath Sample.pick
    (Sample.client "key" (Sample.respond 404 "404 Not Found" "{}"))
    "sitelist" "val/wxfcs/all/json/sitelist" None
  = fetch Sample.JoinPath Sample.pick
      (Sample.client "key" (Sample.respond 200 "200 OK" "{}"))
      "sitelist" "val/wxfcs/all/json/sitelist" None /\
  (forall target r,
     Sample.JoinPath
       (baseUrl (Sample.client "key" (Sample.respond 404 "404 Not Found" "{}")))
       "val/wxfcs/all/json/sitelist" = (target, None) ->
     httpClient (Sample.client "key" (Sample.respond 404 "404 Not Found" "{}"))
       (requestURL Sample.pick target
          (Get (apiKeySupplier
                  (Sample.client "key"
                     (Sample.respond 404 "404 Not Found" "{}")))) None)
     = inl r ->
     http.readErr (http.Body r) = None ->
     (fetch Sample.JoinPath Sample.pick
        (Sample.client "key" (Sample.respond 404 "404 Not Found" "{}"))
        "sitelist" "val/wxfcs/all/json/sitelist" None).1
     = (http.data (http.Body r), target, None)).
Proof.
  apply (fetch_ignores_status Sample.JoinPath Sample.pick
           (Sample.client "key" (Sample.respond 404 "404 Not Found" "{}"))
           (Sample.client "key" (Sample.respond 200 "200 OK" "{}"))).
  - reflexivity.
  - reflexivity.
  - intros withKey. simpl. split; reflexivity.
Defined.

Example fetch_hands_over_404 :
  fetch Sample.JoinPath Sample.pick
    (Sample.client "key" (Sample.respond 404 "404 Not Found" "{}"))
    "sitelist" "val/wxfcs/all/json/sitelist" None
  = (("{}",
      "http://datapoint.metoffice.gov.uk/public/data/val/wxfcs/all/json/sitelist",
      None), []).
Proof. reflexivity. Qed.

(** A credential that holds [&res=daily] puts a second [res] in the query,
    where the value of the parameter [res] has its space escaped; the
    refusing client reports the URL it was asked for. *)
Lemma fetch_key_verbatim_witness :
  requestURL Sample.pick "http://host/capabilities" "k&res=daily"
    (Some {[ "res" := "3 hourly" ]})
  = "http://host/capabilities?key=k&res=daily&res=3+hourly" /\
  count "&" (requestURL Sample.pick "http://host/capabilities" "k&res=daily"
               (Some {[ "res" := "3 hourly" ]}))
  = (count "&" "http://host/capabilities" + count "&" "k&res=daily"
     + size ({[ "res" := "3 hourly" ]} : gmap string string))%nat /\
  count "&" (url.QueryEscape "a&b=c d") = 0%nat /\
  fetch Sample.JoinPath Sample.pick (Sample.client "k&res=daily" refuse)
    "capabilities" "val/wxfcs/all/json/capabilities"
    (Some {[ "res" := "3 hourly" ]})
  = (("",
      "http://datapoint.metoffice.gov.uk/public/data/val/wxfcs/all/json/capabilities",
      Some (Errorf "failed to query %v for %v: %w"
              ["http://datapoint.metoffice.gov.uk/public/data/val/wxfcs/all/json/capabilities";
               "capabilities"]
              (Some (foreignError "net/http"
                       (requestURL Sample.pick
                          "http://datapoint.metoffice.gov.uk/public/data/val/wxfcs/all/json/capabilities"
                          (Get (apiKeySupplier
                                  (Sample.client "k&res=daily" refuse)))
                          (Some {[ "res" := "3 hourly" ]})))))), []).
Proof.
  pose proof (fetch_key_verbatim (S := stringSupplier) Sample.JoinPath
                Sample.pick) as (_ & _ & Hescape & Hcount & Hfetch).
  split; [vm_compute; reflexivity|]. split; [apply Hcount|].
  split; [by apply Hescape|].
  apply (Hfetch (Sample.client "k&res=daily" refuse)); reflexivity.
Defined.

Example fetch_requests_key_verbatim :
  requestURL Sample.pick
    "http://datapoint.metoffice.gov.uk/public/data/val/wxfcs/all/json/capabilities"
    "k&res=daily" (Some {[ "res" := "3 hourly" ]})
  = "http://datapoint.metoffice.gov.uk/public/data/val/wxfcs/all/json/capabilities?key=k&res=daily&res=3+hourly".
Proof. vm_compute. reflexivity. Qed.

(** ** The public calls *)

Lemma try_runs {A} (r : A * option error) wrap :
  r.2 = None <-> exists a, try r wrap = Next a.
Proof.
  destruct r as [a [err|]]; simpl; split; try done; [by intros [? ?]|by eauto].
Qed.

Lemma check_is_Some {A B} (r : A * option error) wrap
  (k : A -> option B * option error) :
  is_Some (check r wrap k).1 <-> r.2 = None /\ is_Some (k r.1).1.
Proof.
  destruct r as [a [err|]]; simpl.
  - split; [by intros [? ?]|by intros [? _]].
  - split; [done|by intros [_ ?]].
Qed.

Lemma valueOrError_error {A} e : valueOrError (A := A) (None, Some e).
Proof. right. by eauto. Qed.

Lemma valueOrError_value {A} (a : A) : valueOrError (Some a, None).
Proof. left. by eauto. Qed.

#[local] Hint Resolve valueOrError_error valueOrError_value : core.

(** What follows a successful [fetch] in every call: decode, then
    convert. *)
Lemma after_fetch {T B} `{!Unmarshaler T} body target err logs wrap
  (K : T -> option B * option error) (Q : T -> Prop) :
  (forall result, valueOrError (K result)) ->
  (forall result, is_Some (K result).1 <-> Q result) ->
  atomicCall ((body, target, err), logs)
    (match err with
     | Some err => (None, Some err)
     | None => check (Unmarshal body) wrap K
     end, logs) Q.
Proof.
  intros Hshape Hvalue. unfold atomicCall, decodes. simpl.
  destruct err as [err|].
  - split; [done|]. simpl. split; [by intros [? ?]|by intros (? & [? _] & _)].
  - split; [by apply check_valueOrError|].
    rewrite check_is_Some. destruct (Unmarshal body) as [result [e|]]; simpl.
    + split; [by intros [? _]|by intros (? & [_ ?] & _)].
    + rewrite Hvalue. split.
      * intros [_ HQ]. by exists result.
      * intros (? & [_ [= <-]] & HQ). done.
Qed.

Section calls.

Context {S : Type} `{!Supplier S string}.
Variable JoinPath : string -> string -> string * option error.
Variable ParseFloat : string -> float64 * option error.
Variable time_Parse : string -> string -> Time * option error.
Variable time_Format : Time -> string -> string.
Variable pick : list (string * string) -> nat.
Context {jsonSites : Unmarshaler siteResponse.t}
        {jsonCapabilities : Unmarshaler capabilitiesResponse.t}
        {jsonSiteRep : Unmarshaler siteRepResponse.t}
        {jsonSiteRepAll : Unmarshaler siteRepAllResponse.t}
        {jsonExtremeCapabilities : Unmarshaler extremeCapabilitiesResponse.t}
        {jsonLatestExtremes : Unmarshaler latestExtremesResponse.t}
        {jsonRegionalSites : Unmarshaler regionalForecastSiteListResponse.t}
        {jsonRegionalCapabilities :
           Unmarshaler regionalForecastCapabilitiesResponse.t}.

(** A location converts exactly when its fields parse. *)
Lemma convertLocation_runs paramDefinitions typeName startTime entry :
  is_Some (convertLocation ParseFloat time_Parse pick paramDefinitions
             typeName startTime entry).1 <->
  locationParses ParseFloat time_Parse paramDefinitions entry.
Proof.
  unfold convertLocation, locationParses.
  rewrite (each_runs _ _ _ (convertPeriod_runs time_Parse pick
                              paramDefinitions)).
  destruct (each _ _) as [periods|e].
  - rewrite !check_is_Some. simpl.
    destruct (String.eqb_spec (locationEntry.Elevation entry) "")
      as [->|Hne]; simpl.
    + split; [|by intros (_ & ? & ? & ? & _)].
      intros (? & ? & ? & _). repeat split; by eauto.
    + split.
      * intros (? & ? & ? & ? & _). repeat split; by eauto.
      * intros (_ & ? & ? & ? & [|]); done.
  - simpl. split; [by intros [? ?]|by intros [[? ?] _]].
Qed.

Lemma deref_runs paramDefinitions typeName startTime entry :
  locationParses ParseFloat time_Parse paramDefinitions entry <->
  exists site,
    deref (convertLocation ParseFloat time_Parse pick paramDefinitions
             typeName startTime entry) = Next site.
Proof.
  rewrite <- (convertLocation_runs _ typeName startTime).
  destruct (convertLocation_valueOrError ParseFloat time_Parse pick
              paramDefinitions typeName startTime entry)
    as [[[site Hsite] Herr]|[Hnone [e He]]];
    destruct (convertLocation _ _ _ _ _ _ _) as [r err];
    simpl in *; subst; simpl.
  - split; by eauto.
  - split; [by intros [? ?]|by intros [? ?]].
Qed.

(** The loop of [siteList] runs to its end exactly when every entry
    parses, elevations apart. *)
Lemma siteListLoop_runs l :
  Forall (siteParses ParseFloat) l <->
  exists entries, (siteListLoop ParseFloat l).1 = Next entries.
Proof.
  induction l as [|site l IH]; simpl.
  - split; [by eauto|constructor].
  - rewrite Forall_cons, IH.
    destruct (decide (siteParses ParseFloat site)) as [Hsite|Hsite].
    + pose proof Hsite as (s & -> & _)%siteListEntry_runs.
      destruct (siteListLoop ParseFloat l) as [[entries|e] logs']; simpl.
      * split; by eauto.
      * split; [by intros [_ [? ?]]|by intros [? ?]].
    + destruct (siteListEntry_fails _ _ Hsite) as [e ->]. simpl.
      split; [by intros [? _]|by intros [? ?]].
Qed.

Lemma siteList_atomic (d : DataPointClient S) id :
  atomicCall
    (fetch JoinPath pick d "sitelist" ("val/" +:+ id +:+ "/all/json/sitelist")
       None)
    (siteList JoinPath ParseFloat pick d id)
    (fun result : siteResponse.t =>
       Forall (siteParses ParseFloat)
         (siteResponse.Locations_Location result)).
Proof.
  unfold siteList, atomicCall, decodes.
  destruct (fetch _ _ _ _ _ _) as [[[body target] [err|]] logs]; simpl.
  { split; [done|]. split; [by intros [? ?]|by intros (? & [? _] & _)]. }
  destruct (Unmarshal body) as [result [e|]]; simpl.
  { split; [done|]. split; [by intros [? ?]|by intros (? & [_ ?] & _)]. }
  pose proof (siteListLoop_runs (siteResponse.Locations_Location result))
    as Hloop.
  destruct (siteListLoop _ _) as [[entries|e] logs']; simpl in *.
  - split; [done|]. split; [|by eauto].
    intros _. exists result. split; [done|]. apply Hloop. by eauto.
  - split; [done|]. split; [by intros [? ?]|].
    intros (? & [_ [= <-]] & [? ?]%Hloop). done.
Qed.

Lemma ForecastTimeStepCapabilities_atomic (d : DataPointClient S) resolution :
  atomicCall
    (fetch JoinPath pick d "capabilities" "val/wxfcs/all/json/capabilities"
       (Some {[ "res" := resolution ]}))
    (ForecastTimeStepCapabilities JoinPath time_Parse pick d resolution)
    (timeStepsParse time_Parse).
Proof.
  unfold ForecastTimeStepCapabilities.
  destruct (fetch _ _ _ _ _ _) as [[[body target] err] logs].
  apply after_fetch; intros ts.
  - apply check_valueOrError. intros dataDate.
    by destruct (each _ _).
  - rewrite check_is_Some. unfold timeStepsParse.
    rewrite (each_runs _ _ _ (fun t => try_runs (time_Parse time.RFC3339 t)
               (Errorf "failed to parse time step for capabilities: %w" []))).
    destruct (each _ _) as [times|e]; simpl.
    + split; intros [? _]; by eauto.
    + split; [by intros [_ [? ?]]|by intros [_ [? ?]]].
Qed.

(** [FiveDayForecast] has a third outcome, and only for an empty id. *)
Lemma FiveDayForecast_outcome (d : DataPointClient S) resolution locationID
  at_ :
  atomicOrNoData
    (fetch JoinPath pick d "locationId"
       ("val/wxfcs/all/json/" +:+ pretty locationID)
       (Some (forecastParams time_Format resolution at_)))
    (FiveDayForecast JoinPath ParseFloat time_Parse time_Format pick d
       resolution locationID at_)
    (fun result : siteRepResponse.t =>
       locationEntry.Id (dvEntry.Location (siteRepResponse.Dv result)) = "")
    (fun result : siteRepResponse.t =>
       (time_Parse time.RFC3339
          (dvEntry.DataDate (siteRepResponse.Dv result))).2 = None /\
       locationParses ParseFloat time_Parse
         (paramTable (wxResponse.Params (siteRepResponse.Wx result)))
         (dvEntry.Location (siteRepResponse.Dv result))).
Proof.
  unfold FiveDayForecast, atomicOrNoData, decodes.
  destruct (fetch _ _ _ _ _ _) as [[[body target] [err|]] logs]; simpl.
  { split; [by left|]. split.
    - split; [done|by intros (? & [? _] & _)].
    - split; [by intros [? ?]|by intros (? & [? _] & _)]. }
  destruct (Unmarshal body) as [result [e|]]; simpl.
  { split; [by left|]. split.
    - split; [done|by intros (? & [_ ?] & _)].
    - split; [by intros [? ?]|by intros (? & [_ ?] & _)]. }
  destruct (String.eqb_spec
              (locationEntry.Id (dvEntry.Location (siteRepResponse.Dv result)))
              "") as [Hid|Hid].
  { split; [by right|]. split.
    - split; [by eauto|done].
    - split; [by intros [? ?]|]. by intros (? & [_ [= <-]] & ? & _). }
  pose proof (convertLocation_valueOrError ParseFloat time_Parse pick
                (paramTable (wxResponse.Params (siteRepResponse.Wx result))))
    as Hshape.
  pose proof (convertLocation_runs
                (paramTable (wxResponse.Params (siteRepResponse.Wx result))))
    as Hruns.
  destruct (time_Parse _ _) as [startTime [e|]] eqn:Hstart; simpl.
  { split; [by left|]. split.
    - split; [done|by intros (? & [_ [= <-]] & ?)].
    - split; [by intros [? ?]|].
      intros (? & [_ [= <-]] & _ & Hparse & _).
      by rewrite Hstart in Hparse. }
  specialize (Hshape (dvEntry.Type_ (siteRepResponse.Dv result)) startTime
                (dvEntry.Location (siteRepResponse.Dv result))).
  specialize (Hruns (dvEntry.Type_ (siteRepResponse.Dv result)) startTime
                (dvEntry.Location (siteRepResponse.Dv result))).
  destruct (convertLocation _ _ _ _ _ _ _) as [r err]. simpl in *.
  split; [by left|]. split.
  - split; [|by intros (? & [_ [= <-]] & ?)].
    intros [= -> ->]. by destruct Hshape as [[[? ?] _]|[_ [? ?]]].
  - rewrite Hruns. split.
    + intros Hloc. exists result. by rewrite Hstart.
    + by intros (? & [_ [= <-]] & _ & _ & ?).
Qed.

Lemma FiveDayForecastForAllLocations_atomic (d : DataPointClient S)
  resolution at_ :
  atomicCall
    (fetch JoinPath pick d "locationId" "val/wxfcs/all/json/all"
       (Some (forecastParams time_Format resolution at_)))
    (FiveDayForecastForAllLocations JoinPath ParseFloat time_Parse
       time_Format pick d resolution at_)
    (fun result : siteRepAllResponse.t =>
       (time_Parse time.RFC3339
          (dvMultipleEntry.DataDate (siteRepAllResponse.Dv result))).2
       = None /\
       Forall (locationParses ParseFloat time_Parse
                 (paramTable
                    (wxResponse.Params (siteRepAllResponse.Wx result))))
         (dvMultipleEntry.Location (siteRepAllResponse.Dv result))).
Proof.
  unfold FiveDayForecastForAllLocations.
  destruct (fetch _ _ _ _ _ _) as [[[body target] err] logs].
  apply after_fetch; intros result.
  - apply check_valueOrError. intros startTime. by destruct (each _ _).
  - rewrite check_is_Some.
    destruct (time_Parse _ _) as [startTime e]. simpl.
    rewrite (each_runs _ _ _
               (deref_runs _ (dvMultipleEntry.Type_
                                (siteRepAllResponse.Dv result)) startTime)).
    destruct (each _ _) as [reps|e']; simpl.
    + split; intros [? _]; by eauto.
    + split; [by intros [_ [? ?]]|by intros [_ [? ?]]].
Qed.

Lemma UkExtremesCapabilities_atomic (d : DataPointClient S) :
  atomicCall
    (fetch JoinPath pick d "sitelist"
       "txt/wxobs/ukextremes/json/capabilities" None)
    (UkExtremesCapabilities JoinPath time_Parse pick d)
    (extremeCapabilitiesParse time_Parse).
Proof.
  unfold UkExtremesCapabilities.
  destruct (fetch _ _ _ _ _ _) as [[[body target] err] logs].
  apply after_fetch; intros result.
  - by repeat (apply check_valueOrError; intros ?).
  - rewrite !check_is_Some. unfold extremeCapabilitiesParse. simpl.
    split; [by intros (? & ? & _)|by intros [? ?]; eauto].
Qed.

Lemma convertExtreme_runs extreme :
  extremeParses ParseFloat extreme <->
  exists x, convertExtreme ParseFloat extreme = Next x.
Proof.
  unfold extremeParses, convertExtreme.
  destruct (strconv.ParseInt _ _) as [id [e|]]; simpl.
  { split; [by intros [? _]|by intros [? ?]]. }
  destruct (ParseFloat _) as [value [e|]]; simpl.
  { split; [by intros [_ ?]|by intros [? ?]]. }
  split; by eauto.
Qed.

Lemma convertRegion_runs region :
  Forall (extremeParses ParseFloat)
    (latestExtremesResponse.Extremes_Extreme region) <->
  exists x, convertRegion ParseFloat region = Next x.
Proof.
  unfold convertRegion. rewrite (each_runs _ _ _ convertExtreme_runs).
  destruct (each _ _) as [extremes|e]; simpl.
  - split; by eauto.
  - split; [by intros [? ?]|by intros [? ?]].
Qed.

Lemma UkExtremesLatest_atomic (d : DataPointClient S) :
  atomicCall
    (fetch JoinPath pick d "ukextremeslatest"
       "txt/wxobs/ukextremes/json/latest" None)
    (UkExtremesLatest JoinPath ParseFloat time_Parse pick d)
    (latestExtremesParse ParseFloat time_Parse).
Proof.
  unfold UkExtremesLatest.
  destruct (fetch _ _ _ _ _ _) as [[[body target] err] logs].
  apply after_fetch; intros result.
  - destruct (each _ _); [|done].
    by repeat (apply check_valueOrError; intros ?).
  - unfold latestExtremesParse.
    rewrite (each_runs _ _ _ convertRegion_runs).
    destruct (each _ _) as [regions|e]; simpl.
    + rewrite !check_is_Some. simpl.
      split; [by intros (? & ? & _); eauto|by intros (_ & ? & ?); eauto].
    + split; [by intros [? ?]|by intros [[? ?] _]].
Qed.

Lemma RegionalForecastSiteList_atomic (d : DataPointClient S) :
  atomicCall
    (fetch JoinPath pick d "regional forecast site list"
       "txt/wxfcs/regionalforecast/json/sitelist" None)
    (RegionalForecastSiteList JoinPath pick d)
    (fun result : regionalForecastSiteListResponse.t =>
       Forall (fun s =>
                 (strconv.ParseInt (regionalForecastSiteListResponse.Id s)
                    64).2 = None)
         (regionalForecastSiteListResponse.Locations_Location result)).
Proof.
  unfold RegionalForecastSiteList.
  destruct (fetch _ _ _ _ _ _) as [[[body target] err] logs].
  apply after_fetch; intros result.
  - by destruct (each _ _).
  - rewrite (each_runs
               (fun s =>
                  id ← try
                    (strconv.ParseInt (regionalForecastSiteListResponse.Id s)
                       64)
                    (Errorf "could not parse location id: %w" []);
                  Next {| RegionalForecastSite.Id := id;
                          RegionalForecastSite.Name :=
                            regionalForecastSiteListResponse.Name s |})
               (fun s =>
                  (strconv.ParseInt (regionalForecastSiteListResponse.Id s)
                     64).2 = None)).
    + destruct (each _ _) as [locations|e]; simpl.
      * split; by eauto.
      * split; [by intros [? ?]|by intros [? ?]].
    + intros s. destruct (strconv.ParseInt _ _) as [id [e|]]; simpl.
      * split; [done|by intros [? ?]].
      * split; by eauto.
Qed.

(** The condition of [RegionalForecastCapabilities] is the call it makes:
    the stamp of the response as layout, the layout as value. *)
Lemma RegionalForecastCapabilities_atomic (d : DataPointClient S) :
  atomicCall
    (fetch JoinPath pick d "regional forecast capabilities"
       "txt/wxfcs/regionalforecast/json/capabilities" None)
    (RegionalForecastCapabilities JoinPath time_Parse pick d)
    (fun result : regionalForecastCapabilitiesResponse.t =>
       (time_Parse (regionalForecastCapabilitiesResponse.IssuedAt result)
          time.RFC3339).2 = None).
Proof.
  unfold RegionalForecastCapabilities.
  destruct (fetch _ _ _ _ _ _) as [[[body target] err] logs].
  apply after_fetch; intros result.
  - by repeat (apply check_valueOrError; intros ?).
  - rewrite !check_is_Some. simpl. split; [by intros [? _]|by eauto].
Qed.

(** C7.  When the response to a single-location forecast request arrives
    and decodes, and the id of its location is the empty string,
    [FiveDayForecast] returns neither a value nor an error: an outcome
    that is neither of the other two. *)
Theorem FiveDayForecast_no_data (d : DataPointClient S) resolution
  locationID at_ body target logs (result : siteRepResponse.t) :
  fetch JoinPath pick d "locationId"
    ("val/wxfcs/all/json/" +:+ pretty locationID)
    (Some (forecastParams time_Format resolution at_))
  = ((body, target, None), logs) ->
  Unmarshal body = (result, None) ->
  locationEntry.Id (dvEntry.Location (siteRepResponse.Dv result)) = "" ->
  FiveDayForecast JoinPath ParseFloat time_Parse time_Format pick d
    resolution locationID at_ = ((None, None), logs) /\
  ~ valueOrError
      (FiveDayForecast JoinPath ParseFloat time_Parse time_Format pick d
         resolution locationID at_).1.
Proof.
  intros Hfetch Hdecode Hid.
  assert (FiveDayForecast JoinPath ParseFloat time_Parse time_Format pick d
            resolution locationID at_ = ((None, None), logs)) as ->.
  { unfold FiveDayForecast. rewrite Hfetch, Hdecode. simpl.
    by rewrite Hid. }
  split; [done|]. by intros [[[? ?] _]|[_ [? ?]]].
Qed.

(** C8, as the code has it.  Every public call returns a value and no
    error, or an error and no value; the single-location forecast alone
    may return neither, and does so exactly when the decoded location has
    an empty id.  A call returns a value exactly when its response
    arrives, decodes, and every field the converter parses does parse:
    in the site lists every field but the elevation, which is never the
    cause of a failure. *)
Theorem public_calls_atomic (d : DataPointClient S) :
  atomicCall
    (fetch JoinPath pick d "sitelist" "val/wxfcs/all/json/sitelist" None)
    (ForecastSiteList JoinPath ParseFloat pick d)
    (fun result : siteResponse.t =>
       Forall (siteParses ParseFloat)
         (siteResponse.Locations_Location result)) /\
  atomicCall
    (fetch JoinPath pick d "sitelist" "val/wxobs/all/json/sitelist" None)
    (ObservationSiteList JoinPath ParseFloat pick d)
    (fun result : siteResponse.t =>
       Forall (siteParses ParseFloat)
         (siteResponse.Locations_Location result)) /\
  (forall resolution,
     atomicCall
       (fetch JoinPath pick d "capabilities"
          "val/wxfcs/all/json/capabilities"
          (Some {[ "res" := resolution ]}))
       (ForecastTimeStepCapabilities JoinPath time_Parse pick d resolution)
       (timeStepsParse time_Parse)) /\
  (forall resolution locationID at_,
     atomicOrNoData
       (fetch JoinPath pick d "locationId"
          ("val/wxfcs/all/json/" +:+ pretty locationID)
          (Some (forecastParams time_Format resolution at_)))
       (FiveDayForecast JoinPath ParseFloat time_Parse time_Format pick d
          resolution locationID at_)
       (fun result : siteRepResponse.t =>
          locationEntry.Id (dvEntry.Location (siteRepResponse.Dv result))
          = "")
       (fun result : siteRepResponse.t =>
          (time_Parse time.RFC3339
             (dvEntry.DataDate (siteRepResponse.Dv result))).2 = None /\
          locationParses ParseFloat time_Parse
            (paramTable (wxResponse.Params (siteRepResponse.Wx result)))
            (dvEntry.Location (siteRepResponse.Dv result)))) /\
  (forall resolution at_,
     atomicCall
       (fetch JoinPath pick d "locationId" "val/wxfcs/all/json/all"
          (Some (forecastParams time_Format resolution at_)))
       (FiveDayForecastForAllLocations JoinPath ParseFloat time_Parse
          time_Format pick d resolution at_)
       (fun result : siteRepAllResponse.t =>
          (time_Parse time.RFC3339
             (dvMultipleEntry.DataDate (siteRepAllResponse.Dv result))).2
          = None /\
          Forall (locationParses ParseFloat time_Parse
                    (paramTable
                       (wxResponse.Params (siteRepAllResponse.Wx result))))
            (dvMultipleEntry.Location (siteRepAllResponse.Dv result)))) /\
  atomicCall
    (fetch JoinPath pick d "sitelist"
       "txt/wxobs/ukextremes/json/capabilities" None)
    (UkExtremesCapabilities JoinPath time_Parse pick d)
    (extremeCapabilitiesParse time_Parse) /\
  atomicCall
    (fetch JoinPath pick d "ukextremeslatest"
       "txt/wxobs/ukextremes/json/latest" None)
    (UkExtremesLatest JoinPath ParseFloat time_Parse pick d)
    (latestExtremesParse ParseFloat time_Parse) /\
  atomicCall
    (fetch JoinPath pick d "regional forecast site list"
       "txt/wxfcs/regionalforecast/json/sitelist" None)
    (RegionalForecastSiteList JoinPath pick d)
    (fun result : regionalForecastSiteListResponse.t =>
       Forall (fun s =>
                 (strconv.ParseInt (regionalForecastSiteListResponse.Id s)
                    64).2 = None)
         (regionalForecastSiteListResponse.Locations_Location result)) /\
  atomicCall
    (fetch JoinPath pick d "regional forecast capabilities"
       "txt/wxfcs/regionalforecast/json/capabilities" None)
    (RegionalForecastCapabilities JoinPath time_Parse pick d)
    (fun result : regionalForecastCapabilitiesResponse.t =>
       (time_Parse (regionalForecastCapabilitiesResponse.IssuedAt result)
          time.RFC3339).2 = None).
Proof.
  split; [apply (siteList_atomic d "wxfcs")|].
  split; [apply (siteList_atomic d "wxobs")|].
  split; [apply ForecastTimeStepCapabilities_atomic|].
  split; [apply FiveDayForecast_outcome|].
  split; [apply FiveDayForecastForAllLocations_atomic|].
  split; [apply UkExtremesCapabilities_atomic|].
  split; [apply UkExtremesLatest_atomic|].
  split; [apply RegionalForecastSiteList_atomic|].
  apply RegionalForecastCapabilities_atomic.
Qed.

(** Where the stamp is the value, as in [UkExtremesCapabilities], a stamp
    that does not parse is an error that shows the stamp. *)
Lemma UkExtremesCapabilities_embeds_stamp (d : DataPointClient S)
  body target logs (result : extremeCapabilitiesResponse.t) t x err :
  fetch JoinPath pick d "sitelist" "txt/wxobs/ukextremes/json/capabilities"
    None = ((body, target, None), logs) ->
  Unmarshal body = (result, None) ->
  time_Parse time.DateOnly (extremeCapabilitiesResponse.ExtremeDate result)
  = (t, None) ->
  time_Parse time.RFC3339 (extremeCapabilitiesResponse.IssuedAt result)
  = (x, Some err) ->
  exists e,
    UkExtremesCapabilities JoinPath time_Parse pick d
    = ((None, Some e), logs) /\
    mentions (extremeCapabilitiesResponse.IssuedAt result) e.
Proof.
  intros Hfetch Hdecode Hdate Hstamp. unfold UkExtremesCapabilities.
  rewrite Hfetch, Hdecode. simpl. rewrite Hdate. simpl.
  rewrite Hstamp. simpl. eexists. split; [done|]. simpl. by eauto.
Qed.

(** What [time.Parse] makes of a stamp as a value plays no part in
    [RegionalForecastCapabilities]: two parsers that agree whenever the
    value is the RFC 3339 layout give the same outcome. *)
Lemma RegionalForecastCapabilities_stamp_is_layout (d : DataPointClient S)
  (parse1 parse2 : string -> string -> Time * option error) :
  (forall layout, parse1 layout time.RFC3339 = parse2 layout time.RFC3339) ->
  RegionalForecastCapabilities JoinPath parse1 pick d
  = RegionalForecastCapabilities JoinPath parse2 pick d.
Proof.
  intros Hagree. unfold RegionalForecastCapabilities.
  destruct (fetch _ _ _ _ _ _) as [[[body target] [err|]] logs]; [done|].
  destruct (Unmarshal body) as [result [e|]]; [done|]. simpl.
  by rewrite Hagree.
Qed.

End calls.

(** A request answered with status 404 and a body that decodes to a
    location without an id. *)
Lemma FiveDayForecast_no_data_witness :
  FiveDayForecast (jsonSiteRep := Sample.decodeAs Sample.noData)
    Sample.JoinPath Sample.ParseFloat Sample.time_Parse Sample.time_Format
    Sample.pick
    (Sample.client "key" (Sample.respond 404 "404 Not Found" "{}"))
    ResolutionDaily 310069 None
  = ((None, None), []) /\
  ~ valueOrError
      (FiveDayForecast (jsonSiteRep := Sample.decodeAs Sample.noData)
         Sample.JoinPath Sample.ParseFloat Sample.time_Parse Sample.time_Format
         Sample.pick
         (Sample.client "key" (Sample.respond 404 "404 Not Found" "{}"))
         ResolutionDaily 310069 None).1.
Proof.
  apply (FiveDayForecast_no_data (jsonSiteRep := Sample.decodeAs Sample.noData)
           Sample.JoinPath Sample.ParseFloat Sample.time_Parse
           Sample.time_Format Sample.pick
           (Sample.client "key" (Sample.respond 404 "404 Not Found" "{}"))
           ResolutionDaily 310069 None "{}"
           "http://datapoint.metoffice.gov.uk/public/data/val/wxfcs/all/json/310069"
           [] Sample.noData).
  - vm_compute; reflexivity.
  - reflexivity.
  - reflexivity.
Defined.

(** C8, as stated, fails: the elevation ["abc"] of a site does not parse,
    and the site list is returned all the same, with the elevation at 0 and
    a warning in the log. *)
Lemma ForecastSiteList_keeps_bad_elevation :
  Sample.ParseFloat (siteResponse.Elevation (Sample.site "abc"))
  = (0%float, Some (strconv.syntaxError "ParseFloat" "abc")) /\
  ForecastSiteList
    (jsonSites := Sample.decodeAs
                    {| siteResponse.Locations_Location := [Sample.site "abc"] |})
    Sample.JoinPath Sample.ParseFloat Sample.pick
    (Sample.client "key" (Sample.respond 200 "200 OK" "{}"))
  = ((Some [ {| Site.Id := 310069;
                Site.Latitude := 50.75%float;
                Site.Longitude := (-3.5)%float;
                Site.Name := "Exeter";
                Site.Elevation := 0%float;
                Site.Region := "sw";
                Site.UnitaryAuthArea := "Devon" |} ], None),
     [slog_Warn "failed to parse elevation"
        [("elevation", logString "abc");
         ("err", logError (strconv.syntaxError "ParseFloat" "abc"))]]).
Proof. split; vm_compute; reflexivity. Qed.

(** The capabilities of the extremes feed arrive, decode and parse: the
    call returns a value. *)
Lemma public_calls_atomic_witness :
  is_Some
    (UkExtremesCapabilities
       (jsonExtremeCapabilities := Sample.decodeAs Sample.extremeCapabilities)
       Sample.JoinPath Sample.time_Parse Sample.pick
       (Sample.client "key" (Sample.respond 200 "200 OK" "{}"))).1.1.
Proof.
  apply (proj1 (proj2 (proj2 (proj2 (proj2 (proj2
           (public_calls_atomic
              (jsonSites := Sample.decodeAs
                              {| siteResponse.Locations_Location := [] |})
              (jsonCapabilities := Sample.decodeAs
                 {| capabilitiesResponse.DataDate := "";
                    capabilitiesResponse.Resolution_ := "";
                    capabilitiesResponse.Type_ := "";
                    capabilitiesResponse.TimeSteps_TS := [] |})
              (jsonSiteRep := Sample.decodeAs Sample.noData)
              (jsonSiteRepAll := Sample.decodeAs
                 {| siteRepAllResponse.Wx := {| wxResponse.Params := [] |};
                    siteRepAllResponse.Dv :=
                      {| dvMultipleEntry.DataDate := "";
                         dvMultipleEntry.Type_ := "";
                         dvMultipleEntry.Location := [] |} |})
              (jsonExtremeCapabilities :=
                 Sample.decodeAs Sample.extremeCapabilities)
              (jsonLatestExtremes := Sample.decodeAs
                 {| latestExtremesResponse.ExtremeDate := "";
                    latestExtremesResponse.IssuedAt := "";
                    latestExtremesResponse.Regions_Region := [] |})
              (jsonRegionalSites := Sample.decodeAs
                 {| regionalForecastSiteListResponse.Locations_Location := [] |})
              (jsonRegionalCapabilities :=
                 Sample.decodeAs Sample.regionalCapabilities)
              Sample.JoinPath Sample.ParseFloat Sample.time_Parse
              Sample.time_Format Sample.pick
              (Sample.client "key" (Sample.respond 200 "200 OK" "{}"))))))))).
  exists Sample.extremeCapabilities. repeat split; reflexivity.
Defined.

(** C4 at its failing input.  The stamp ["2023-06-01T09:00:00Z"] is what
    the format asks for: [UkExtremesCapabilities], which passes it as the
    value, accepts it.  [RegionalForecastCapabilities] passes it as the
    layout and the layout as the value, and returns the error of that
    parse. *)
Theorem RegionalForecastCapabilities_rejects_stamp :
  UkExtremesCapabilities
    (jsonExtremeCapabilities := Sample.decodeAs Sample.extremeCapabilities)
    Sample.JoinPath Sample.time_Parse Sample.pick
    (Sample.client "key" (Sample.respond 200 "200 OK" "{}"))
  = ((Some {| ExtremeCapabilities.ExtremeDate := Sample.midnight;
              ExtremeCapabilities.IssuedAt := Sample.nine |}, None), []) /\
  RegionalForecastCapabilities
    (jsonRegionalCapabilities := Sample.decodeAs Sample.regionalCapabilities)
    Sample.JoinPath Sample.time_Parse Sample.pick
    (Sample.client "key" (Sample.respond 200 "200 OK" "{}"))
  = ((None,
      Some (Errorf "failed to parse issued at time: %w" []
              (Some (ParseError Sample.stamp time.RFC3339 "3"
                       "-01-02T15:04:05Z07:00" "")))), []).
Proof. split; vm_compute; reflexivity. Qed.

(** * Further properties *)

(** ** contants.go: the UV index *)

(** X1.  The five exposure categories of a UV index are disjoint and cover
    every index from 1 upwards: an index of 1 or more is in exactly one of
    them, an index below 1 in none. *)
Theorem UvIndex_one_category (i : UvIndex) :
  (Z.b2z (IsLowExposure i) + Z.b2z (IsModerateExposure i)
   + Z.b2z (IsHighExposure i) + Z.b2z (IsVeryHighExposure i)
   + Z.b2z (IsExtremeExposure i))
  = (if 1 <=? i then 1 else 0).
Proof.
  unfold IsLowExposure, IsModerateExposure, IsHighExposure,
    IsVeryHighExposure, IsExtremeExposure.
  repeat match goal with
         | |- context [?a <=? ?b] => destruct (Z.leb_spec a b)
         end; simpl; lia.
Qed.

(** ** Construction of a client *)

Section construction_properties.

Context {S : Type}.
Variable defaultClient : http.Client.

Lemma last_omap_snoc {A B} (f : A -> option B) l x :
  last (omap f (l ++ [x]))
  = match f x with Some y => Some y | None => last (omap f l) end.
Proof.
  rewrite omap_app. simpl. destruct (f x) as [y|]; simpl.
  - by rewrite last_snoc.
  - by rewrite app_nil_r.
Qed.

(** The options applied in turn: each setting is that of the last option
    that sets it. *)
Lemma applyOpt_fold (opt : list (Opt.t S)) client :
  fold_left (fun client o => applyOpt o client) opt client
  = {| apiKeySupplier :=
         match last (omap optSupplier opt) with
         | Some supplier => Some supplier
         | None => apiKeySupplier client
         end;
       baseUrl := default (baseUrl client) (last (omap optBaseUri opt));
       httpClient :=
         default (httpClient client) (last (omap optHttpClient opt)) |}.
Proof.
  induction opt as [|o opt IH] using rev_ind; [by destruct client|].
  rewrite fold_left_app. simpl. rewrite IH, !last_omap_snoc.
  by destruct o.
Qed.

(** X2.  [NewClient] fails, with the error "no api key provided", exactly
    when none of its options is [WithApiKey] or [WithApiSupplier]; with
    one, it returns a client and no error. *)
Theorem NewClient_needs_credential (opt : list (Opt.t S)) :
  (Forall (fun o => optSupplier o = None) opt <->
   NewClient defaultClient opt
   = (None, Some (errorString "no api key provided"))) /\
  (Exists (fun o => is_Some (optSupplier o)) opt <->
   exists client, NewClient defaultClient opt = (Some client, None)).
Proof.
  unfold NewClient. rewrite applyOpt_fold. simpl.
  assert (last (omap optSupplier opt) = None <->
          Forall (fun o => optSupplier o = None) opt) as Hnone.
  { rewrite last_None. split.
    - intros Hnil. apply Forall_forall. intros o Ho.
      destruct (optSupplier o) as [s|] eqn:Hs; [|done].
      assert (s ∈ omap optSupplier opt) as Hin
        by (apply list_elem_of_omap; eauto).
      rewrite Hnil in Hin. by apply elem_of_nil in Hin.
    - intros Hall. induction Hall as [|o opt Ho _ IH]; [done|].
      simpl. by rewrite Ho. }
  destruct (last (omap optSupplier opt)) as [supplier|] eqn:Hlast.
  - split.
    + split; [|done]. intros Hall%Hnone. done.
    + split; [by eauto|]. intros _.
      apply last_Some_elem_of, list_elem_of_omap in Hlast as (o & Ho & Hs).
      apply Exists_exists. exists o. split; [done|]. by eauto.
  - split.
    + split; [done|]. intros _. by apply Hnone.
    + split; [|by intros [? ?]].
      intros Hex. apply Exists_exists in Hex as (o & Ho & [s Hs]).
      assert (Forall (fun o => optSupplier o = None) opt) as Hall
        by (by apply Hnone).
      rewrite Forall_forall in Hall. rewrite Hall in Hs; done.
Qed.

(** X3.  In the client [NewClient] returns, each setting is that of the
    last option that sets it: the supplier of the last [WithApiKey] or
    [WithApiSupplier], the base of the last [WithBaseURI] or else the
    address of the service, the transport of the last [WithHttpClient] or
    else the client of the standard library. *)
Theorem NewClient_last_option (opt : list (Opt.t S)) client :
  NewClient defaultClient opt = (Some client, None) ->
  last (omap optSupplier opt) = Some (apiKeySupplier client) /\
  baseUrl client
  = default "http://datapoint.metoffice.gov.uk/public/data/"
      (last (omap optBaseUri opt)) /\
  httpClient client = default defaultClient (last (omap optHttpClient opt)).
Proof.
  unfold NewClient. rewrite applyOpt_fold. simpl.
  destruct (last (omap optSupplier opt)) as [supplier|]; [|discriminate].
  by intros [= <-].
Qed.

End construction_properties.

(** A key, then a supplier, then a base and a second base. *)
Lemma NewClient_last_option_witness :
  last (omap optSupplier
          [WithApiKey "first"; WithBaseURI "http://a/";
           WithApiSupplier {| value := "second" |}; WithBaseURI "http://b/"])
  = Some (supplied {| value := "second" |}) /\
  "http://b/"
  = default "http://datapoint.metoffice.gov.uk/public/data/"
      (last (omap (optBaseUri (S := stringSupplier))
               [WithApiKey "first"; WithBaseURI "http://a/";
                WithApiSupplier {| value := "second" |};
                WithBaseURI "http://b/"])) /\
  refuse
  = default refuse
      (last (omap (optHttpClient (S := stringSupplier))
               [WithApiKey "first"; WithBaseURI "http://a/";
                WithApiSupplier {| value := "second" |};
                WithBaseURI "http://b/"])).
Proof.
  apply (NewClient_last_option refuse
           [WithApiKey "first"; WithBaseURI "http://a/";
            WithApiSupplier {| value := "second" |}; WithBaseURI "http://b/"]
           {| apiKeySupplier := supplied {| value := "second" |};
              baseUrl := "http://b/";
              httpClient := refuse |}).
  reflexivity.
Defined.

(** ** Transport: errors, the body, the URL of a forecast request *)

Section transport_properties.

Context {S : Type} `{!Supplier S string}.
Variable JoinPath : string -> string -> string * option error.
Variable pick : list (string * string) -> nat.

(** X4.  An error of [fetch] comes with an empty body and shows the
    description of the request; it shows the target as well, unless the
    target could not be built, in which case the target returned is
    ["???"] and nothing was requested or logged. *)
Theorem fetch_error_context (d : DataPointClient S) description suffix params
  body target e logs :
  fetch JoinPath pick d description suffix params
  = ((body, target, Some e), logs) ->
  body = "" /\ mentions description e /\
  ((target = "???" /\ logs = [] /\ (JoinPath (baseUrl d) suffix).2 <> None) \/
   (JoinPath (baseUrl d) suffix = (target, None) /\ mentions target e)).
Proof.
  unfold fetch. destruct (JoinPath _ _) as [target' [err|]].
  { intros [= <- <- <- <-]. simpl. repeat split; [by eauto|]. left. done. }
  destruct (httpClient d _) as [r|err].
  - destruct (io.ReadAll _) as [data [err|]]; [|discriminate].
    intros [= <- <- <- <-]. simpl. repeat split; [by eauto|].
    right. by eauto.
  - intros [= <- <- <- <-]. simpl. repeat split; [by eauto|].
    right. by eauto.
Qed.

(** X5.  Once a response has arrived its body is closed whether or not it
    could be read: the log holds one warning when closing fails and is
    empty otherwise, and [fetch] returns an error exactly when reading
    fails, so that a failure to close never becomes an error. *)
Theorem fetch_closes_body (d : DataPointClient S) description suffix params
  target r :
  JoinPath (baseUrl d) suffix = (target, None) ->
  httpClient d (requestURL pick target (Get (apiKeySupplier d)) params)
  = inl r ->
  (fetch JoinPath pick d description suffix params).2
  = match http.closeErr (http.Body r) with
    | Some err =>
        [slog_Warn "failed to close body from query"
           [("err", logError err); ("desc", logString description)]]
    | None => []
    end /\
  (is_Some (fetch JoinPath pick d description suffix params).1.2 <->
   is_Some (http.readErr (http.Body r))) /\
  (http.readErr (http.Body r) = None ->
   (fetch JoinPath pick d description suffix params).1
   = (http.data (http.Body r), target, None)).
Proof.
  intros Htarget Hr. unfold fetch. rewrite Htarget, Hr.
  unfold io.ReadAll, closeBody.
  destruct (http.readErr (http.Body r)) as [err|]; simpl.
  - repeat split; by eauto.
  - repeat split; try done; by intros [? ?].
Qed.

Lemma rangeOrder_singleton {A} (pick' : list A -> nat) (x : A) :
  rangeOrder pick' [x] = [x].
Proof.
  apply Permutation_singleton_r, rangeOrder_Permutation.
Qed.

Lemma rangeOrder_pair {A} (pick' : list A -> nat) (x y : A) :
  rangeOrder pick' [x; y] = [x; y] \/ rangeOrder pick' [x; y] = [y; x].
Proof.
  apply Permutation_length_2_inv. symmetry. apply rangeOrder_Permutation.
Qed.

(** X6.  The URL of a forecast request.  Without a time it is the target,
    the key and the resolution, whatever the order in which maps are
    visited; with a time, the resolution and the time follow the key in
    either order.  An empty map of parameters adds nothing. *)
Theorem forecast_request_url (time_Format : Time -> string -> string)
  target key resolution :
  requestURL pick target key (Some ∅) = requestURL pick target key None /\
  requestURL pick target key (Some (forecastParams time_Format resolution None))
  = target +:+ "?key=" +:+ key +:+ "&res=" +:+ url.QueryEscape resolution /\
  (forall t,
     requestURL pick target key
       (Some (forecastParams time_Format resolution (Some t)))
     = target +:+ "?key=" +:+ key
       +:+ "&res=" +:+ url.QueryEscape resolution
       +:+ "&time=" +:+ url.QueryEscape (time_Format t time.RFC3339) \/
     requestURL pick target key
       (Some (forecastParams time_Format resolution (Some t)))
     = target +:+ "?key=" +:+ key
       +:+ "&time=" +:+ url.QueryEscape (time_Format t time.RFC3339)
       +:+ "&res=" +:+ url.QueryEscape resolution).
Proof.
  split; [|split].
  - unfold requestURL. by rewrite map_to_list_empty.
  - unfold requestURL, forecastParams.
    rewrite map_to_list_singleton, rangeOrder_singleton. simpl.
    by rewrite !string_app_assoc.
  - intros t. unfold requestURL, forecastParams.
    assert (map_to_list (<["time" := time_Format t time.RFC3339]>
                           ({["res" := resolution]} : gmap string string))
            ≡ₚ [("time", time_Format t time.RFC3339); ("res", resolution)])
      as Hperm.
    { rewrite map_to_list_insert by done. by rewrite map_to_list_singleton. }
    pose proof (rangeOrder_Permutation pick
                  (map_to_list (<["time" := time_Format t time.RFC3339]>
                     ({["res" := resolution]} : gmap string string))))
      as Horder.
    pose proof (Permutation_sym (Permutation_trans Horder Hperm)) as Hpair.
    apply Permutation_length_2_inv in Hpair as [-> | ->]; simpl.
    + right. by rewrite !string_app_assoc.
    + left. by rewrite !string_app_assoc.
Qed.

End transport_properties.

(** A client that is refused: the error shows the description and the
    target. *)
Lemma fetch_error_context_witness :
  "" = "" /\ mentions "sitelist"
    (Errorf "failed to query %v for %v: %w"
       ["http://datapoint.metoffice.gov.uk/public/data/val/wxfcs/all/json/sitelist";
        "sitelist"]
       (Some (foreignError "net/http"
                "http://datapoint.metoffice.gov.uk/public/data/val/wxfcs/all/json/sitelist?key=key"))) /\
  (("http://datapoint.metoffice.gov.uk/public/data/val/wxfcs/all/json/sitelist"
    = "???" /\ @nil LogRecord = [] /\
    (Sample.JoinPath (baseUrl (Sample.client "key" refuse))
       "val/wxfcs/all/json/sitelist").2 <> None) \/
   (Sample.JoinPath (baseUrl (Sample.client "key" refuse))
      "val/wxfcs/all/json/sitelist"
    = ("http://datapoint.metoffice.gov.uk/public/data/val/wxfcs/all/json/sitelist",
       None) /\
    mentions
      "http://datapoint.metoffice.gov.uk/public/data/val/wxfcs/all/json/sitelist"
      (Errorf "failed to query %v for %v: %w"
         ["http://datapoint.metoffice.gov.uk/public/data/val/wxfcs/all/json/sitelist";
          "sitelist"]
         (Some (foreignError "net/http"
                  "http://datapoint.metoffice.gov.uk/public/data/val/wxfcs/all/json/sitelist?key=key"))))).
Proof.
  apply (fetch_error_context Sample.JoinPath Sample.pick
           (Sample.client "key" refuse) "sitelist"
           "val/wxfcs/all/json/sitelist" None "" _ _ []).
  vm_compute. reflexivity.
Defined.

(** A response whose body reads and does not close. *)
Lemma fetch_closes_body_witness :
  (fetch Sample.JoinPath Sample.pick
     (Sample.client "key"
        (fun _ =>
           inl {| http.Status := "200 OK"; http.StatusCode := 200;
                  http.Header := [];
                  http.Body :=
                    {| http.data := "{}"; http.readErr := None;
                       http.closeErr := Some (foreignError "io" "closed") |} |}))
     "sitelist" "val/wxfcs/all/json/sitelist" None).2
  = [slog_Warn "failed to close body from query"
       [("err", logError (foreignError "io" "closed"));
        ("desc", logString "sitelist")]] /\
  (fetch Sample.JoinPath Sample.pick
     (Sample.client "key"
        (fun _ =>
           inl {| http.Status := "200 OK"; http.StatusCode := 200;
                  http.Header := [];
                  http.Body :=
                    {| http.data := "{}"; http.readErr := None;
                       http.closeErr := Some (foreignError "io" "closed") |} |}))
     "sitelist" "val/wxfcs/all/json/sitelist" None).1
  = ("{}",
     "http://datapoint.metoffice.gov.uk/public/data/val/wxfcs/all/json/sitelist",
     None).
Proof.
  destruct (fetch_closes_body Sample.JoinPath Sample.pick
              (Sample.client "key"
                 (fun _ =>
                    inl {| http.Status := "200 OK"; http.StatusCode := 200;
                           http.Header := [];
                           http.Body :=
                             {| http.data := "{}"; http.readErr := None;
                                http.closeErr :=
                                  Some (foreignError "io" "closed") |} |}))
              "sitelist" "val/wxfcs/all/json/sitelist" None
              "http://datapoint.metoffice.gov.uk/public/data/val/wxfcs/all/json/sitelist"
              {| http.Status := "200 OK"; http.StatusCode := 200;
                 http.Header := [];
                 http.Body :=
                   {| http.data := "{}"; http.readErr := None;
                      http.closeErr := Some (foreignError "io" "closed") |} |}
              eq_refl eq_refl) as (Hlog & _ & Hbody).
  split; [exact Hlog|]. apply Hbody. reflexivity.
Defined.

(** ** Conversion of a location: what a forecast holds *)

Section forecast_properties.

Variable ParseFloat : string -> float64 * option error.
Variable time_Parse : string -> string -> Time * option error.
Variable paramDefinitions : gmap string ParameterDescriptor.t.
Variables (typeName : string) (startTime : Time).

(** Where a key of the record ends up, by cases. *)
Lemma convertRep_key pick periodTime rep f k :
  convertRep pick paramDefinitions periodTime rep = Next f ->
  ((k = "$" \/ rep !! k = None) /\
   Forecast.IntParams f !! k = None /\ Forecast.StringParams f !! k = None) \/
  (k <> "$" /\
   exists v d,
     rep !! k = Some v /\ paramDefinitions !! k = Some d /\
     ((slices_Contains knownIntParams k = true /\
       exists n,
         strconv.ParseInt v 16 = (n, None) /\
         Forecast.IntParams f !! k
         = Some {| IntParameterValue.Descriptor := d;
                   IntParameterValue.Value := n |} /\
         Forecast.StringParams f !! k = None) \/
      (slices_Contains knownIntParams k = false /\
       Forecast.IntParams f !! k = None /\
       Forecast.StringParams f !! k
       = Some {| StringParameterValue.Descriptor := d;
                 StringParameterValue.Value := v |}))).
Proof.
  intros (o & offset & [ip sp] & _ & _ & Hloop & ->)%convertRep_Next. simpl.
  destruct (decide (k = "$")) as [->|Hk].
  { left. split; [by left|].
    by destruct (repLoop_other _ _ _ _ _ _ "$" Hloop (or_intror eq_refl))
      as [-> ->]. }
  destruct (rep !! k) as [v|] eqn:Hkv.
  - right. split; [done|].
    apply (rangeOrder_map pick) in Hkv.
    destruct (repLoop_key _ _ _ _ _ _ _ _ Hloop (rangeOrder_NoDup _ _) Hkv Hk)
      as (d & Hd & Hkey).
    exists v, d. repeat split; [done|].
    destruct (slices_Contains knownIntParams k).
    + left. split; [done|]. destruct Hkey as (n & Hn & Hip & Hsp).
      exists n. by rewrite Hsp, lookup_empty.
    + right. destruct Hkey as [Hip Hsp]. by rewrite Hip, lookup_empty.
  - left. split; [by right|].
    assert (k ∉ (rangeOrder pick (map_to_list rep)).*1) as Hfresh.
    { intros ((k' & v) & -> & Hin%rangeOrder_map)%list_elem_of_fmap.
      simpl in Hkv. congruence. }
    by destruct (repLoop_other _ _ _ _ _ _ k Hloop (or_introl Hfresh))
      as [-> ->].
Qed.

(** A record gives the same forecast in whatever order its keys are
    visited. *)
Lemma convertRep_order pick1 pick2 periodTime rep f :
  convertRep pick1 paramDefinitions periodTime rep = Next f ->
  convertRep pick2 paramDefinitions periodTime rep = Next f.
Proof.
  intros Hone.
  assert (exists f', convertRep pick2 paramDefinitions periodTime rep = Next f')
    as [f' Htwo].
  { apply convertRep_runs. apply (convertRep_runs pick1 _ periodTime).
    by eauto. }
  rewrite Htwo. f_equal.
  assert (Forecast.Time_ f = Forecast.Time_ f') as Htime.
  { pose proof Hone as (o & offset & p1 & Ho & Hoffset & _ & ->)%convertRep_Next.
    pose proof Htwo
      as (o' & offset' & p2 & Ho' & Hoffset' & _ & ->)%convertRep_Next.
    simpl. congruence. }
  destruct f as [t ip sp], f' as [t' ip' sp']. simpl in Htime. subst t'.
  f_equal; apply map_eq; intros k.
  - destruct (convertRep_key _ _ _ _ k Hone)
      as [([Hk1|Hk1] & Hint1 & _)|(Hk1 & v & d & Hkv & Hd & [(Hknown & n & Hn & Hint1 & _)
                                               |(Hknown & Hint1 & _)])];
      destruct (convertRep_key _ _ _ _ k Htwo)
        as [([Hk|Hk] & Hint & _)
           |(Hk & v' & d' & Hkv' & Hd' & [(Hknown' & n' & Hn' & Hint & _)
                                        |(Hknown' & Hint & _)])];
      simpl in *; congruence.
  - destruct (convertRep_key _ _ _ _ k Hone)
      as [([Hk1|Hk1] & _ & Hstr1)|(Hk1 & v & d & Hkv & Hd & [(Hknown & n & Hn & _ & Hstr1)
                                               |(Hknown & _ & Hstr1)])];
      destruct (convertRep_key _ _ _ _ k Htwo)
        as [([Hk|Hk] & _ & Hstr)
           |(Hk & v' & d' & Hkv' & Hd' & [(Hknown' & n' & Hn' & _ & Hstr)
                                        |(Hknown' & _ & Hstr)])];
      simpl in *; congruence.
Qed.

Lemma each_ext_Next {A B} (f g : A -> flow B) l ys :
  (forall x y, f x = Next y -> g x = Next y) ->
  each f l = Next ys -> each g l = Next ys.
Proof.
  intros Hfg Hf%each_Next. apply each_Next.
  eapply Forall2_impl; [done|]. apply Hfg.
Qed.

Lemma convertPeriod_order pick1 pick2 P Pd :
  convertPeriod time_Parse pick1 paramDefinitions P = Next Pd ->
  convertPeriod time_Parse pick2 paramDefinitions P = Next Pd.
Proof.
  intros (pt & forecasts & Hpt & Hreps & ->)%convertPeriod_Next.
  apply convertPeriod_Next. exists pt, forecasts. repeat split; [done|].
  eapply Forall2_impl; [done|]. intros rep f. apply convertRep_order.
Qed.

(** X7.  The value [convertLocation] returns does not depend on the order
    in which the keys of the records are visited: what converts under one
    order converts under any other, to the same value. *)
Theorem convertLocation_order_independent pick1 pick2 entry site :
  convertLocation ParseFloat time_Parse pick1 paramDefinitions typeName
    startTime entry = (Some site, None) <->
  convertLocation ParseFloat time_Parse pick2 paramDefinitions typeName
    startTime entry = (Some site, None).
Proof.
  assert (forall p1 p2,
            convertLocation ParseFloat time_Parse p1 paramDefinitions typeName
              startTime entry = (Some site, None) ->
            convertLocation ParseFloat time_Parse p2 paramDefinitions typeName
              startTime entry = (Some site, None)) as Hdir;
    [|split; apply Hdir].
  intros p1 p2 (periods & id & lat & lon & elevation & Hperiods & Hrest)
                 %convertLocation_Some.
  apply convertLocation_Some. exists periods, id, lat, lon, elevation.
  split; [|done].
  eapply each_ext_Next; [|done]. intros P Pd. apply convertPeriod_order.
Qed.

Variable pick : list (string * string) -> nat.

Let convert := convertLocation ParseFloat time_Parse pick paramDefinitions
                 typeName startTime.

(** The forecast at place [j] of period [i] is the conversion of the record
    at that place. *)
Lemma convertLocation_forecast entry site i j P rep Pd f :
  convert entry = (Some site, None) ->
  locationEntry.Periods entry !! i = Some P ->
  locationEntry.Rep P !! j = Some rep ->
  LocationRep.Periods (SiteRep.Location site) !! i = Some Pd ->
  Period.Forecasts Pd !! j = Some f ->
  convertRep pick paramDefinitions (Period.Time_ Pd) rep = Next f.
Proof.
  intros Hconv HP Hrep HPd Hf.
  destruct (convertLocation_record _ _ _ _ _ _ _ _ _ _ _ _ Hconv HP Hrep)
    as (pt & Pd' & f' & _ & HPd' & _ & <- & Hf' & Hconvert).
  rewrite HPd in HPd'. injection HPd' as <-.
  rewrite Hf in Hf'. by injection Hf' as <-.
Qed.

(** X8.  The keys of a forecast are the keys of its record, [$] apart: the
    integer mapping holds those on the list of known integers, the string
    mapping the others, and neither holds [$] or a key the record does not
    have. *)
Theorem forecast_keys entry site i j P rep Pd f k :
  convert entry = (Some site, None) ->
  locationEntry.Periods entry !! i = Some P ->
  locationEntry.Rep P !! j = Some rep ->
  LocationRep.Periods (SiteRep.Location site) !! i = Some Pd ->
  Period.Forecasts Pd !! j = Some f ->
  (is_Some (Forecast.IntParams f !! k) <->
   k <> "$" /\ is_Some (rep !! k) /\ k ∈ knownIntParams) /\
  (is_Some (Forecast.StringParams f !! k) <->
   k <> "$" /\ is_Some (rep !! k) /\ k ∉ knownIntParams).
Proof.
  intros Hconv HP Hrep HPd Hf.
  pose proof (convertLocation_forecast _ _ _ _ _ _ _ _ Hconv HP Hrep HPd Hf)
    as Hconvert.
  rewrite <- (slices_Contains_elem_of knownIntParams k).
  destruct (convertRep_key _ _ _ _ k Hconvert)
    as [([->|Hnone] & -> & ->)
       |(Hk & v & d & -> & _ & [(-> & n & _ & -> & ->)|(-> & -> & ->)])].
  - split; (split; [by intros [? ?]|by intros [? _]]).
  - rewrite Hnone. split; (split; [by intros [? ?]|by intros (_ & [? ?] & _)]).
  - split; [split; by eauto|].
    split; [by intros [? ?]|]. by intros (_ & _ & []).
  - split; [split; [by intros [? ?]|by intros (_ & _ & ?)]|].
    split; [|by eauto]. intros _. repeat split; by eauto.
Qed.

(** X9.  What a forecast holds comes from its record: an integer parameter
    is the 16-bit integer the record's value parses to, a string parameter
    is the record's value, and each carries the descriptor the side-table
    has for its key. *)
Theorem forecast_lookup entry site i j P rep Pd f k :
  convert entry = (Some site, None) ->
  locationEntry.Periods entry !! i = Some P ->
  locationEntry.Rep P !! j = Some rep ->
  LocationRep.Periods (SiteRep.Location site) !! i = Some Pd ->
  Period.Forecasts Pd !! j = Some f ->
  (forall x,
     Forecast.IntParams f !! k = Some x ->
     exists v,
       rep !! k = Some v /\
       strconv.ParseInt v 16 = (IntParameterValue.Value x, None) /\
       -32768 <= IntParameterValue.Value x <= 32767 /\
       paramDefinitions !! k = Some (IntParameterValue.Descriptor x)) /\
  (forall y,
     Forecast.StringParams f !! k = Some y ->
     rep !! k = Some (StringParameterValue.Value y) /\
     paramDefinitions !! k = Some (StringParameterValue.Descriptor y)).
Proof.
  intros Hconv HP Hrep HPd Hf.
  pose proof (convertLocation_forecast _ _ _ _ _ _ _ _ Hconv HP Hrep HPd Hf)
    as Hconvert.
  destruct (convertRep_key _ _ _ _ k Hconvert)
    as [(_ & -> & ->)
       |(Hk & v & d & -> & Hd & [(_ & n & Hn & -> & ->)|(_ & -> & ->)])].
  - split; intros ?; discriminate.
  - split; [|discriminate]. intros x [= <-]. simpl. exists v.
    pose proof (ParseInt_16_range _ _ Hn). by repeat split; try lia.
  - split; [discriminate|]. by intros y [= <-].
Qed.

(** X10.  A converted location keeps the shape of its entry: the date and
    the type are the ones passed in, the name, country and continent are
    copied, the id and the coordinates are the parsed strings, and there is
    one period per period of the entry, in order, with its type, its parsed
    date and one forecast per record. *)
Theorem convertLocation_preserves entry site :
  convert entry = (Some site, None) ->
  SiteRep.DataDate site = startTime /\
  SiteRep.Type_ site = typeName /\
  LocationRep.Name (SiteRep.Location site) = locationEntry.Name entry /\
  LocationRep.Country (SiteRep.Location site) = locationEntry.Country entry /\
  LocationRep.Continent (SiteRep.Location site)
  = locationEntry.Continent entry /\
  strconv.ParseInt (locationEntry.Id entry) 64
  = (LocationRep.Id (SiteRep.Location site), None) /\
  ParseFloat (locationEntry.Latitude entry)
  = (LocationRep.Latitude (SiteRep.Location site), None) /\
  ParseFloat (locationEntry.Longitude entry)
  = (LocationRep.Longitude (SiteRep.Location site), None) /\
  Forall2
    (fun P Pd =>
       Period.Type_ Pd = locationEntry.Type_ P /\
       time_Parse "2006-01-02Z" (locationEntry.Value P)
       = (Period.Time_ Pd, None) /\
       length (Period.Forecasts Pd) = length (locationEntry.Rep P))
    (locationEntry.Periods entry)
    (LocationRep.Periods (SiteRep.Location site)).
Proof.
  intros (periods & id & lat & lon & elevation & Hperiods & Hid & Hlat & Hlon
          & _ & ->)%convertLocation_Some. simpl.
  repeat split; try done.
  apply each_Next in Hperiods. eapply Forall2_impl; [done|].
  intros P Pd (pt & forecasts & Hpt & Hreps & ->)%convertPeriod_Next. simpl.
  repeat split; [done|]. symmetry. by eapply Forall2_length.
Qed.

Lemma periodParses_run l :
  Forall (periodParses time_Parse paramDefinitions) l ->
  Forall (fun P => exists Pd,
            convertPeriod time_Parse pick paramDefinitions P = Next Pd) l.
Proof.
  intros Hl. eapply Forall_impl; [done|]. intros P. apply convertPeriod_runs.
Qed.

Lemma periodParses_each l :
  Forall (periodParses time_Parse paramDefinitions) l ->
  exists periods,
    each (convertPeriod time_Parse pick paramDefinitions) l = Next periods.
Proof.
  apply (each_runs _ (periodParses time_Parse paramDefinitions)).
  intros P. apply convertPeriod_runs.
Qed.

(** The first period that fails gives the error of the location. *)
Lemma convertLocation_period_fails entry i P e :
  locationEntry.Periods entry !! i = Some P ->
  Forall (periodParses time_Parse paramDefinitions)
    (take i (locationEntry.Periods entry)) ->
  convertPeriod time_Parse pick paramDefinitions P = Return e ->
  convert entry = (None, Some e).
Proof.
  intros HP Hbefore%periodParses_run Hfails.
  unfold convert, convertLocation.
  rewrite <- (take_drop_middle _ _ _ HP).
  by rewrite (each_Return_first _ _ _ _ _ Hbefore Hfails).
Qed.

(** X11.  [convertLocation] checks in a fixed order and reports the first
    failure only: the periods in their order, then the id, the latitude,
    the longitude and the elevation.  A period that fails decides the
    error whatever the id and the coordinates are. *)
Theorem convertLocation_error_order entry :
  (forall i P e,
     locationEntry.Periods entry !! i = Some P ->
     Forall (periodParses time_Parse paramDefinitions)
       (take i (locationEntry.Periods entry)) ->
     convertPeriod time_Parse pick paramDefinitions P = Return e ->
     convert entry = (None, Some e)) /\
  (Forall (periodParses time_Parse paramDefinitions)
     (locationEntry.Periods entry) ->
   (forall x err,
      strconv.ParseInt (locationEntry.Id entry) 64 = (x, Some err) ->
      convert entry
      = (None, Some (Errorf "failed to parse id: %w" [] (Some err)))) /\
   ((strconv.ParseInt (locationEntry.Id entry) 64).2 = None ->
    (forall x err,
       ParseFloat (locationEntry.Latitude entry) = (x, Some err) ->
       convert entry
       = (None, Some (Errorf "failed to parse latitude: %w" [] (Some err)))) /\
    ((ParseFloat (locationEntry.Latitude entry)).2 = None ->
     (forall x err,
        ParseFloat (locationEntry.Longitude entry) = (x, Some err) ->
        convert entry
        = (None,
           Some (Errorf "failed to parse longitude: %w" [] (Some err)))) /\
     ((ParseFloat (locationEntry.Longitude entry)).2 = None ->
      forall x err,
        locationEntry.Elevation entry <> "" ->
        ParseFloat (locationEntry.Elevation entry) = (x, Some err) ->
        convert entry
        = (None,
           Some (Errorf "failed to parse elevation: %w" [] (Some err))))))).
Proof.
  split; [intros i P e; apply convertLocation_period_fails|].
  intros [periods Hperiods]%periodParses_each.
  unfold convert, convertLocation. rewrite Hperiods.
  split; [by intros x err ->|].
  destruct (strconv.ParseInt _ 64) as [id ?]. simpl. intros ->.
  split; [by intros x err ->|].
  destruct (ParseFloat (locationEntry.Latitude entry)) as [lat ?].
  simpl. intros ->.
  split; [by intros x err ->|].
  destruct (ParseFloat (locationEntry.Longitude entry)) as [lon ?].
  simpl. intros -> x err Hset%String.eqb_neq Herr.
  by rewrite Hset, Herr.
Qed.

(** X12.  Inside the first period that fails, the date is read before the
    records and the records are read in order; in a record the marker
    under [$] is read before any key.  So a date that does not parse, a
    record without [$], or a marker that is no number decides the error of
    the whole location. *)
Theorem convertLocation_first_failure entry i P :
  locationEntry.Periods entry !! i = Some P ->
  Forall (periodParses time_Parse paramDefinitions)
    (take i (locationEntry.Periods entry)) ->
  (forall x err,
     time_Parse "2006-01-02Z" (locationEntry.Value P) = (x, Some err) ->
     convert entry
     = (None,
        Some (Errorf "failed to parse period offset: %w" [] (Some err)))) /\
  (forall periodTime j rep,
     time_Parse "2006-01-02Z" (locationEntry.Value P) = (periodTime, None) ->
     locationEntry.Rep P !! j = Some rep ->
     Forall (repParses paramDefinitions) (take j (locationEntry.Rep P)) ->
     (rep !! "$" = None ->
      convert entry
      = (None, Some (errorString "could not find forecast offset"))) /\
     (forall offsetString x err,
        rep !! "$" = Some offsetString ->
        offsetString <> "Day" -> offsetString <> "Night" ->
        strconv.ParseInt offsetString 16 = (x, Some err) ->
        convert entry
        = (None,
           Some (Errorf "failed to parse forecast offset: %w" []
                   (Some err))))).
Proof.
  intros HP Hbefore. split.
  - intros x err Hdate.
    apply (convertLocation_period_fails _ i P); [done..|].
    unfold convertPeriod. by rewrite Hdate.
  - intros periodTime j rep Hdate Hrep Hreps.
    assert (forall e,
              convertRep pick paramDefinitions periodTime rep = Return e ->
              convert entry = (None, Some e)) as Hrecord.
    { intros e Hfails.
      apply (convertLocation_period_fails _ i P); [done..|].
      unfold convertPeriod. rewrite Hdate. simpl.
      rewrite <- (take_drop_middle _ _ _ Hrep).
      rewrite (each_Return_first _ _ _ _ e); [done| |done].
      eapply Forall_impl; [done|]. intros r. apply convertRep_runs. }
    split.
    + intros Hnone. apply Hrecord. unfold convertRep. by rewrite Hnone.
    + intros o x err Ho Hday%String.eqb_neq Hnight%String.eqb_neq Herr.
      apply Hrecord. unfold convertRep, forecastOffset.
      by rewrite Ho, Hday, Hnight, Herr.
Qed.

End forecast_properties.

(** ** The side-table of descriptors *)

Lemma paramTable_fold Param (m : gmap string ParameterDescriptor.t) k :
  fold_left
    (fun paramDefinitions p =>
       <[ wxResponse.Name p :=
            {| ParameterDescriptor.Name := wxResponse.Name p;
               ParameterDescriptor.Units := wxResponse.Units p;
               ParameterDescriptor.Description := wxResponse.Description p |} ]>
         paramDefinitions)
    Param m !! k
  = match last (filter (fun p => wxResponse.Name p = k) Param) with
    | Some p => Some (descriptorOf p)
    | None => m !! k
    end.
Proof.
  revert m. induction Param as [|p Param IH]; intros m; [done|].
  simpl. rewrite IH. rewrite filter_cons.
  destruct (decide (wxResponse.Name p = k)) as [<-|Hne].
  - rewrite last_cons. destruct (last _); [done|].
    by rewrite lookup_insert_eq.
  - destruct (last _); [done|]. by rewrite lookup_insert_ne.
Qed.

(** X13.  The side-table holds, under a code, the descriptor of the last
    parameter of the response that has this code; the descriptor carries
    the code as its name, and a code that no parameter has is absent. *)
Theorem paramTable_lookup Param k :
  paramTable Param !! k
  = descriptorOf <$> last (filter (fun p => wxResponse.Name p = k) Param) /\
  (forall d, paramTable Param !! k = Some d -> ParameterDescriptor.Name d = k) /\
  (is_Some (paramTable Param !! k) <-> k ∈ wxResponse.Name <$> Param).
Proof.
  assert (paramTable Param !! k
          = descriptorOf <$>
              last (filter (fun p => wxResponse.Name p = k) Param)) as Hlookup.
  { unfold paramTable. rewrite paramTable_fold.
    by destruct (last _). }
  split; [done|]. rewrite Hlookup. split.
  - intros d Hd. destruct (last _) as [p|] eqn:Hlast; [|done].
    injection Hd as <-.
    by apply last_Some_elem_of, list_elem_of_filter in Hlast as [Hname _].
  - rewrite list_elem_of_fmap. split.
    + intros [d Hd]. destruct (last _) as [p|] eqn:Hlast; [|done].
      apply last_Some_elem_of, list_elem_of_filter in Hlast as [Hname Hin].
      by exists p.
    + intros (p & -> & Hin).
      assert (p ∈ filter (fun q => wxResponse.Name q = wxResponse.Name p) Param)
        as Hfilter by by apply list_elem_of_filter.
      destruct (filter _ Param) as [|q l] using rev_ind;
        [by apply elem_of_nil in Hfilter|].
      rewrite last_snoc. by eauto.
Qed.

(** ** The site lists *)

Section site_list_properties.

Context {S : Type} `{!Supplier S string}.
Variable JoinPath : string -> string -> string * option error.
Variable ParseFloat : string -> float64 * option error.
Variable pick : list (string * string) -> nat.
Context {jsonSites : Unmarshaler siteResponse.t}.

Lemma siteListEntry_Next site s logs :
  siteListEntry ParseFloat site = (Next s, logs) <->
  siteOf ParseFloat site s /\
  logs = (siteElevation ParseFloat (siteResponse.Elevation site)).2.
Proof.
  unfold siteListEntry, siteOf.
  destruct (ParseFloat (siteResponse.Latitude site)) as [lat [e|]]; simpl;
    [split; [discriminate|by intros [(? & _) _]]|].
  destruct (ParseFloat (siteResponse.Longitude site)) as [lon [e|]]; simpl;
    [split; [discriminate|by intros [(_ & ? & _) _]]|].
  destruct (strconv.ParseInt (siteResponse.Id site) 64) as [id [e|]]; simpl;
    [split; [discriminate|by intros [(_ & _ & ? & _) _]]|].
  destruct (siteElevation _ _) as [elevation lg]. simpl. split.
  - by intros [= <- <-].
  - intros [([= ->] & [= ->] & [= ->] & Hname & Hregion & Harea & Helev) ->].
    destruct s. simpl in *. by subst.
Qed.

Lemma siteListLoop_Next l entries logs :
  siteListLoop ParseFloat l = (Next entries, logs) <->
  Forall2 (siteOf ParseFloat) l entries /\
  logs = elevationWarnings ParseFloat l.
Proof.
  split.
  - revert entries logs. induction l as [|site l IH]; intros entries logs.
    + intros [= <- <-]. by split; [constructor|].
    + simpl.
      destruct (siteListEntry ParseFloat site) as [[x|e] lg] eqn:Hentry;
        [|discriminate].
      apply siteListEntry_Next in Hentry as [Hx ->].
      destruct (siteListLoop ParseFloat l) as [[xs|e] lg'] eqn:Hloop;
        [|discriminate].
      destruct (IH xs lg' eq_refl) as [Hxs ->].
      intros [= <- <-]. by split; [constructor|].
  - intros [Hentries ->].
    induction Hentries as [|site s l entries Hs _ IH]; [done|].
    simpl.
    rewrite (proj2 (siteListEntry_Next site s _) (conj Hs eq_refl)).
    by rewrite IH.
Qed.

(** The loop stops at the first entry that fails, with the warnings of the
    entries before it. *)
Lemma siteListLoop_first l1 site l2 e :
  Forall (siteParses ParseFloat) l1 ->
  siteListEntry ParseFloat site = (Return e, []) ->
  siteListLoop ParseFloat (l1 ++ site :: l2)
  = (Return e, elevationWarnings ParseFloat l1).
Proof.
  intros Hl1 Hsite. induction Hl1 as [|x l1 Hx _ IH]; simpl.
  - by rewrite Hsite.
  - apply siteListEntry_runs in Hx as (s & -> & _). rewrite IH. simpl.
    done.
Qed.

Variable d : DataPointClient S.
Variable id : string.

Let fetched :=
  fetch JoinPath pick d "sitelist" ("val/" +:+ id +:+ "/all/json/sitelist")
    None.

(** X14.  When the response decodes, a site list is returned exactly when
    it has one entry per site of the response, in order, each with the
    parsed coordinates and id of its site, the copied names, and the
    elevation or its default; the log is then what [fetch] logged followed
    by the warnings about the elevations, in the order of the sites. *)
Theorem siteList_value result entries logs :
  decodes fetched result ->
  siteList JoinPath ParseFloat pick d id = ((Some entries, None), logs) <->
  Forall2 (siteOf ParseFloat) (siteResponse.Locations_Location result)
    entries /\
  logs = fetched.2
         ++ elevationWarnings ParseFloat
              (siteResponse.Locations_Location result).
Proof.
  unfold decodes, siteList, fetched.
  destruct (fetch _ _ _ _ _ _) as [[[body target] err] lg]. simpl.
  intros [-> ->].
  destruct (siteListLoop ParseFloat _) as [[xs|e] lg'] eqn:Hloop.
  - apply siteListLoop_Next in Hloop as [Hxs ->]. split.
    + by intros [= <- <-].
    + intros [Hentries ->]. do 2 f_equal.
      assert (siteListLoop ParseFloat
                (siteResponse.Locations_Location result)
              = (Next entries,
                 elevationWarnings ParseFloat
                   (siteResponse.Locations_Location result))) as Hentries'
        by by apply siteListLoop_Next.
      assert (siteListLoop ParseFloat
                (siteResponse.Locations_Location result)
              = (Next xs,
                 elevationWarnings ParseFloat
                   (siteResponse.Locations_Location result))) as Hxs'
        by by apply siteListLoop_Next.
      congruence.
  - split; [discriminate|]. intros [Hentries ->].
    assert (siteListLoop ParseFloat (siteResponse.Locations_Location result)
            = (Next entries,
               elevationWarnings ParseFloat
                 (siteResponse.Locations_Location result))) as Hentries'
      by by apply siteListLoop_Next.
    congruence.
Qed.

(** X15.  A site list fails at the first site whose latitude, longitude
    or id does not parse, tried in this order; the error names the
    string, and the log holds the warnings of the sites before it only. *)
Theorem siteList_first_failure result l1 site l2 :
  decodes fetched result ->
  siteResponse.Locations_Location result = l1 ++ site :: l2 ->
  Forall (siteParses ParseFloat) l1 ->
  (forall x err,
     ParseFloat (siteResponse.Latitude site) = (x, Some err) ->
     siteList JoinPath ParseFloat pick d id
     = ((None,
         Some (Errorf "failed to parse latitude %v for sitelist: %w"
                 [siteResponse.Latitude site] (Some err))),
        fetched.2 ++ elevationWarnings ParseFloat l1)) /\
  ((ParseFloat (siteResponse.Latitude site)).2 = None ->
   (forall x err,
      ParseFloat (siteResponse.Longitude site) = (x, Some err) ->
      siteList JoinPath ParseFloat pick d id
      = ((None,
          Some (Errorf "failed to parse longitude %v for sitelist: %w"
                  [siteResponse.Longitude site] (Some err))),
         fetched.2 ++ elevationWarnings ParseFloat l1)) /\
   ((ParseFloat (siteResponse.Longitude site)).2 = None ->
    forall x err,
      strconv.ParseInt (siteResponse.Id site) 64 = (x, Some err) ->
      siteList JoinPath ParseFloat pick d id
      = ((None,
          Some (Errorf "failed to parse id %v for sitelist: %w"
                  [siteResponse.Id site] (Some err))),
         fetched.2 ++ elevationWarnings ParseFloat l1))).
Proof.
  unfold decodes, siteList, fetched.
  destruct (fetch _ _ _ _ _ _) as [[[body target] err] lg]. simpl.
  intros [-> ->] -> Hl1.
  assert (forall e,
            siteListEntry ParseFloat site = (Return e, []) ->
            match siteListLoop ParseFloat (l1 ++ site :: l2) with
            | (Return e, logs') => ((None, Some e), lg ++ logs')
            | (Next entries, logs') => ((Some entries, None), lg ++ logs')
            end
            = ((None, Some e), lg ++ elevationWarnings ParseFloat l1))
    as Hfirst.
  { intros e He. by rewrite (siteListLoop_first _ _ _ _ Hl1 He). }
  split.
  { intros x err Hlat. apply Hfirst. unfold siteListEntry. by rewrite Hlat. }
  destruct (ParseFloat (siteResponse.Latitude site)) as [lat ?] eqn:Hlat.
  simpl. intros ->. split.
  { intros x err Hlon. apply Hfirst. unfold siteListEntry.
    by rewrite Hlat, Hlon. }
  destruct (ParseFloat (siteResponse.Longitude site)) as [lon ?] eqn:Hlon.
  simpl. intros -> x err Hid. apply Hfirst. unfold siteListEntry.
  by rewrite Hlat, Hlon, Hid.
Qed.

End site_list_properties.

(** ** What the calls return *)

Lemma Forall2_pointwise {A B} (P Q : A -> B -> Prop) l k :
  (forall x y, P x y <-> Q x y) -> Forall2 P l k <-> Forall2 Q l k.
Proof.
  intros HPQ. split; intros H; (eapply Forall2_impl; [done|]);
    intros x y; apply HPQ.
Qed.

Lemma each_try_Next {A B} (parse : A -> B * option error) wrap l ys :
  each (fun x => try (parse x) wrap) l = Next ys <->
  Forall2 (fun x y => parse x = (y, None)) l ys.
Proof.
  rewrite each_Next. apply Forall2_pointwise. intros x y. apply try_Next.
Qed.

Lemma each_try_first {A B} (parse : A -> B * option error) wrap l1 x l2 b err :
  Forall (fun x => (parse x).2 = None) l1 ->
  parse x = (b, Some err) ->
  each (fun x => try (parse x) wrap) (l1 ++ x :: l2)
  = Return (wrap (Some err)).
Proof.
  intros Hl1 Hx. apply each_Return_first; [|by rewrite Hx].
  eapply Forall_impl; [done|]. intros a. apply try_runs.
Qed.

Section call_properties.

Context {S : Type} `{!Supplier S string}.
Variable JoinPath : string -> string -> string * option error.
Variable ParseFloat : string -> float64 * option error.
Variable time_Parse : string -> string -> Time * option error.
Variable time_Format : Time -> string -> string.
Variable pick : list (string * string) -> nat.
Context {jsonCapabilities : Unmarshaler capabilitiesResponse.t}
        {jsonSiteRep : Unmarshaler siteRepResponse.t}
        {jsonSiteRepAll : Unmarshaler siteRepAllResponse.t}
        {jsonLatestExtremes : Unmarshaler latestExtremesResponse.t}
        {jsonRegionalSites : Unmarshaler regionalForecastSiteListResponse.t}.

Variable d : DataPointClient S.

(** X16.  When the response decodes, the time steps are returned exactly
    when the data date and every step parse as RFC 3339; the steps keep
    their order, and the resolution and the type are those of the
    response, not the resolution asked for.  A data date that does not
    parse is reported first, as a time step. *)
Theorem ForecastTimeStepCapabilities_value resolution ts :
  decodes
    (fetch JoinPath pick d "capabilities" "val/wxfcs/all/json/capabilities"
       (Some {[ "res" := resolution ]})) ts ->
  (forall v,
     (ForecastTimeStepCapabilities JoinPath time_Parse pick d resolution).1
     = (Some v, None) <->
     time_Parse time.RFC3339 (capabilitiesResponse.DataDate ts)
     = (TimeSteps.DataDate v, None) /\
     TimeSteps.Resolution_ v = capabilitiesResponse.Resolution_ ts /\
     TimeSteps.Type_ v = capabilitiesResponse.Type_ ts /\
     Forall2 (fun t x => time_Parse time.RFC3339 t = (x, None))
       (capabilitiesResponse.TimeSteps_TS ts) (TimeSteps.TimeSteps v)) /\
  (forall x err,
     time_Parse time.RFC3339 (capabilitiesResponse.DataDate ts)
     = (x, Some err) ->
     (ForecastTimeStepCapabilities JoinPath time_Parse pick d resolution).1
     = (None,
        Some (Errorf "failed to parse time step for capabilities: %w" []
                (Some err)))).
Proof.
  unfold decodes, ForecastTimeStepCapabilities.
  destruct (fetch _ _ _ _ _ _) as [[[body target] err] lg]. simpl.
  intros [-> ->]. simpl. split; [|by intros x err ->].
  intros v.
  destruct (time_Parse time.RFC3339 (capabilitiesResponse.DataDate ts))
    as [dataDate [e|]]; simpl; [split; [discriminate|by intros [? _]]|].
  destruct (each _ _) as [times|e] eqn:Htimes.
  - apply each_try_Next in Htimes. split.
    + by intros [= <-].
    + intros ([= ->] & Hres & Htype & Hsteps). destruct v. simpl in *.
      subst. do 3 f_equal.
      apply (proj2 (each_try_Next (time_Parse time.RFC3339)
               (Errorf "failed to parse time step for capabilities: %w" [])
               _ _)) in Htimes, Hsteps.
      congruence.
  - split; [discriminate|]. intros (_ & _ & _ & Hsteps).
    apply (proj2 (each_try_Next (time_Parse time.RFC3339)
             (Errorf "failed to parse time step for capabilities: %w" [])
             _ _)) in Hsteps.
    congruence.
Qed.

(** X17.  A forecast for one location is the conversion of the location of
    the response, with the side-table built from the parameters of the
    response, the type of the response and its parsed data date; a data
    date that does not parse is reported before anything of the location
    is read.  The id asked for plays no part in the result. *)
Theorem FiveDayForecast_value resolution locationID at_ result :
  decodes
    (fetch JoinPath pick d "locationId"
       ("val/wxfcs/all/json/" +:+ pretty locationID)
       (Some (forecastParams time_Format resolution at_))) result ->
  locationEntry.Id (dvEntry.Location (siteRepResponse.Dv result)) <> "" ->
  (forall startTime,
     time_Parse time.RFC3339 (dvEntry.DataDate (siteRepResponse.Dv result))
     = (startTime, None) ->
     (FiveDayForecast JoinPath ParseFloat time_Parse time_Format pick d
        resolution locationID at_).1
     = convertLocation ParseFloat time_Parse pick
         (paramTable (wxResponse.Params (siteRepResponse.Wx result)))
         (dvEntry.Type_ (siteRepResponse.Dv result)) startTime
         (dvEntry.Location (siteRepResponse.Dv result))) /\
  (forall x err,
     time_Parse time.RFC3339 (dvEntry.DataDate (siteRepResponse.Dv result))
     = (x, Some err) ->
     (FiveDayForecast JoinPath ParseFloat time_Parse time_Format pick d
        resolution locationID at_).1
     = (None,
        Some (Errorf "failed to parse period start time: %w" [] (Some err)))).
Proof.
  unfold decodes, FiveDayForecast.
  destruct (fetch _ _ _ _ _ _) as [[[body target] err] lg]. simpl.
  intros [-> ->] Hid%String.eqb_neq. simpl. rewrite Hid.
  split; [by intros startTime ->|by intros x err ->].
Qed.

(** X18.  When the response decodes and its data date parses, the
    forecasts for all locations are returned exactly when there is one per
    location of the response, in order, each the conversion of its
    location with the one side-table, type and date of the response; the
    first location that fails gives its error, unchanged, to the call. *)
Theorem FiveDayForecastForAllLocations_value resolution at_ result startTime :
  decodes
    (fetch JoinPath pick d "locationId" "val/wxfcs/all/json/all"
       (Some (forecastParams time_Format resolution at_))) result ->
  time_Parse time.RFC3339
    (dvMultipleEntry.DataDate (siteRepAllResponse.Dv result))
  = (startTime, None) ->
  (forall reps,
     (FiveDayForecastForAllLocations JoinPath ParseFloat time_Parse
        time_Format pick d resolution at_).1 = (Some reps, None) <->
     Forall2
       (fun entry site =>
          convertLocation ParseFloat time_Parse pick
            (paramTable (wxResponse.Params (siteRepAllResponse.Wx result)))
            (dvMultipleEntry.Type_ (siteRepAllResponse.Dv result))
            startTime entry = (Some site, None))
       (dvMultipleEntry.Location (siteRepAllResponse.Dv result)) reps) /\
  (forall l1 entry l2 e,
     dvMultipleEntry.Location (siteRepAllResponse.Dv result)
     = l1 ++ entry :: l2 ->
     Forall (locationParses ParseFloat time_Parse
               (paramTable
                  (wxResponse.Params (siteRepAllResponse.Wx result)))) l1 ->
     convertLocation ParseFloat time_Parse pick
       (paramTable (wxResponse.Params (siteRepAllResponse.Wx result)))
       (dvMultipleEntry.Type_ (siteRepAllResponse.Dv result))
       startTime entry = (None, Some e) ->
     (FiveDayForecastForAllLocations JoinPath ParseFloat time_Parse
        time_Format pick d resolution at_).1 = (None, Some e)).
Proof.
  unfold decodes, FiveDayForecastForAllLocations.
  destruct (fetch _ _ _ _ _ _) as [[[body target] err] lg]. simpl.
  intros [-> ->] Hstart. simpl. rewrite Hstart. simpl.
  assert (forall entry site,
            deref (convertLocation ParseFloat time_Parse pick
                     (paramTable
                        (wxResponse.Params (siteRepAllResponse.Wx result)))
                     (dvMultipleEntry.Type_ (siteRepAllResponse.Dv result))
                     startTime entry) = Next site <->
            convertLocation ParseFloat time_Parse pick
              (paramTable (wxResponse.Params (siteRepAllResponse.Wx result)))
              (dvMultipleEntry.Type_ (siteRepAllResponse.Dv result))
              startTime entry = (Some site, None)) as Hderef.
  { intros entry site.
    destruct (convertLocation _ _ _ _ _ _ entry) as [[s|] [e|]]; simpl;
      split; congruence. }
  split.
  - intros reps. rewrite <- (Forall2_pointwise _ _ _ _ Hderef), <- each_Next.
    destruct (each _ _); split; congruence.
  - intros l1 entry l2 e -> Hl1 Hentry.
    rewrite (each_Return_first _ _ _ _ e); [done| |by rewrite Hentry].
    eapply Forall_impl; [done|]. intros x. apply deref_runs.
Qed.

Lemma convertExtreme_Next extreme x :
  convertExtreme ParseFloat extreme = Next x <-> extremeOf ParseFloat extreme x.
Proof.
  unfold convertExtreme, extremeOf.
  destruct (strconv.ParseInt _ 64) as [id [e|]]; simpl;
    [split; [discriminate|by intros (? & _)]|].
  destruct (ParseFloat _) as [value [e|]]; simpl;
    [split; [discriminate|by intros (_ & ? & _)]|].
  split.
  - by intros [= <-].
  - intros ([= ->] & [= ->] & Hname & Htype & Huom).
    destruct x. simpl in *. by subst.
Qed.

Lemma convertRegion_Next region r :
  convertRegion ParseFloat region = Next r <-> regionOf ParseFloat region r.
Proof.
  unfold convertRegion, regionOf.
  destruct (each _ _) as [extremes|e] eqn:Hextremes; simpl.
  - apply each_Next in Hextremes.
    rewrite (Forall2_pointwise _ _ _ _ convertExtreme_Next) in Hextremes. split.
    + by intros [= <-].
    + intros (Hid & Hname & Hr). destruct r. simpl in *. subst.
      do 2 f_equal.
      rewrite <- (Forall2_pointwise _ _ _ _ convertExtreme_Next), <- each_Next
        in Hextremes.
      rewrite <- (Forall2_pointwise _ _ _ _ convertExtreme_Next), <- each_Next
        in Hr.
      congruence.
  - split; [discriminate|]. intros (_ & _ & Hr).
    rewrite <- (Forall2_pointwise _ _ _ _ convertExtreme_Next), <- each_Next in Hr.
    congruence.
Qed.

(** X19.  When the response decodes, the latest extremes are returned
    exactly when the two dates parse and there is one region per region of
    the response, in order, with its id and name and one extreme per
    extreme of the region: the parsed location id and value, and the
    location name, type and unit copied. *)
Theorem UkExtremesLatest_value result v :
  decodes
    (fetch JoinPath pick d "ukextremeslatest"
       "txt/wxobs/ukextremes/json/latest" None) result ->
  (UkExtremesLatest JoinPath ParseFloat time_Parse pick d).1 = (Some v, None)
  <->
  time_Parse time.DateOnly (latestExtremesResponse.ExtremeDate result)
  = (LatestExtremes.ExtremeDate v, None) /\
  time_Parse time.RFC3339 (latestExtremesResponse.IssuedAt result)
  = (LatestExtremes.IssuedAt v, None) /\
  Forall2 (regionOf ParseFloat)
    (latestExtremesResponse.Regions_Region result) (LatestExtremes.Regions v).
Proof.
  unfold decodes, UkExtremesLatest.
  destruct (fetch _ _ _ _ _ _) as [[[body target] err] lg]. simpl.
  intros [-> ->]. simpl.
  rewrite <- (Forall2_pointwise _ _ _ _ convertRegion_Next), <- each_Next.
  destruct (each _ _) as [regions|e];
    [|split; [discriminate|by intros (_ & _ & ?)]].
  destruct (time_Parse time.DateOnly _) as [extremeDate [e|]]; simpl;
    [split; [discriminate|by intros (? & _)]|].
  destruct (time_Parse time.RFC3339 _) as [issuedAt [e|]]; simpl;
    [split; [discriminate|by intros (_ & ? & _)]|].
  split.
  - by intros [= <-].
  - intros ([= ->] & [= ->] & [= ->]). by destruct v.
Qed.

(** X20.  The latest extremes fail at the first extreme, in the order of
    the response, whose location id or value does not parse, the id being
    tried first; the two dates are read only after every region, so a bad
    extreme hides a bad date. *)
Theorem UkExtremesLatest_error_order result :
  decodes
    (fetch JoinPath pick d "ukextremeslatest"
       "txt/wxobs/ukextremes/json/latest" None) result ->
  (forall l1 region l2 m1 extreme m2,
     latestExtremesResponse.Regions_Region result = l1 ++ region :: l2 ->
     latestExtremesResponse.Extremes_Extreme region = m1 ++ extreme :: m2 ->
     Forall (fun region =>
               Forall (extremeParses ParseFloat)
                 (latestExtremesResponse.Extremes_Extreme region)) l1 ->
     Forall (extremeParses ParseFloat) m1 ->
     (forall x err,
        strconv.ParseInt (latestExtremesResponse.LocationId extreme) 64
        = (x, Some err) ->
        (UkExtremesLatest JoinPath ParseFloat time_Parse pick d).1
        = (None,
           Some (Errorf "failed to parse location id: %w" [] (Some err)))) /\
     ((strconv.ParseInt (latestExtremesResponse.LocationId extreme) 64).2
      = None ->
      forall x err,
        ParseFloat (latestExtremesResponse.Value extreme) = (x, Some err) ->
        (UkExtremesLatest JoinPath ParseFloat time_Parse pick d).1
        = (None, Some (Errorf "failed to parse value: %w" [] (Some err))))) /\
  (Forall (fun region =>
             Forall (extremeParses ParseFloat)
               (latestExtremesResponse.Extremes_Extreme region))
     (latestExtremesResponse.Regions_Region result) ->
   (forall x err,
      time_Parse time.DateOnly (latestExtremesResponse.ExtremeDate result)
      = (x, Some err) ->
      (UkExtremesLatest JoinPath ParseFloat time_Parse pick d).1
      = (None,
         Some (Errorf "failed to parse the extreme date: %w" [] (Some err)))) /\
   ((time_Parse time.DateOnly
       (latestExtremesResponse.ExtremeDate result)).2 = None ->
    forall x err,
      time_Parse time.RFC3339 (latestExtremesResponse.IssuedAt result)
      = (x, Some err) ->
      (UkExtremesLatest JoinPath ParseFloat time_Parse pick d).1
      = (None,
         Some (Errorf "failed to parse the issued at date: %w" []
                 (Some err))))).
Proof.
  unfold decodes, UkExtremesLatest.
  destruct (fetch _ _ _ _ _ _) as [[[body target] err] lg]. simpl.
  intros [-> ->]. simpl. split.
  - intros l1 region l2 m1 extreme m2 -> Hregion Hl1 Hm1.
    assert (forall e,
              convertExtreme ParseFloat extreme = Return e ->
              each (convertRegion ParseFloat) (l1 ++ region :: l2)
              = Return e) as Hfirst.
    { intros e He. apply each_Return_first.
      - eapply Forall_impl; [done|]. intros r. apply convertRegion_runs.
      - unfold convertRegion. rewrite Hregion.
        rewrite (each_Return_first _ _ _ _ e); [done| |done].
        eapply Forall_impl; [done|]. intros x. apply convertExtreme_runs. }
    split.
    + intros x err Hid.
      rewrite (Hfirst (Errorf "failed to parse location id: %w" []
                         (Some err))); [done|].
      unfold convertExtreme. by rewrite Hid.
    + destruct (strconv.ParseInt _ 64) as [id ?] eqn:Hid. simpl.
      intros -> x err Hvalue.
      rewrite (Hfirst (Errorf "failed to parse value: %w" [] (Some err)));
        [done|].
      unfold convertExtreme. by rewrite Hid, Hvalue.
  - intros Hregions.
    assert (exists regions,
              each (convertRegion ParseFloat)
                (latestExtremesResponse.Regions_Region result)
              = Next regions) as [regions ->].
    { eapply each_runs; [|done]. intros r. apply convertRegion_runs. }
    split; [by intros x err ->|].
    destruct (time_Parse time.DateOnly _) as [extremeDate ?]. simpl.
    intros -> x err ->. done.
Qed.

(** X21.  When the response decodes, the regional sites are returned
    exactly when there is one per location of the response, in order, with
    its parsed id and its name; the first id that does not parse gives the
    error. *)
Theorem RegionalForecastSiteList_value result :
  decodes
    (fetch JoinPath pick d "regional forecast site list"
       "txt/wxfcs/regionalforecast/json/sitelist" None) result ->
  (forall locations,
     (RegionalForecastSiteList JoinPath pick d).1 = (Some locations, None) <->
     Forall2
       (fun s r =>
          strconv.ParseInt (regionalForecastSiteListResponse.Id s) 64
          = (RegionalForecastSite.Id r, None) /\
          RegionalForecastSite.Name r
          = regionalForecastSiteListResponse.Name s)
       (regionalForecastSiteListResponse.Locations_Location result)
       locations) /\
  (forall l1 s l2 x err,
     regionalForecastSiteListResponse.Locations_Location result
     = l1 ++ s :: l2 ->
     Forall (fun s =>
               (strconv.ParseInt (regionalForecastSiteListResponse.Id s)
                  64).2 = None) l1 ->
     strconv.ParseInt (regionalForecastSiteListResponse.Id s) 64
     = (x, Some err) ->
     (RegionalForecastSiteList JoinPath pick d).1
     = (None,
        Some (Errorf "could not parse location id: %w" [] (Some err)))).
Proof.
  unfold decodes, RegionalForecastSiteList.
  destruct (fetch _ _ _ _ _ _) as [[[body target] err] lg]. simpl.
  intros [-> ->]. simpl.
  set (convert := fun s : regionalForecastSiteListResponse.Location => _).
  assert (forall s r,
            convert s = Next r <->
            strconv.ParseInt (regionalForecastSiteListResponse.Id s) 64
            = (RegionalForecastSite.Id r, None) /\
            RegionalForecastSite.Name r
            = regionalForecastSiteListResponse.Name s) as Hconvert.
  { intros s r. unfold convert.
    destruct (strconv.ParseInt _ 64) as [id [e|]]; simpl;
      [split; [discriminate|by intros [? _]]|].
    split; [by intros [= <-]|]. intros [[= ->] Hname]. destruct r.
    simpl in *. by subst. }
  split.
  - intros locations.
    rewrite <- (Forall2_pointwise _ _ _ _ Hconvert), <- each_Next.
    destruct (each _ _); split; congruence.
  - intros l1 s l2 x err -> Hl1 Hid.
    rewrite (each_Return_first _ _ _ _
               (Errorf "could not parse location id: %w" [] (Some err)));
      [done| |by unfold convert; rewrite Hid].
    eapply Forall_impl; [done|]. intros a. unfold convert.
    destruct (strconv.ParseInt (regionalForecastSiteListResponse.Id a) 64)
      as [id ?].
    simpl. intros ->. by eexists.
Qed.

End call_properties.

(** ** Closed instances of the further properties *)

(** In the first record of the sample location, [T] is an integer
    parameter and no string parameter. *)
Lemma forecast_keys_witness :
  exists site Pd f,
    Sample.convert Sample.exeter = (Some site, None) /\
    LocationRep.Periods (SiteRep.Location site) !! 0%nat = Some Pd /\
    Period.Forecasts Pd !! 0%nat = Some f /\
    (is_Some (Forecast.IntParams f !! "T") <->
     "T" <> "$" /\ is_Some (Sample.rep "Day" "17" "12000" !! "T") /\
     "T" ∈ knownIntParams) /\
    (is_Some (Forecast.StringParams f !! "T") <->
     "T" <> "$" /\ is_Some (Sample.rep "Day" "17" "12000" !! "T") /\
     "T" ∉ knownIntParams).
Proof.
  do 3 eexists.
  split; [vm_compute; reflexivity|].
  split; [vm_compute; reflexivity|].
  split; [vm_compute; reflexivity|].
  eapply (forecast_keys Sample.ParseFloat Sample.time_Parse
           Sample.paramDefinitions "Forecast" Sample.nine Sample.pick
           Sample.exeter _ 0%nat 0%nat (Sample.period Sample.reps)
           (Sample.rep "Day" "17" "12000") _ _ "T").
  - vm_compute; reflexivity.
  - vm_compute; reflexivity.
  - vm_compute; reflexivity.
  - vm_compute; reflexivity.
  - vm_compute; reflexivity.
Defined.

(** In the same record the visibility is the string of the record. *)
Lemma forecast_lookup_witness :
  exists site Pd f,
    Sample.convert Sample.exeter = (Some site, None) /\
    LocationRep.Periods (SiteRep.Location site) !! 0%nat = Some Pd /\
    Period.Forecasts Pd !! 0%nat = Some f /\
    (forall x,
       Forecast.IntParams f !! "V" = Some x ->
       exists v,
         Sample.rep "Day" "17" "12000" !! "V" = Some v /\
         strconv.ParseInt v 16 = (IntParameterValue.Value x, None) /\
         -32768 <= IntParameterValue.Value x <= 32767 /\
         Sample.paramDefinitions !! "V"
         = Some (IntParameterValue.Descriptor x)) /\
    (forall y,
       Forecast.StringParams f !! "V" = Some y ->
       Sample.rep "Day" "17" "12000" !! "V"
       = Some (StringParameterValue.Value y) /\
       Sample.paramDefinitions !! "V"
       = Some (StringParameterValue.Descriptor y)).
Proof.
  do 3 eexists.
  split; [vm_compute; reflexivity|].
  split; [vm_compute; reflexivity|].
  split; [vm_compute; reflexivity|].
  eapply (forecast_lookup Sample.ParseFloat Sample.time_Parse
           Sample.paramDefinitions "Forecast" Sample.nine Sample.pick
           Sample.exeter _ 0%nat 0%nat (Sample.period Sample.reps)
           (Sample.rep "Day" "17" "12000") _ _ "V").
  - vm_compute; reflexivity.
  - vm_compute; reflexivity.
  - vm_compute; reflexivity.
  - vm_compute; reflexivity.
  - vm_compute; reflexivity.
Defined.

Lemma convertLocation_preserves_witness :
  exists site,
    Sample.convert Sample.exeter = (Some site, None) /\
    SiteRep.DataDate site = Sample.nine /\
    SiteRep.Type_ site = "Forecast" /\
    LocationRep.Name (SiteRep.Location site)
    = locationEntry.Name Sample.exeter /\
    LocationRep.Country (SiteRep.Location site)
    = locationEntry.Country Sample.exeter /\
    LocationRep.Continent (SiteRep.Location site)
    = locationEntry.Continent Sample.exeter /\
    strconv.ParseInt (locationEntry.Id Sample.exeter) 64
    = (LocationRep.Id (SiteRep.Location site), None) /\
    Sample.ParseFloat (locationEntry.Latitude Sample.exeter)
    = (LocationRep.Latitude (SiteRep.Location site), None) /\
    Sample.ParseFloat (locationEntry.Longitude Sample.exeter)
    = (LocationRep.Longitude (SiteRep.Location site), None) /\
    Forall2
      (fun P Pd =>
         Period.Type_ Pd = locationEntry.Type_ P /\
         Sample.time_Parse "2006-01-02Z" (locationEntry.Value P)
         = (Period.Time_ Pd, None) /\
         length (Period.Forecasts Pd) = length (locationEntry.Rep P))
      (locationEntry.Periods Sample.exeter)
      (LocationRep.Periods (SiteRep.Location site)).
Proof.
  eexists. split; [vm_compute; reflexivity|].
  apply (convertLocation_preserves Sample.ParseFloat Sample.time_Parse
           Sample.paramDefinitions "Forecast" Sample.nine Sample.pick
           Sample.exeter).
  vm_compute; reflexivity.
Defined.

(** A record without [$], after one that converts. *)
Lemma convertLocation_first_failure_witness :
  Sample.convert
    (Sample.location "north" ""
       [Sample.rep "Day" "17" "GO"; Example.unmarked])
  = (None, Some (errorString "could not find forecast offset")).
Proof.
  apply (proj2 (convertLocation_first_failure Sample.ParseFloat
                  Sample.time_Parse Sample.paramDefinitions "Forecast"
                  Sample.nine Sample.pick
                  (Sample.location "north" ""
                     [Sample.rep "Day" "17" "GO"; Example.unmarked])
                  0%nat
                  (Sample.period
                     [Sample.rep "Day" "17" "GO"; Example.unmarked])
                  eq_refl (Forall_nil_2 _))
           Sample.midnight 1%nat Example.unmarked).
  - vm_compute; reflexivity.
  - vm_compute; reflexivity.
  - apply Forall_cons_2; [|by constructor]. split.
    + by exists "Day"; split; [|left].
    + intros k v Hkv Hk.
      assert (k = "T" /\ v = "17" \/ k = "V" /\ v = "GO") as [[-> ->]|[-> ->]].
      { unfold Sample.rep in Hkv.
        apply lookup_insert_Some in Hkv as [[<- <-]|[_ Hkv]]; [done|].
        apply lookup_insert_Some in Hkv as [[<- <-]|[_ Hkv]]; [by left|].
        apply lookup_singleton_Some in Hkv as [<- <-]. by right. }
      * split; [by eexists|]. intros _. vm_compute; reflexivity.
      * split; [by eexists|]. intros Hknown. vm_compute in Hknown.
        discriminate.
  - vm_compute; reflexivity.
Defined.

(** Two sites, the first with an elevation that is no number: both are
    listed and the one warning is logged. *)
Lemma siteList_value_witness :
  exists entries logs,
    siteList
      (jsonSites := Sample.decodeAs
                      (Example.sites [Sample.site "abc"; Sample.site "12.5"]))
      Sample.JoinPath Sample.ParseFloat Sample.pick Example.client "wxfcs"
    = ((Some entries, None), logs) /\
    Forall2 (siteOf Sample.ParseFloat)
      [Sample.site "abc"; Sample.site "12.5"] entries /\
    logs = [slog_Warn "failed to parse elevation"
              [("elevation", logString "abc");
               ("err", logError (strconv.syntaxError "ParseFloat" "abc"))]].
Proof.
  do 2 eexists. split; [vm_compute; reflexivity|].
  unshelve eapply
    (proj1 (siteList_value
              (jsonSites := Sample.decodeAs
                 (Example.sites [Sample.site "abc"; Sample.site "12.5"]))
              Sample.JoinPath Sample.ParseFloat Sample.pick Example.client
              "wxfcs"
              (Example.sites [Sample.site "abc"; Sample.site "12.5"])
              _ _ _)).
  - split; reflexivity.
  - vm_compute; reflexivity.
Defined.

(** The second site has a latitude that is no number: the call fails, and
    the warning about the first site is logged all the same. *)
Lemma siteList_first_failure_witness :
  siteList
    (jsonSites := Sample.decodeAs
                    (Example.sites [Sample.site "abc"; Example.north]))
    Sample.JoinPath Sample.ParseFloat Sample.pick Example.client "wxobs"
  = ((None,
      Some (Errorf "failed to parse latitude %v for sitelist: %w" ["north"]
              (Some (strconv.syntaxError "ParseFloat" "north")))),
     [slog_Warn "failed to parse elevation"
        [("elevation", logString "abc");
         ("err", logError (strconv.syntaxError "ParseFloat" "abc"))]]).
Proof.
  unshelve eapply
    (proj1 (siteList_first_failure
              (jsonSites := Sample.decodeAs
                 (Example.sites [Sample.site "abc"; Example.north]))
              Sample.JoinPath Sample.ParseFloat Sample.pick Example.client
              "wxobs"
              (Example.sites [Sample.site "abc"; Example.north])
              [Sample.site "abc"] Example.north [] _ _ _)
       0%float (strconv.syntaxError "ParseFloat" "north") _).
  - split; reflexivity.
  - reflexivity.
  - repeat constructor.
  - reflexivity.
Defined.

(** A response with one time step. *)
Lemma ForecastTimeStepCapabilities_value_witness :
  (ForecastTimeStepCapabilities
     (jsonCapabilities := Sample.decodeAs (Example.capabilities Sample.stamp))
     Sample.JoinPath Sample.time_Parse Sample.pick Example.client
     ResolutionThreeHourly).1
  = (Some {| TimeSteps.DataDate := Sample.nine;
             TimeSteps.Resolution_ := "daily";
             TimeSteps.Type_ := "wxfcs";
             TimeSteps.TimeSteps := [Sample.nine] |}, None).
Proof.
  unshelve eapply
    (proj2 (proj1 (ForecastTimeStepCapabilities_value
                     (jsonCapabilities :=
                        Sample.decodeAs (Example.capabilities Sample.stamp))
                     Sample.JoinPath Sample.time_Parse Sample.pick
                     Example.client ResolutionThreeHourly
                     (Example.capabilities Sample.stamp) _) _)).
  - split; reflexivity.
  - repeat split. by repeat constructor.
Defined.

(** The forecast for a location is the conversion of the sample location,
    whatever id was asked for. *)
Lemma FiveDayForecast_value_witness :
  (FiveDayForecast
     (jsonSiteRep := Sample.decodeAs (Example.forecast Sample.stamp))
     Sample.JoinPath Sample.ParseFloat Sample.time_Parse Sample.time_Format
     Sample.pick Example.client ResolutionThreeHourly 1 None).1
  = Sample.convert Sample.exeter.
Proof.
  unshelve eapply
    (proj1 (FiveDayForecast_value
              (jsonSiteRep := Sample.decodeAs (Example.forecast Sample.stamp))
              Sample.JoinPath Sample.ParseFloat Sample.time_Parse
              Sample.time_Format Sample.pick Example.client
              ResolutionThreeHourly 1 None (Example.forecast Sample.stamp)
              _ _) Sample.nine _).
  - split; reflexivity.
  - discriminate.
  - reflexivity.
Defined.

(** Two locations, the second with an id that is no number: the call
    fails with the error of that location. *)
Lemma FiveDayForecastForAllLocations_value_witness :
  (FiveDayForecastForAllLocations
     (jsonSiteRepAll :=
        Sample.decodeAs
          (Example.forecasts
             [Sample.exeter; Sample.location "north" "" Sample.reps]))
     Sample.JoinPath Sample.ParseFloat Sample.time_Parse Sample.time_Format
     Sample.pick Example.client ResolutionThreeHourly None).1
  = (None,
     Some (Errorf "failed to parse id: %w" []
             (Some (strconv.syntaxError "ParseInt" "north")))).
Proof.
  unshelve eapply
    (proj2 (FiveDayForecastForAllLocations_value
              (jsonSiteRepAll :=
                 Sample.decodeAs
                   (Example.forecasts
                      [Sample.exeter; Sample.location "north" "" Sample.reps]))
              Sample.JoinPath Sample.ParseFloat Sample.time_Parse
              Sample.time_Format Sample.pick Example.client
              ResolutionThreeHourly None
              (Example.forecasts
                 [Sample.exeter; Sample.location "north" "" Sample.reps])
              Sample.nine _ _)
       [Sample.exeter] (Sample.location "north" "" Sample.reps) [] _ _ _ _).
  - split; reflexivity.
  - reflexivity.
  - reflexivity.
  - apply Forall_cons_2; [|by constructor].
    apply (convertLocation_runs Sample.ParseFloat Sample.time_Parse
             Sample.pick _ "Forecast" Sample.nine).
    vm_compute. by eexists.
  - vm_compute; reflexivity.
Defined.

(** One region with one extreme. *)
Lemma UkExtremesLatest_value_witness :
  exists v,
    (UkExtremesLatest
       (jsonLatestExtremes :=
          Sample.decodeAs
            (Example.latest "2023-06-01" [Example.extreme "310069" "12.5"]))
       Sample.JoinPath Sample.ParseFloat Sample.time_Parse Sample.pick
       Example.client).1 = (Some v, None) /\
    Sample.time_Parse time.DateOnly "2023-06-01"
    = (LatestExtremes.ExtremeDate v, None) /\
    Sample.time_Parse time.RFC3339 Sample.stamp
    = (LatestExtremes.IssuedAt v, None) /\
    Forall2 (regionOf Sample.ParseFloat)
      (latestExtremesResponse.Regions_Region
         (Example.latest "2023-06-01" [Example.extreme "310069" "12.5"]))
      (LatestExtremes.Regions v).
Proof.
  eexists. split; [vm_compute; reflexivity|].
  unshelve eapply
    (proj1 (UkExtremesLatest_value
              (jsonLatestExtremes :=
                 Sample.decodeAs
                   (Example.latest "2023-06-01"
                      [Example.extreme "310069" "12.5"]))
              Sample.JoinPath Sample.ParseFloat Sample.time_Parse Sample.pick
              Example.client
              (Example.latest "2023-06-01" [Example.extreme "310069" "12.5"])
              _ _) _).
  - split; reflexivity.
  - vm_compute; reflexivity.
Defined.

(** An extreme whose value is no number, in a response whose date does
    not parse either: the error is that of the value. *)
Lemma UkExtremesLatest_error_order_witness :
  (UkExtremesLatest
     (jsonLatestExtremes :=
        Sample.decodeAs
          (Example.latest "yesterday"
             [Example.extreme "310069" "12.5";
              Example.extreme "310070" "warm"]))
     Sample.JoinPath Sample.ParseFloat Sample.time_Parse Sample.pick
     Example.client).1
  = (None,
     Some (Errorf "failed to parse value: %w" []
             (Some (strconv.syntaxError "ParseFloat" "warm")))).
Proof.
  unshelve eapply
    (proj2 (proj1 (UkExtremesLatest_error_order
                     (jsonLatestExtremes :=
                        Sample.decodeAs
                          (Example.latest "yesterday"
                             [Example.extreme "310069" "12.5";
                              Example.extreme "310070" "warm"]))
                     Sample.JoinPath Sample.ParseFloat Sample.time_Parse
                     Sample.pick Example.client
                     (Example.latest "yesterday"
                        [Example.extreme "310069" "12.5";
                         Example.extreme "310070" "warm"]) _)
                  []
                  {| latestExtremesResponse.Id := "sw";
                     latestExtremesResponse.Name := "South West England";
                     latestExtremesResponse.Extremes_Extreme :=
                       [Example.extreme "310069" "12.5";
                        Example.extreme "310070" "warm"] |}
                  [] [Example.extreme "310069" "12.5"]
                  (Example.extreme "310070" "warm") [] _ _ _ _)
       _ 0%float (strconv.syntaxError "ParseFloat" "warm") _).
  - split; reflexivity.
  - reflexivity.
  - reflexivity.
  - constructor.
  - repeat constructor.
  - reflexivity.
  - reflexivity.
Defined.

(** Two regional sites, the second with an id that is no number. *)
Lemma RegionalForecastSiteList_value_witness :
  (RegionalForecastSiteList
     (jsonRegionalSites :=
        Sample.decodeAs (Example.regionalSites ["500"; "sw"]))
     Sample.JoinPath Sample.pick Example.client).1
  = (None,
     Some (Errorf "could not parse location id: %w" []
             (Some (strconv.syntaxError "ParseInt" "sw")))).
Proof.
  unshelve eapply
    (proj2 (RegionalForecastSiteList_value
              (jsonRegionalSites :=
                 Sample.decodeAs (Example.regionalSites ["500"; "sw"]))
              Sample.JoinPath Sample.pick Example.client
              (Example.regionalSites ["500"; "sw"]) _)
       [{| regionalForecastSiteListResponse.Id := "500";
           regionalForecastSiteListResponse.Name := "sw" |}]
       {| regionalForecastSiteListResponse.Id := "sw";
          regionalForecastSiteListResponse.Name := "sw" |}
       [] 0 (strconv.syntaxError "ParseInt" "sw") _ _ _).
  - split; reflexivity.
  - reflexivity.
  - repeat constructor.
  - reflexivity.
Defined.
